(** * Facturia: the reporting and invoice routes over the invoice store

    A shallow embedding of the Express routes of [routes/analytics.js],
    [routes/invoices.js] and [routes/suppliers.js] together with the part of
    the relational store their SQL statements rely on.

    - Amounts and every derived figure are PostgreSQL [numeric] values; they
      are embedded as exact rationals ([Q]), so results are stated up to [==].
    - Timestamps are seconds since 1970-01-01T00:00:00 (session time zone
      UTC); [NOW()] is an explicit argument of every route.
    - The [invoices] table is a list of rows in storage order; the
      [suppliers] table, which carries the unique key (name, company_phone)
      that [ON CONFLICT] names, is a finite map on that key. *)

From Stdlib Require Import ZArith QArith Qround Lqa Lia List Bool Ascii String.
From Stdlib Require Import Permutation Sorted.
From stdpp Require Import gmap strings sorting.

Import ListNotations.
Local Open Scope Z_scope.

(** ** Calendar arithmetic of the store *)

Module Calendar.

Definition day_secs : Z := 86400.

(** Days since the epoch of a proleptic Gregorian date. *)
Definition days_from_civil (y m d : Z) : Z :=
  let y' := if m <=? 2 then y - 1 else y in
  let era := y' / 400 in
  let yoe := y' - era * 400 in
  let mp := (m + 9) mod 12 in
  let doy := (153 * mp + 2) / 5 + d - 1 in
  let doe := yoe * 365 + yoe / 4 - yoe / 100 + doy in
  era * 146097 + doe - 719468.

(** The inverse: (year, month, day) of a day number. *)
Definition civil_from_days (z : Z) : Z * Z * Z :=
  let z := z + 719468 in
  let era := z / 146097 in
  let doe := z - era * 146097 in
  let yoe := (doe - doe / 1460 + doe / 36524 - doe / 146096) / 365 in
  let doy := doe - (365 * yoe + yoe / 4 - yoe / 100) in
  let mp := (5 * doy + 2) / 153 in
  let d := doy - (153 * mp + 2) / 5 + 1 in
  let m := if mp <? 10 then mp + 3 else mp - 9 in
  let y := yoe + era * 400 in
  (if m <=? 2 then y + 1 else y, m, d).

Definition is_leap (y : Z) : bool :=
  ((y mod 4 =? 0) && negb (y mod 100 =? 0)) || (y mod 400 =? 0).

Definition days_in_month (y m : Z) : Z :=
  if m =? 2 then (if is_leap y then 29 else 28)
  else if (m =? 4) || (m =? 6) || (m =? 9) || (m =? 11) then 30
  else 31.

(** A timestamp written as a civil date and a time of day. *)
Definition mk_ts (y m d hh mm ss : Z) : Z :=
  days_from_civil y m d * day_secs + hh * 3600 + mm * 60 + ss.

(** [DATE_TRUNC('month', t)] *)
Definition date_trunc_month (t : Z) : Z :=
  let '(y, m, _) := civil_from_days (t / day_secs) in
  days_from_civil y m 1 * day_secs.

(** [CURRENT_DATE], as the timestamp of today's midnight. *)
Definition current_date (now : Z) : Z := (now / day_secs) * day_secs.

(** Adding [k] calendar months keeps the time of day and clamps the day
    of the month to the length of the target month. *)
Definition add_months (t k : Z) : Z :=
  let '(y, m, d) := civil_from_days (t / day_secs) in
  let mi := y * 12 + (m - 1) + k in
  let y' := mi / 12 in
  let m' := mi mod 12 + 1 in
  let d' := Z.min d (days_in_month y' m') in
  days_from_civil y' m' d' * day_secs + t mod day_secs.

(** An [interval] value: months, days and seconds are kept apart. *)
Record interval := mk_interval { iv_months : Z; iv_days : Z; iv_secs : Z }.

Definition months_iv (n : Z) : interval := mk_interval n 0 0.
Definition days_iv (n : Z) : interval := mk_interval 0 n 0.

(** [iv * n] for an integer factor. *)
Definition interval_mul (iv : interval) (n : Z) : interval :=
  mk_interval (iv_months iv * n) (iv_days iv * n) (iv_secs iv * n).

(** [t + iv]: months first, then days, then the time part. *)
Definition ts_plus (t : Z) (iv : interval) : Z :=
  add_months t (iv_months iv) + iv_days iv * day_secs + iv_secs iv.

(** [t - iv] *)
Definition ts_minus (t : Z) (iv : interval) : Z :=
  ts_plus t (interval_mul iv (-1)).

End Calendar.

Import Calendar.

(** ** Numeric helpers of the store *)

Module Numeric.
Local Open Scope Q_scope.

(** Nearest integer, ties away from zero (how [ROUND] treats [numeric]). *)
Definition round_half_away (q : Q) : Z :=
  if Qle_bool 0 q then Qfloor (q + (1 # 2))
  else (- Qfloor (- q + (1 # 2)))%Z.

(** [ROUND(q, 2)] *)
Definition ROUND2 (q : Q) : Q := inject_Z (round_half_away (q * 100)) / 100.

(** [SUM] over a list of numeric values ([0] stands for the [COALESCE]d
    empty sum). *)
Definition SUM (l : list Q) : Q := fold_right Qplus 0 l.

(** [COUNT] over all rows of a group *)
Definition COUNT {A} (l : list A) : Z := Z.of_nat (List.length l).

Definition Qmax (a b : Q) : Q := if Qle_bool a b then b else a.
Definition Qmin (a b : Q) : Q := if Qle_bool a b then a else b.

(** [LEAST(a, b)] *)
Definition LEAST := Qmin.

End Numeric.

Import Numeric.

(** ** Strings as JavaScript and the store handle them *)

Module Text.

Definition is_upper (c : ascii) : bool :=
  let n := nat_of_ascii c in (Nat.leb 65 n && Nat.leb n 90)%bool.
Definition is_lower (c : ascii) : bool :=
  let n := nat_of_ascii c in (Nat.leb 97 n && Nat.leb n 122)%bool.
Definition is_digit (c : ascii) : bool :=
  let n := nat_of_ascii c in (Nat.leb 48 n && Nat.leb n 57)%bool.
Definition is_alpha (c : ascii) : bool := (is_upper c || is_lower c)%bool.
Definition is_space (c : ascii) : bool :=
  let n := nat_of_ascii c in (Nat.eqb n 32 || (Nat.leb 9 n && Nat.leb n 13))%bool.

Definition lower (c : ascii) : ascii :=
  if is_upper c then ascii_of_nat (nat_of_ascii c + 32) else c.
Definition upper (c : ascii) : ascii :=
  if is_lower c then ascii_of_nat (nat_of_ascii c - 32) else c.

Fixpoint map_string (f : ascii -> ascii) (s : string) : string :=
  match s with
  | EmptyString => EmptyString
  | String c r => String (f c) (map_string f r)
  end.

(** [s.toUpperCase()] on ASCII text *)
Definition toUpperCase (s : string) : string := map_string upper s.

Fixpoint drop (n : nat) (s : string) : string :=
  match n, s with
  | O, _ => s
  | S n', String _ r => drop n' r
  | S _, EmptyString => EmptyString
  end.

(** [s.replace(pat, rep)] with a string pattern: only the first
    occurrence of [pat] is replaced. *)
Fixpoint replace (pat rep s : string) : string :=
  if String.prefix pat s then String.append rep (drop (String.length pat) s)
  else match s with
       | EmptyString => EmptyString
       | String c r => String c (replace pat rep r)
       end.

(** [s.length]: the length in UTF-16 code units of a text kept as the
    bytes of its UTF-8 form. A continuation byte adds nothing and the
    first byte of a four-byte form stands for a surrogate pair. *)
Fixpoint utf16_length (s : string) : nat :=
  match s with
  | EmptyString => O
  | String c r =>
      let b := nat_of_ascii c in
      ((if (Nat.leb 128 b && Nat.ltb b 192)%bool then 0
        else if Nat.leb 240 b then 2 else 1) + utf16_length r)%nat
  end.

(** [LIKE] on character lists: [%] matches any run, [_] one character and
    a backslash makes the next pattern character literal. [fold] is the
    case folding applied to both sides ([lower] for [ILIKE]). *)
Fixpoint like_match (fold : ascii -> ascii) (p s : list ascii) {struct p} : bool :=
  match p with
  | [] => match s with [] => true | _ :: _ => false end
  | c :: p' =>
      if Ascii.eqb c "%" then
        (fix star (s : list ascii) : bool :=
           (like_match fold p' s ||
            match s with [] => false | _ :: s' => star s' end)%bool) s
      else if Ascii.eqb c "_" then
        match s with [] => false | _ :: s' => like_match fold p' s' end
      else if Ascii.eqb c "\" then
        match p' with
        | [] => false
        | e :: p'' =>
            match s with
            | [] => false
            | d :: s' => (Ascii.eqb (fold e) (fold d) && like_match fold p'' s')%bool
            end
        end
      else
        match s with
        | [] => false
        | d :: s' => (Ascii.eqb (fold c) (fold d) && like_match fold p' s')%bool
        end
  end.

(** [subject ILIKE pattern] *)
Definition ILIKE (subject pattern : string) : bool :=
  like_match lower (list_ascii_of_string pattern) (list_ascii_of_string subject).

(** The template literal [`%${x}%`] *)
Definition contains_pattern (x : string) : string :=
  String.append "%" (String.append x "%").

End Text.

(** ** Interval literals

    What the store makes of the text of [INTERVAL '...'] is embedded for
    two kinds of text, both made of digits, letters and blanks only, and
    left open for every other text:

    - a list of quantities, each of at most 6 digits and followed by the
      name of its unit, no unit twice, is read as that interval;
    - a text with a word that no name of the input syntax starts like is
      refused. This is the case of the word [da], which the route's text
      holds for every day count.

    Signs, fractions, clock and ISO 8601 forms, quantities of more digits,
    a quantity without a unit and the like are [Unread]: for them the
    embedding says nothing about the store. *)

Module IntervalInput.
Import Text.

Inductive unit_class := UYear | UMonth | UWeek | UDay | UHour | UMinute | USecond.

Definition unit_class_eqb (a b : unit_class) : bool :=
  match a, b with
  | UYear, UYear | UMonth, UMonth | UWeek, UWeek | UDay, UDay
  | UHour, UHour | UMinute, UMinute | USecond, USecond => true
  | _, _ => false
  end.

Definition unit_names : list (string * unit_class) :=
  [ ("y", UYear); ("yr", UYear); ("yrs", UYear); ("year", UYear); ("years", UYear);
    ("mon", UMonth); ("mons", UMonth); ("month", UMonth); ("months", UMonth);
    ("w", UWeek); ("week", UWeek); ("weeks", UWeek);
    ("d", UDay); ("day", UDay); ("days", UDay);
    ("h", UHour); ("hr", UHour); ("hrs", UHour); ("hour", UHour); ("hours", UHour);
    ("m", UMinute); ("min", UMinute); ("mins", UMinute);
    ("minute", UMinute); ("minutes", UMinute);
    ("s", USecond); ("sec", USecond); ("secs", USecond);
    ("second", USecond); ("seconds", USecond) ]%string.

Fixpoint lookup_unit (tbl : list (string * unit_class)) (w : string) : option unit_class :=
  match tbl with
  | [] => None
  | (n, u) :: r => if String.eqb n w then Some u else lookup_unit r w
  end.

(** A field of the text: a run of digits, with its length and value, or a
    run of letters, in lower case, marked when a digit follows it with no
    blank between. *)
Inductive field := FNumber (len : nat) (n : Z) | FWord (w : string) (glued : bool).

Inductive lex_state := Idle | InNumber (len : nat) (n : Z) | InWord (rev_chars : list ascii).

Definition flush (st : lex_state) (glued : bool) : list field :=
  match st with
  | Idle => []
  | InNumber len n => [FNumber len n]
  | InWord w => [FWord (string_of_list_ascii (rev w)) glued]
  end.

Definition digit_value (c : ascii) : Z := Z.of_nat (nat_of_ascii c) - 48.

(** The fields of a text of digits, letters and blanks; [None] for a text
    with any other character. *)
Fixpoint lex (st : lex_state) (l : list ascii) : option (list field) :=
  match l with
  | [] => Some (flush st false)
  | c :: r =>
      if is_digit c then
        match st with
        | InNumber len n => lex (InNumber (S len) (n * 10 + digit_value c)) r
        | _ => option_map (app (flush st true)) (lex (InNumber 1 (digit_value c)) r)
        end
      else if is_alpha c then
        match st with
        | InWord w => lex (InWord (lower c :: w)) r
        | _ => option_map (app (flush st false)) (lex (InWord [lower c]) r)
        end
      else if is_space c then option_map (app (flush st false)) (lex Idle r)
      else None
  end.

(** The letters that start no unit name, month, weekday or other word of
    the store's date and time input. *)
Definition starts_no_word (c : ascii) : bool :=
  existsb (Ascii.eqb c) ["g"; "k"; "l"; "v"; "x"]%char.

(** A word the store knows in no position: [da], or one that starts with
    such a letter. *)
Definition unknown_word (w : string) : bool :=
  String.eqb w "da"
  || match w with
     | String c _ => starts_no_word c
     | EmptyString => false
     end.

Definition unknown_field (f : field) : bool :=
  match f with
  | FWord w _ => unknown_word w
  | FNumber _ _ => false
  end.

Definition int32_max : Z := 2147483647.
Definition max_interval_secs : Z := 9223372036854.

Definition add_field (acc : interval) (u : unit_class) (n : Z) : interval :=
  match u with
  | UYear => mk_interval (iv_months acc + 12 * n) (iv_days acc) (iv_secs acc)
  | UMonth => mk_interval (iv_months acc + n) (iv_days acc) (iv_secs acc)
  | UWeek => mk_interval (iv_months acc) (iv_days acc + 7 * n) (iv_secs acc)
  | UDay => mk_interval (iv_months acc) (iv_days acc + n) (iv_secs acc)
  | UHour => mk_interval (iv_months acc) (iv_days acc) (iv_secs acc + 3600 * n)
  | UMinute => mk_interval (iv_months acc) (iv_days acc) (iv_secs acc + 60 * n)
  | USecond => mk_interval (iv_months acc) (iv_days acc) (iv_secs acc + n)
  end.

(** The fields, rightmost first, of a list of quantities with their
    units. [ty] is the unit named and still waiting for its quantity,
    [seen] the units that have one. *)
Fixpoint decode (fs : list field) (ty : option unit_class)
         (seen : list unit_class) (acc : interval) : option interval :=
  match fs with
  | [] =>
      match ty, seen with
      | None, _ :: _ => Some acc
      | _, _ => None
      end
  | FWord w glued :: r =>
      match ty, lookup_unit unit_names w with
      | None, Some u => if glued then None else decode r (Some u) seen acc
      | _, _ => None
      end
  | FNumber len n :: r =>
      match ty with
      | Some u =>
          if (6 <? len)%nat || existsb (unit_class_eqb u) seen then None
          else decode r None (u :: seen) (add_field acc u n)
      | None => None
      end
  end.

(** What the store makes of a text, as far as it is embedded. *)
Inductive reading := Reads (iv : interval) | Refused | Unread.

Definition read_interval (text : string) : reading :=
  match lex Idle (list_ascii_of_string text) with
  | None => Unread
  | Some fs =>
      if existsb unknown_field fs && negb (String.prefix "P" text) then Refused
      else if (100 <? String.length text)%nat then Unread
      else
        match decode (rev fs) None [] (mk_interval 0 0 0) with
        | Some iv => Reads iv
        | None => Unread
        end
  end.

(** The value of [INTERVAL 'text'] when the text is read. *)
Definition parse_interval (text : string) : option interval :=
  match read_interval text with
  | Reads iv => Some iv
  | _ => None
  end.

Definition unread (text : string) : bool :=
  match read_interval text with
  | Unread => true
  | _ => false
  end.

Definition interval_ok (iv : interval) : bool :=
  (Z.abs (iv_months iv) <=? int32_max) && (Z.abs (iv_days iv) <=? int32_max)
  && (Z.abs (iv_secs iv) <=? max_interval_secs).

(** [iv * n], rejected when a field leaves its range. *)
Definition interval_times (iv : interval) (n : Z) : option interval :=
  let r := interval_mul iv n in if interval_ok r then Some r else None.

Definition min_timestamp : Z := mk_ts (-4713) 11 24 0 0 0.
Definition end_timestamp : Z := mk_ts 294277 1 1 0 0 0.

(** [t - iv], rejected when the result is not a representable timestamp. *)
Definition timestamp_minus (t : Z) (iv : interval) : option Z :=
  let r := ts_minus t iv in
  if (min_timestamp <=? r) && (r <? end_timestamp) then Some r else None.

End IntervalInput.

(** ** Data model *)

Inductive invoice_status := pending | confirmed | paid.

Definition status_name (s : invoice_status) : string :=
  match s with
  | pending => "pending"
  | confirmed => "confirmed"
  | paid => "paid"
  end.

(** [['pending', 'confirmed', 'paid'].includes(s)], with the member found. *)
Definition status_of_string (s : string) : option invoice_status :=
  if String.eqb s "pending" then Some pending
  else if String.eqb s "confirmed" then Some confirmed
  else if String.eqb s "paid" then Some paid
  else None.

Definition status_eqb (a b : invoice_status) : bool :=
  match a, b with
  | pending, pending | confirmed, confirmed | paid, paid => true
  | _, _ => false
  end.

(** A row of [invoices]. *)
Module Invoice.
Record t := mk {
  id : Z;
  company_phone : string;
  supplier_name : string;
  amount : Q;
  currency : string;
  invoice_date : option Z;
  due_date : option Z;
  tax_id : option string;
  description : option string;
  category : option string;
  status : invoice_status;
  created_at : Z;
  updated_at : option Z;
  confirmed_at : option Z
}.
End Invoice.

(** A row of [suppliers]; the contact columns other than [rating] play no
    part in the routes embedded here. *)
Module Supplier.
Record t := mk {
  name : string;
  company_phone : string;
  total_invoices : Z;
  total_amount : Q;
  last_invoice_date : option Z;
  rating : option Z;
  created_at : Z;
  updated_at : option Z
}.
End Supplier.

(** The store: both tables and the sequence behind [invoices.id]. *)
Record store := mk_store {
  invoices : list Invoice.t;
  suppliers : gmap (string * string) Supplier.t;
  next_invoice_id : Z
}.

(** What a route answers: the status code and, on success, the payload.
    [NotCovered] is no answer of the program: it marks a request whose
    answer hangs on a part of the store's input syntax that is not
    embedded, so that nothing is stated about it. *)
Inductive response (A : Type) :=
| Ok200 (data : A)
| Created201 (data : A)
| BadRequest400
| NotFound404
| ServerError500
| NotCovered.
Arguments Ok200 {A} data.
Arguments Created201 {A} data.
Arguments BadRequest400 {A}.
Arguments NotFound404 {A}.
Arguments ServerError500 {A}.
Arguments NotCovered {A}.

(** [if (x)] on an optional request string: absent and empty are falsy. *)
Definition truthy (x : option string) : option string :=
  match x with
  | Some s => if String.eqb s "" then None else Some s
  | None => None
  end.

(** A statement that names [$1], run with the array [params]: the store
    rejects it when the array does not bind the parameter. *)
Definition with_param1 {A} (params : list string) (body : string -> option A) : option A :=
  match params with
  | [] => None
  | p :: _ => body p
  end.

(** [transaction(callback)]: the callback's writes are kept when it
    returns and undone when it throws. *)
Definition transaction {A} (callback : store -> option (A * store)) (st : store)
  : option A * store :=
  match callback st with
  | Some (a, st') => (Some a, st')
  | None => (None, st)
  end.

(** ** routes/invoices.js: the write path *)

Module Invoices.

(** The JSON body of [POST /api/invoices], field by field. *)
Record body := mk_body {
  b_company_phone : option string;
  b_supplier_name : option string;
  b_amount : option Q;
  b_currency : option string;
  b_invoice_date : option Z;
  b_due_date : option Z;
  b_tax_id : option string;
  b_description : option string;
  b_category : option string;
  b_status : option string
}.

(** The value [invoiceSchema.validate] hands back. *)
Record value := mk_value {
  company_phone : string;
  supplier_name : string;
  amount : Q;
  currency : string;
  invoice_date : option Z;
  due_date : option Z;
  tax_id : option string;
  description : option string;
  category : option string;
  status : invoice_status
}.

(** [Joi.string().required()]: present and not empty. *)
Definition required_string (x : option string) : option string := truthy x.

(** [Number.MAX_SAFE_INTEGER] *)
Definition max_safe_integer : Q := 9007199254740991.

(** [Joi.number().positive()]: above zero, and a number the validator
    takes to be safe. *)
Definition positive_number (a : Q) : bool :=
  negb (Qle_bool a 0) && Qle_bool a max_safe_integer.

(** [Joi.string().length(3)] *)
Definition length3 (s : string) : bool := Nat.eqb (Text.utf16_length s) 3.

(** [invoiceSchema.validate(req.body)] *)
Definition invoiceSchema_validate (b : body) : option value :=
  phone ← required_string (b_company_phone b);
  supplier ← required_string (b_supplier_name b);
  amt ← b_amount b;
  if negb (positive_number amt) then None else
  cur ← match b_currency b with
        | None => Some "EUR"
        | Some c => if length3 c then Some c else None
        end;
  st ← match b_status b with
       | None => Some pending
       | Some s => status_of_string s
       end;
  Some (mk_value phone supplier amt cur (b_invoice_date b) (b_due_date b)
                 (b_tax_id b) (b_description b) (b_category b) st).

(** [INSERT INTO invoices (...) VALUES (..., NOW()) RETURNING *] *)
Definition insert_invoice (now : Z) (v : value) (st : store) : Invoice.t * store :=
  let row := Invoice.mk (next_invoice_id st) (company_phone v) (supplier_name v)
               (amount v) (currency v) (invoice_date v) (due_date v) (tax_id v)
               (description v) (category v) (status v) now None None in
  (row, mk_store (invoices st ++ [row]) (suppliers st) (next_invoice_id st + 1)).

(** [value.invoice_date || new Date()] *)
Definition invoice_date_or_now (now : Z) (v : value) : Z :=
  match invoice_date v with
  | Some d => d
  | None => now
  end.

(** [INSERT INTO suppliers ... ON CONFLICT (name, company_phone) DO UPDATE] *)
Definition upsert_supplier (now : Z) (v : value) (st : store) : store :=
  let key := (supplier_name v, company_phone v) in
  let row :=
    match suppliers st !! key with
    | None =>
        Supplier.mk (supplier_name v) (company_phone v) 1 (amount v)
          (Some (invoice_date_or_now now v)) None now None
    | Some s =>
        Supplier.mk (Supplier.name s) (Supplier.company_phone s)
          (Supplier.total_invoices s + 1)
          (Supplier.total_amount s + amount v)%Q
          (Some (invoice_date_or_now now v)) (Supplier.rating s)
          (Supplier.created_at s) (Some now)
    end in
  mk_store (invoices st) (<[key := row]> (suppliers st)) (next_invoice_id st).

(** [POST /api/invoices] *)
Definition post_invoice (st : store) (now : Z) (b : body) : response Invoice.t * store :=
  match invoiceSchema_validate b with
  | None => (BadRequest400, st)
  | Some v =>
      match transaction (fun st0 =>
               let '(row, st1) := insert_invoice now v st0 in
               Some (row, upsert_supplier now v st1)) st with
      | (Some row, st') => (Created201 row, st')
      | (None, st') => (ServerError500, st')
      end
  end.

(** The [SET] list of the status statement. *)
Definition set_status (now : Z) (s : invoice_status) (i : Invoice.t) : Invoice.t :=
  Invoice.mk (Invoice.id i) (Invoice.company_phone i) (Invoice.supplier_name i)
    (Invoice.amount i) (Invoice.currency i) (Invoice.invoice_date i)
    (Invoice.due_date i) (Invoice.tax_id i) (Invoice.description i)
    (Invoice.category i) s (Invoice.created_at i) (Some now)
    (match s with
     | confirmed => Some now
     | _ => Invoice.confirmed_at i
     end).

(** [UPDATE invoices SET ... WHERE id = $2 RETURNING *] *)
Definition update_status (now : Z) (s : invoice_status) (target : Z)
           (rows : list Invoice.t) : list Invoice.t :=
  map (fun i => if Invoice.id i =? target then set_status now s i else i) rows.

(** [PATCH /api/invoices/:id/status] *)
Definition patch_status (st : store) (now : Z) (target : Z) (status_text : string)
  : response Invoice.t * store :=
  match status_of_string status_text with
  | None => (BadRequest400, st)
  | Some s =>
      let rows' := update_status now s target (invoices st) in
      let st' := mk_store rows' (suppliers st) (next_invoice_id st) in
      match List.filter (fun i => Invoice.id i =? target) rows' with
      | [] => (NotFound404, st')
      | row :: _ => (Ok200 row, st')
      end
  end.

End Invoices.

(** ** Relational operators shared by the statements *)

Module Sql.

Section Grouping.
Context {K A : Type} (ltb eqb : K -> K -> bool).

(** Adds a row to the group of its key; groups stay in key order and a
    group keeps its rows in storage order. *)
Fixpoint insert_group (k : K) (x : A) (gs : list (K * list A)) : list (K * list A) :=
  match gs with
  | [] => [(k, [x])]
  | (k', xs) :: r =>
      if ltb k k' then (k, [x]) :: gs
      else if eqb k k' then (k', x :: xs) :: r
      else (k', xs) :: insert_group k x r
  end.

(** [GROUP BY key ... ORDER BY key] *)
Definition GROUP_BY (key : A -> K) (l : list A) : list (K * list A) :=
  fold_right (fun x acc => insert_group (key x) x acc) [] l.
End Grouping.

Section Ordering.
Context {A : Type} (le : A -> A -> bool).

Fixpoint insert_by (x : A) (l : list A) : list A :=
  match l with
  | [] => [x]
  | y :: r => if le x y then x :: l else y :: insert_by x r
  end.

(** [ORDER BY]: an insertion sort, so that rows that compare equal keep
    their storage order. The store promises no order among such rows, and
    may order them differently from one statement to the next: this is
    one order it may produce, and only what holds of every sorted
    permutation of the rows holds of the store. *)
Definition ORDER_BY (l : list A) : list A := fold_right insert_by [] l.
End Ordering.

(** Rows whose column [col] is not [NULL], each with the column's value. *)
Definition not_null {A} (col : A -> option Z) (l : list A) : list (Z * A) :=
  flat_map (fun x => match col x with Some d => [(d, x)] | None => [] end) l.

(** [COUNT(DISTINCT ...)] on text *)
Fixpoint distinct (l : list string) : list string :=
  match l with
  | [] => []
  | x :: r => if existsb (String.eqb x) r then distinct r else x :: distinct r
  end.

(** What [parseInt] made of a request value. *)
Inductive js_int := JsInt (n : Z) | JsNaN.

(** The largest [bigint]: a [LIMIT] or [OFFSET] parameter above it is
    rejected, as is a negative one. *)
Definition bigint_max : Z := 9223372036854775807.

Definition row_count_ok (n : Z) : bool := (0 <=? n) && (n <=? bigint_max).

(** A date bound as a statement parameter: the store reads the text as a
    timestamp or rejects it. *)
Inductive date_text := DateText (t : Z) | BadDateText.

End Sql.

(** ** routes/analytics.js *)

Module Analytics.
Import Text IntervalInput Sql.
Local Open Scope Q_scope.

Definition of_company (c : string) (i : Invoice.t) : bool :=
  String.eqb (Invoice.company_phone i) c.

Definition sum_amount (rows : list Invoice.t) : Q := SUM (map Invoice.amount rows).

Definition has_status (s : invoice_status) (i : Invoice.t) : bool :=
  status_eqb (Invoice.status i) s.

(** [due_date < CURRENT_DATE AND status != 'paid'] *)
Definition overdue (now : Z) (i : Invoice.t) : bool :=
  match Invoice.due_date i with
  | Some d => (d <? current_date now)%Z && negb (has_status paid i)
  | None => false
  end.

(** *** GET /api/analytics/dashboard *)

(** The [switch (period)]: the filter on [created_at] it selects. *)
Definition dateFilter (period : string) (now : Z) (i : Invoice.t) : bool :=
  let iv :=
    if String.eqb period "7d" then days_iv 7
    else if String.eqb period "30d" then days_iv 30
    else if String.eqb period "90d" then days_iv 90
    else if String.eqb period "1y" then months_iv 12
    else days_iv 30 in
  (ts_minus now iv <=? Invoice.created_at i)%Z.

(** [period.replace('d', ' days').replace('y', ' year')] *)
Definition previous_interval_text (period : string) : string :=
  replace "y" " year" (replace "d" " days" period).

(** The bounds [(lo, hi)] of [previous_period_stats]:
    [created_at < NOW() - iv] and [created_at >= NOW() - iv * 2], for an
    interval text that is read; the statement fails when the text is
    refused or a bound is no timestamp. *)
Definition previous_window_of (iv : interval) (now : Z) : option (Z * Z) :=
  iv2 ← interval_times iv 2;
  hi ← timestamp_minus now iv;
  lo ← timestamp_minus now iv2;
  Some (lo, hi).

Definition previous_window (period : string) (now : Z) : option (Z * Z) :=
  iv ← parse_interval (previous_interval_text period);
  previous_window_of iv now.

Record metrics := mk_metrics {
  total_invoices : Z;
  total_amount : Q;
  avg_amount : Q;
  unique_suppliers : Z;
  pending_invoices : Z;
  confirmed_invoices : Z;
  paid_invoices : Z;
  overdue_invoices : Z;
  prev_total_invoices : Z;
  prev_total_amount : Q;
  amount_change_percent : Q;
  invoices_change_percent : Q
}.

(** [COALESCE(AVG(amount), 0)], as the exact quotient: the store rounds it
    at a scale that depends on the scale of the [amount] column. *)
Definition avg_or_zero (rows : list Invoice.t) : Q :=
  match rows with
  | [] => 0
  | _ :: _ => sum_amount rows / inject_Z (COUNT rows)
  end.

(** The first [CASE] of the final [SELECT]. *)
Definition amount_change (total prev_total : Q) : Q :=
  if Qle_bool prev_total 0 then 0
  else ROUND2 ((total - prev_total) / prev_total * 100).

(** The second [CASE]: the counts are cast to [numeric] by the division. *)
Definition invoices_change (total prev_total : Z) : Q :=
  if (0 <? prev_total)%Z
  then ROUND2 (inject_Z (total - prev_total) / inject_Z prev_total * 100)
  else 0.

(** The metrics statement, run with the array [params]. *)
Definition metrics_query (period : string) (params : list string)
           (st : store) (now : Z) : option metrics :=
  with_param1 params (fun c =>
    '(lo, hi) ← previous_window period now;
    let ps := List.filter (fun i => of_company c i && dateFilter period now i)
                (invoices st) in
    let pps := List.filter (fun i => of_company c i
                               && (Invoice.created_at i <? hi)%Z
                               && (lo <=? Invoice.created_at i)%Z)
                 (invoices st) in
    Some (mk_metrics
            (COUNT ps) (sum_amount ps) (avg_or_zero ps)
            (COUNT (distinct (map Invoice.supplier_name ps)))
            (COUNT (List.filter (has_status pending) ps))
            (COUNT (List.filter (has_status confirmed) ps))
            (COUNT (List.filter (has_status paid) ps))
            (COUNT (List.filter (overdue now) ps))
            (COUNT pps) (sum_amount pps)
            (amount_change (sum_amount ps) (sum_amount pps))
            (invoices_change (COUNT ps) (COUNT pps)))).

(** The route, up to [metrics: metricsResult.rows[0]]. The three
    listings that follow it (categories, suppliers, monthly trend) only
    use the static date filter and add nothing to the metrics. A period
    whose interval text is left unread is not covered. *)
Definition dashboard (st : store) (now : Z)
           (company_phone period : option string) : response metrics :=
  match truthy company_phone with
  | None => BadRequest400
  | Some c =>
      let period := match period with Some p => p | None => "30d"%string end in
      if unread (previous_interval_text period) then NotCovered
      else
        match metrics_query period [c] st now with
        | Some m => Ok200 m
        | None => ServerError500
        end
  end.

(** *** GET /api/analytics/trends: the growth analysis *)

Definition month_of_row (r : Z * Invoice.t) : Z := date_trunc_month (fst r).

(** The rows of company [c] with
    [invoice_date >= NOW() - INTERVAL 'n months'], each with its date. *)
Definition dated_since (n : Z) (c : string) (st : store) (now : Z)
  : list (Z * Invoice.t) :=
  List.filter (fun r => (ts_minus now (months_iv n) <=? fst r)%Z)
    (not_null Invoice.invoice_date (List.filter (of_company c) (invoices st))).

(** [SELECT DATE_TRUNC('month', invoice_date), SUM(amount) ... WHERE
    invoice_date >= NOW() - INTERVAL 'n months' GROUP BY 1 ORDER BY 1] *)
Definition monthly_data (n : Z) (c : string) (st : store) (now : Z) : list (Z * Q) :=
  map (fun g => (fst g, sum_amount (map snd (snd g))))
    (GROUP_BY Z.ltb Z.eqb month_of_row (dated_since n c st now)).

Record growth_row := mk_growth_row {
  month : Z;
  monthly_amount : Q;
  previous_month : option Q;
  growth_rate : Q
}.

(** The [CASE] over [LAG(monthly_amount)]: a [NULL] lag is not [> 0]. *)
Definition lag_growth_rate (amount : Q) (lag : option Q) : Q :=
  match lag with
  | Some p => if Qle_bool p 0 then 0 else ROUND2 ((amount - p) / p * 100)
  | None => 0
  end.

(** [LAG(monthly_amount) OVER (ORDER BY month)] along the ordered rows. *)
Fixpoint with_lag (lag : option Q) (rows : list (Z * Q)) : list growth_row :=
  match rows with
  | [] => []
  | (m, a) :: r => mk_growth_row m a lag (lag_growth_rate a lag) :: with_lag (Some a) r
  end.

(** [... FROM monthly_data ORDER BY month DESC LIMIT 6] for company [c]. *)
Definition growth_rows (c : string) (st : store) (now : Z) : list growth_row :=
  firstn 6 (rev (with_lag None (monthly_data 12 c st now))).

(** The growth statement, run with the array [params]. *)
Definition growthAnalysis (params : list string) (st : store) (now : Z)
  : option (list growth_row) :=
  with_param1 params (fun c => Some (growth_rows c st now)).


(** *** GET /api/analytics/predictions *)

Definition MAX_of (x : Q) (l : list Q) : Q := fold_right Qmax x l.
Definition MIN_of (x : Q) (l : list Q) : Q := fold_right Qmin x l.

(** The subquery of [growth_rate]: the monthly totals of the last six
    months, [ORDER BY month DESC LIMIT 2]. *)
Definition latest_two_months (c : string) (st : store) (now : Z) : list (Z * Q) :=
  firstn 2 (rev (monthly_data 6 c st now)).

(** The [CASE] of [growth_rate] over the subquery's totals; [None] is the
    store's division-by-zero error. *)
Definition monthly_growth_rate (totals : list Q) : option Q :=
  match totals with
  | t :: rest =>
      if (2 <=? COUNT totals)%Z then
        let mx := MAX_of t rest in
        let mn := MIN_of t rest in
        if Qeq_bool mn 0 then None else Some ((mx - mn) / mn * 100)
      else Some 0
  | [] => Some 0
  end.

(** [recent_trend]: [AVG(amount)] ([NULL] without rows) and [COUNT].
    The average is the exact quotient. The store rounds a [numeric]
    quotient at a scale that depends on the scale of the [amount] column,
    which the schema fixes, so a figure derived from an average that is no
    finite decimal may differ from this one in its last digit. *)
Definition recent_trend (c : string) (st : store) (now : Z) : option Q * Z :=
  let rows := dated_since 3 c st now in
  (match rows with
   | [] => None
   | _ :: _ => Some (sum_amount (map snd rows) / inject_Z (COUNT rows))
   end, COUNT rows).

Record predictions := mk_predictions {
  next_month_predicted_amount : option Q;
  next_month_predicted_invoices : Z;
  confidence_level : string;
  based_on_months : Z
}.

(** [CEIL(n * 1.1)] *)
Definition ceil_eleven_tenths (n : Z) : Z := Qceiling (inject_Z n * (11 # 10)).

(** The historical statement, run with [params]: [Some None] is an empty
    result (no month in [monthly_avg] to join with). *)
Definition historicalData (params : list string) (st : store) (now : Z)
  : option (option predictions) :=
  with_param1 params (fun c =>
    gr ← monthly_growth_rate (map snd (latest_two_months c st now));
    let '(recent_avg, recent_count) := recent_trend c st now in
    match monthly_data 12 c st now with
    | [] => Some None
    | _ :: _ =>
        Some (Some (mk_predictions
          (option_map (fun avg => ROUND2 (avg * inject_Z recent_count * (1 + gr / 100)))
             recent_avg)
          (ceil_eleven_tenths recent_count)
          (if (10 <=? recent_count)%Z then "High"
           else if (5 <=? recent_count)%Z then "Medium" else "Low")%string
          3))
    end).

(** The route, up to [predictions: historicalData.rows[0]?.predictions]. *)
Definition predictions_route (st : store) (now : Z) (company_phone : option string)
  : response (option predictions) :=
  match truthy company_phone with
  | None => BadRequest400
  | Some c =>
      match historicalData [c] st now with
      | Some p => Ok200 p
      | None => ServerError500
      end
  end.

(** *** GET /api/analytics/cashflow *)

Record cashflow_bucket := mk_bucket {
  cf_month : Z;
  pending_payments : Q;
  completed_payments : Q;
  overdue_count : Z;
  overdue_amount : Q
}.

Definition bucket_of_group (now : Z) (g : Z * list (Z * Invoice.t)) : cashflow_bucket :=
  let rows := map snd (snd g) in
  mk_bucket (fst g)
    (sum_amount (List.filter (has_status confirmed) rows))
    (sum_amount (List.filter (has_status paid) rows))
    (COUNT (List.filter (overdue now) rows))
    (sum_amount (List.filter (overdue now) rows)).

(** [monthly_cashflow] for company [c]: the rows with [due_date] between
    [NOW() - INTERVAL 'n months'] and [NOW() + INTERVAL '3 months'],
    grouped by the month of [due_date]. *)
Definition monthly_cashflow (n : Z) (c : string) (st : store) (now : Z)
  : list cashflow_bucket :=
  map (bucket_of_group now)
    (GROUP_BY Z.ltb Z.eqb month_of_row
       (List.filter (fun r => (ts_minus now (months_iv n) <=? fst r)%Z
                              && (fst r <=? ts_plus now (months_iv 3))%Z)
          (not_null Invoice.due_date
             (List.filter (of_company c) (invoices st))))).

Record upcoming := mk_upcoming {
  up_due_date : Z;
  up_supplier_name : string;
  up_amount : Q;
  up_status : invoice_status;
  urgency : string
}.

(** The [CASE] that labels an obligation. *)
Definition urgency_of (now due : Z) : string :=
  (if (due <? current_date now)%Z then "overdue"
   else if (due <=? ts_plus (current_date now) (days_iv 7))%Z then "due_this_week"
   else if (due <=? ts_plus (current_date now) (days_iv 30))%Z then "due_this_month"
   else "future")%string.

(** [upcoming_payments] for company [c]. *)
Definition upcoming_payments (c : string) (st : store) (now : Z) : list upcoming :=
  map (fun r => mk_upcoming (fst r) (Invoice.supplier_name (snd r))
                  (Invoice.amount (snd r)) (Invoice.status (snd r))
                  (urgency_of now (fst r)))
    (firstn 20
       (ORDER_BY (fun a b => (fst a <=? fst b)%Z)
          (List.filter (fun r => (ts_minus (current_date now) (days_iv 30) <=? fst r)%Z)
             (not_null Invoice.due_date
                (List.filter (fun i => of_company c i
                                       && (has_status confirmed i || has_status pending i))
                   (invoices st)))))).

(** The cash-flow statement, run with the array [params]. The interval
    text is built from [parseInt(months)]; a [NaN] makes it unreadable. *)
Definition cashflowData (months : js_int) (params : list string)
           (st : store) (now : Z) : option (list cashflow_bucket * list upcoming) :=
  match months with
  | JsNaN => None
  | JsInt n =>
      if negb (interval_ok (months_iv n)) then None else
      with_param1 params (fun c =>
        Some (monthly_cashflow n c st now, upcoming_payments c st now))
  end.

(** The route: [months] is the request value after [parseInt], [None]
    when the request leaves it out ([months = 6]). The statement is sent
    without a parameter array. *)
Definition cashflow (st : store) (now : Z) (company_phone : option string)
           (months : option js_int)
  : response (list cashflow_bucket * list upcoming) :=
  match truthy company_phone with
  | None => BadRequest400
  | Some c =>
      let months := match months with Some m => m | None => JsInt 6 end in
      match cashflowData months [] st now with
      | Some data => Ok200 data
      | None => ServerError500
      end
  end.

End Analytics.

(** ** routes/suppliers.js: GET /api/suppliers/analytics/top *)

Module Suppliers.
Import Text Sql.
Local Open Scope Q_scope.

(** [EXTRACT(DAYS FROM (a - b))] of two timestamps: the whole days of the
    difference. *)
Definition EXTRACT_DAYS (a b : Z) : Z := Z.quot (a - b) day_secs.

(** The importance score of a group, from its three aggregates:
    [SUM(i.amount)], [COUNT] and the days since [MAX(i.invoice_date)]. *)
Definition importance_score (total_amount : Q) (invoice_count : Z)
           (days_since_last_invoice : Z) : Q :=
  (total_amount / 1000) * (4 # 10)
  + inject_Z invoice_count * (3 # 10)
  + (30 - LEAST 30 (inject_Z days_since_last_invoice)) * (3 # 10).

Record ranked := mk_ranked {
  r_supplier_name : string;
  invoice_count : Z;
  r_total_amount : Q;
  r_last_invoice_date : Z;
  r_rating : option Z;
  score : Q
}.

(** The [switch (period)] of the route, on [invoice_date]. *)
Definition dateFilter (period : string) (now : Z) (r : Z * Invoice.t) : bool :=
  let n :=
    (if String.eqb period "1m" then 1
     else if String.eqb period "3m" then 3
     else if String.eqb period "6m" then 6
     else 12)%Z in
  (ts_minus now (months_iv n) <=? fst r)%Z.

Definition MAX_date (rows : list (Z * Invoice.t)) : Z :=
  fold_right (fun r acc => Z.max (fst r) acc)
    (match rows with r :: _ => fst r | [] => 0%Z end) rows.

Definition rank_group (st : store) (c : string) (now : Z)
           (g : string * list (Z * Invoice.t)) : ranked :=
  let rows := snd g in
  let total := SUM (map (fun r => Invoice.amount (snd r)) rows) in
  let last := MAX_date rows in
  mk_ranked (fst g) (COUNT rows) total last
    (s ← suppliers st !! (fst g, c); Supplier.rating s)
    (importance_score total (COUNT rows) (EXTRACT_DAYS now last)).

(** The ranking statement for company [c] and [LIMIT n]. *)
Definition top_query (period : string) (c : string) (n : nat)
           (st : store) (now : Z) : list ranked :=
  firstn n
    (ORDER_BY (fun a b => Qle_bool (score b) (score a))
       (map (rank_group st c now)
          (GROUP_BY String.ltb String.eqb
             (fun r => Invoice.supplier_name (snd r))
             (List.filter (dateFilter period now)
                (not_null Invoice.invoice_date
                   (List.filter (Analytics.of_company c) (invoices st))))))).

(** The route, up to [suppliers: result.rows]. *)
Definition top (st : store) (now : Z) (company_phone period : option string)
           (limit : option js_int) : response (list ranked) :=
  match truthy company_phone with
  | None => BadRequest400
  | Some c =>
      let period := match period with Some p => p | None => "12m"%string end in
      match (match limit with Some l => l | None => JsInt 10 end) with
      | JsInt n => if row_count_ok n then Ok200 (top_query period c (Z.to_nat n) st now)
                   else ServerError500
      | JsNaN => ServerError500
      end
  end.

End Suppliers.

(** ** routes/invoices.js: GET /api/invoices *)

Module Listing.
Import Text Sql.

Record list_query := mk_list_query {
  q_company_phone : option string;
  q_status : option string;
  q_category : option string;
  q_supplier : option string;
  q_date_from : option date_text;
  q_date_to : option date_text;
  q_limit : option js_int;
  q_offset : option js_int;
  q_sort_by : option string;
  q_sort_order : option string
}.

(** A row of the listing: [i.*] with the two columns of the left join. *)
Record listed := mk_listed {
  inv : Invoice.t;
  supplier_full_name : option string;
  supplier_rating : option Z
}.

(** [FROM invoices i LEFT JOIN suppliers s ON i.supplier_name = s.name
    AND i.company_phone = s.company_phone] *)
Definition join_supplier (st : store) (i : Invoice.t) : listed :=
  let s := suppliers st !! (Invoice.supplier_name i, Invoice.company_phone i) in
  mk_listed i (Supplier.name <$> s) (s ≫= Supplier.rating).

Definition text_ilike (col : option string) (x : string) : bool :=
  match col with
  | Some v => ILIKE v (contains_pattern x)
  | None => false
  end.

(** One conjunct per [if (...) { baseQuery += ' AND ...' }] whose request
    value is truthy; a conjunct is [None] when the store cannot read its
    parameter. *)
Definition company_conjunct (q : list_query) : list (option (Invoice.t -> bool)) :=
  match truthy (q_company_phone q) with
  | Some c => [Some (fun i => String.eqb (Invoice.company_phone i) c)]
  | None => []
  end.

Definition status_conjunct (q : list_query) : list (option (Invoice.t -> bool)) :=
  match truthy (q_status q) with
  | Some s => [Some (fun i => String.eqb (status_name (Invoice.status i)) s)]
  | None => []
  end.

Definition category_conjunct (q : list_query) : list (option (Invoice.t -> bool)) :=
  match truthy (q_category q) with
  | Some x => [Some (fun i => text_ilike (Invoice.category i) x)]
  | None => []
  end.

Definition supplier_conjunct (q : list_query) : list (option (Invoice.t -> bool)) :=
  match truthy (q_supplier q) with
  | Some x => [Some (fun i => text_ilike (Some (Invoice.supplier_name i)) x)]
  | None => []
  end.

Definition date_conjunct (d : option date_text) (cmp : Z -> Z -> bool)
  : list (option (Invoice.t -> bool)) :=
  match d with
  | Some (DateText t) =>
      [Some (fun i => match Invoice.invoice_date i with
                      | Some v => cmp v t
                      | None => false
                      end)]
  | Some BadDateText => [None]
  | None => []
  end.

(** The conjuncts other than the company's. *)
Definition other_conjuncts (q : list_query) : list (option (Invoice.t -> bool)) :=
  status_conjunct q ++ category_conjunct q ++ supplier_conjunct q
  ++ date_conjunct (q_date_from q) Z.geb ++ date_conjunct (q_date_to q) Z.leb.

(** [WHERE 1=1 AND ...] as built by the route. *)
Definition conjuncts (q : list_query) : list (option (Invoice.t -> bool)) :=
  company_conjunct q ++ other_conjuncts q.

(** The conjunction, or [None] when a parameter is unreadable. *)
Fixpoint where_clause (cs : list (option (Invoice.t -> bool)))
  : option (Invoice.t -> bool) :=
  match cs with
  | [] => Some (fun _ => true)
  | None :: _ => None
  | Some p :: r =>
      match where_clause r with
      | Some k => Some (fun i => p i && k i)
      | None => None
      end
  end.

Inductive sort_column := by_created_at | by_invoice_date | by_amount | by_supplier_name.

(** [validSortColumns.includes(sort_by) ? sort_by : 'created_at'] *)
Definition sortColumn (q : list_query) : sort_column :=
  match q_sort_by q with
  | Some s =>
      if String.eqb s "invoice_date" then by_invoice_date
      else if String.eqb s "amount" then by_amount
      else if String.eqb s "supplier_name" then by_supplier_name
      else by_created_at
  | None => by_created_at
  end.

(** [sort_order.toUpperCase() === 'ASC'] *)
Definition sort_ascending (q : list_query) : bool :=
  match q_sort_order q with
  | Some s => String.eqb (toUpperCase s) "ASC"
  | None => false
  end.

(** Ascending order on a column; a [NULL] sorts after every value. *)
Definition column_le (col : sort_column) (a b : listed) : bool :=
  match col with
  | by_created_at => Invoice.created_at (inv a) <=? Invoice.created_at (inv b)
  | by_invoice_date =>
      match Invoice.invoice_date (inv a), Invoice.invoice_date (inv b) with
      | Some x, Some y => x <=? y
      | Some _, None => true
      | None, Some _ => false
      | None, None => true
      end
  | by_amount => Qle_bool (Invoice.amount (inv a)) (Invoice.amount (inv b))
  | by_supplier_name =>
      String.leb (Invoice.supplier_name (inv a)) (Invoice.supplier_name (inv b))
  end.

(** [ORDER BY i.${sortColumn} ${sortDirection}] *)
Definition order_le (q : list_query) (a b : listed) : bool :=
  if sort_ascending q then column_le (sortColumn q) a b
  else column_le (sortColumn q) b a.

(** [LIMIT]/[OFFSET] parameter: the store rejects [NaN], a negative
    number and one that is no [bigint]. *)
Definition row_count (x : option js_int) (default : Z) : option nat :=
  match x with
  | None => Some (Z.to_nat default)
  | Some (JsInt n) => if row_count_ok n then Some (Z.to_nat n) else None
  | Some JsNaN => None
  end.

(** Every row the [WHERE] clause keeps, in [ORDER BY] order. *)
Definition matching (st : store) (q : list_query) : option (list listed) :=
  keep ← where_clause (conjuncts q);
  Some (ORDER_BY (order_le q)
          (map (join_supplier st) (List.filter keep (invoices st)))).

(** The route: [data] and [pagination.total]. The count statement is the
    main one cut before [ORDER BY], run without the last two parameters. *)
Definition list_invoices (st : store) (q : list_query)
  : response (list listed * Z) :=
  match matching st q, row_count (q_limit q) 50, row_count (q_offset q) 0 with
  | Some rows, Some lim, Some off =>
      Ok200 (firstn lim (skipn off rows), COUNT rows)
  | _, _, _ => ServerError500
  end.

End Listing.

(** ** Readings of the specification and notions the proofs use *)


(** The signed change the specification gives for the forecast, before
    any rounding. *)
Definition signed_percent_change (latest previous : Q) : Q :=
  if Qeq_bool previous 0 then 0%Q else ((latest - previous) / previous * 100)%Q.

(** The data model's invariant on amounts. *)
Definition amounts_positive (st : store) : Prop :=
  Forall (fun i => (0 < Invoice.amount i)%Q) (invoices st).


(** The period selectors the dashboard's [switch] names. *)
Definition listed_periods : list string := ["7d"; "30d"; "90d"; "1y"]%string.

Definition in_last_30_days (c : string) (now : Z) (i : Invoice.t) : bool :=
  Analytics.of_company c i && (ts_minus now (days_iv 30) <=? Invoice.created_at i).

Definition in_window (c : string) (lo hi : Z) (i : Invoice.t) : bool :=
  Analytics.of_company c i && (Invoice.created_at i <? hi) && (lo <=? Invoice.created_at i).

(** The row [i] moved to company [c]. *)
Definition with_company (c : string) (i : Invoice.t) : Invoice.t :=
  Invoice.mk (Invoice.id i) c (Invoice.supplier_name i) (Invoice.amount i)
    (Invoice.currency i) (Invoice.invoice_date i) (Invoice.due_date i)
    (Invoice.tax_id i) (Invoice.description i) (Invoice.category i)
    (Invoice.status i) (Invoice.created_at i) (Invoice.updated_at i)
    (Invoice.confirmed_at i).

(** A row predicate that does not look at the company. *)
Definition ignores_company (p : Invoice.t -> bool) : Prop :=
  forall i c, p (with_company c i) = p i.

(** The key of the supplier row an invoice belongs to. *)
Definition supplier_key (v : Invoices.value) : string * string :=
  (Invoices.supplier_name v, Invoices.company_phone v).

(** What a status change to [s] at time [now] does to one row. *)
Definition status_changed (now target : Z) (s : invoice_status) (i i' : Invoice.t) : Prop :=
  if Invoice.id i =? target
  then Invoice.id i' = target
       /\ Invoice.status i' = s
       /\ Invoice.confirmed_at i' =
            match s with confirmed => Some now | _ => Invoice.confirmed_at i end
  else i' = i.

(** The rows of the group with key [k]. *)
Fixpoint rows_of {A} (k : Z) (gs : list (Z * list A)) : list A :=
  match gs with
  | [] => []
  | (k1, xs) :: r => if k1 =? k then xs else rows_of k r
  end.

Definition key_lt {B} (g h : Z * B) : Prop := fst g < fst h.





(** ** Scenarios *)

Module Scenario.

Definition company : string := "+34600000000".
Definition other_company : string := "+34911111111".
Definition now : Z := mk_ts 2024 4 10 12 0 0.

Definition invoice_row (id : Z) (c s : string) (a : Q) (date : Z)
           (due : option Z) (stt : invoice_status) (created : Z) : Invoice.t :=
  Invoice.mk id c s a "EUR" (Some date) due None None None stt created None None.

(** One confirmed invoice of 121.00 that fell due yesterday. *)
Definition overdue_store : store :=
  mk_store
    [ invoice_row 1 company "Acme" 121 (mk_ts 2024 3 10 0 0 0)
        (Some (mk_ts 2024 4 9 0 0 0)) confirmed (mk_ts 2024 3 10 9 0 0) ]
    ∅ 2.

(** 200 invoiced in February, 100 in March. *)
Definition shrinking_store : store :=
  mk_store
    [ invoice_row 1 company "Acme" 200 (mk_ts 2024 2 12 0 0 0) None paid
        (mk_ts 2024 2 12 9 0 0);
      invoice_row 2 company "Acme" 100 (mk_ts 2024 3 12 0 0 0) None pending
        (mk_ts 2024 3 12 9 0 0) ]
    ∅ 3.

(** 100 invoiced in January (entered a year before), nothing in February,
    50 in March. *)
Definition gap_store : store :=
  mk_store
    [ invoice_row 1 company "Acme" 100 (mk_ts 2024 1 15 0 0 0) None paid
        (mk_ts 2023 1 15 9 0 0);
      invoice_row 2 company "Acme" 50 (mk_ts 2024 3 5 0 0 0) None pending
        (mk_ts 2024 3 5 9 0 0) ]
    ∅ 3.

(** An invoice confirmed on 11 March. *)
Definition confirmed_invoice : Invoice.t :=
  Invoice.mk 1 company "Acme" 121 "EUR" (Some (mk_ts 2024 3 10 0 0 0)) None
    None None None confirmed (mk_ts 2024 3 10 9 0 0)
    (Some (mk_ts 2024 3 11 8 0 0)) (Some (mk_ts 2024 3 11 8 0 0)).

Definition confirmed_store : store := mk_store [confirmed_invoice] ∅ 2.

(** Invoices of two companies. *)
Definition two_company_store : store :=
  mk_store
    [ invoice_row 1 company "Acme" 100 (mk_ts 2024 1 15 0 0 0) None paid
        (mk_ts 2024 1 15 9 0 0);
      invoice_row 2 other_company "Borealis" 50 (mk_ts 2024 3 5 0 0 0) None pending
        (mk_ts 2024 3 5 9 0 0) ]
    ∅ 3.

(** A listing request with no parameter at all. *)
Definition bare_listing : Listing.list_query :=
  Listing.mk_list_query None None None None None None None None None None.

Definition body_of (a : Q) (date : option Z) : Invoices.body :=
  Invoices.mk_body (Some company) (Some "Acme"%string) (Some a) None date None
    None None None None.

Definition value_of (a : Q) (date : option Z) : Invoices.value :=
  Invoices.mk_value company "Acme" a "EUR" date None None None None pending.

Definition empty_store : store := mk_store [] ∅ 1.

(** A supplier whose last invoice is dated 1 March. *)
Definition supplier_store : store :=
  mk_store []
    {[ ("Acme"%string, company) :=
         Supplier.mk "Acme" company 1 100 (Some (mk_ts 2024 3 1 0 0 0)) None
           (mk_ts 2024 3 1 9 0 0) None ]}
    2.

End Scenario.

(** ** routes/invoices.js: DELETE /api/invoices/:id and PUT /api/invoices/:id *)

Module InvoiceEdits.

(** What [DELETE ... RETURNING id, supplier_name, amount] hands back. *)
Record deleted := mk_deleted {
  d_id : Z;
  d_supplier_name : string;
  d_amount : Q
}.

(** [DELETE FROM invoices WHERE id = $1 RETURNING ...], then the route:
    the first returned row, or 404 when no row went. *)
Definition delete_invoice (st : store) (target : Z) : response deleted * store :=
  let gone := List.filter (fun i => Invoice.id i =? target) (invoices st) in
  let st' := mk_store (List.filter (fun i => negb (Invoice.id i =? target)) (invoices st))
               (suppliers st) (next_invoice_id st) in
  match gone with
  | [] => (NotFound404, st')
  | row :: _ =>
      (Ok200 (mk_deleted (Invoice.id row) (Invoice.supplier_name row) (Invoice.amount row)),
       st')
  end.

(** The JSON body of [PUT /api/invoices/:id], field by field. *)
Record update_body := mk_update_body {
  u_supplier_name : option string;
  u_amount : option Q;
  u_currency : option string;
  u_invoice_date : option Z;
  u_due_date : option Z;
  u_tax_id : option string;
  u_description : option string;
  u_category : option string;
  u_status : option string
}.

(** The value [updateSchema.validate] hands back: the keys of the body. *)
Record update_value := mk_update_value {
  uv_supplier_name : option string;
  uv_amount : option Q;
  uv_currency : option string;
  uv_invoice_date : option Z;
  uv_due_date : option Z;
  uv_tax_id : option string;
  uv_description : option string;
  uv_category : option string;
  uv_status : option invoice_status
}.

(** An optional key under a rule: absent passes, present must satisfy it. *)
Definition optional {A} (rule : A -> bool) (x : option A) : option (option A) :=
  match x with
  | None => Some None
  | Some a => if rule a then Some (Some a) else None
  end.

(** [Joi.string()]: not empty. *)
Definition nonempty (s : string) : bool := negb (String.eqb s "").

Definition is_present {A} (x : option A) : bool :=
  match x with Some _ => true | None => false end.

(** [.min(1)]: the body has a key. *)
Definition has_key (b : update_body) : bool :=
  is_present (u_supplier_name b) || is_present (u_amount b)
  || is_present (u_currency b) || is_present (u_invoice_date b)
  || is_present (u_due_date b) || is_present (u_tax_id b)
  || is_present (u_description b) || is_present (u_category b)
  || is_present (u_status b).

(** [updateSchema.validate(req.body)] *)
Definition updateSchema_validate (b : update_body) : option update_value :=
  sn ← optional nonempty (u_supplier_name b);
  am ← optional Invoices.positive_number (u_amount b);
  cu ← optional Invoices.length3 (u_currency b);
  ca ← optional nonempty (u_category b);
  st ← match u_status b with
       | None => Some None
       | Some s => match status_of_string s with
                   | Some v => Some (Some v)
                   | None => None
                   end
       end;
  if has_key b
  then Some (mk_update_value sn am cu (u_invoice_date b) (u_due_date b)
               (u_tax_id b) (u_description b) ca st)
  else None.

(** [updates.length], before [updated_at = NOW()] is pushed. *)
Definition updates_length (v : update_value) : nat :=
  List.length
    (List.filter (fun x => x)
       [ is_present (uv_supplier_name v); is_present (uv_amount v);
         is_present (uv_currency v); is_present (uv_invoice_date v);
         is_present (uv_due_date v); is_present (uv_tax_id v);
         is_present (uv_description v); is_present (uv_category v);
         is_present (uv_status v) ]).

Definition or_keep {A} (new : option A) (old : A) : A :=
  match new with Some a => a | None => old end.

Definition or_keep_null {A} (new : option A) (old : option A) : option A :=
  match new with Some a => Some a | None => old end.

(** The [SET] list built from the value's entries, then [updated_at]. *)
Definition set_fields (now : Z) (v : update_value) (i : Invoice.t) : Invoice.t :=
  Invoice.mk (Invoice.id i) (Invoice.company_phone i)
    (or_keep (uv_supplier_name v) (Invoice.supplier_name i))
    (or_keep (uv_amount v) (Invoice.amount i))
    (or_keep (uv_currency v) (Invoice.currency i))
    (or_keep_null (uv_invoice_date v) (Invoice.invoice_date i))
    (or_keep_null (uv_due_date v) (Invoice.due_date i))
    (or_keep_null (uv_tax_id v) (Invoice.tax_id i))
    (or_keep_null (uv_description v) (Invoice.description i))
    (or_keep_null (uv_category v) (Invoice.category i))
    (or_keep (uv_status v) (Invoice.status i))
    (Invoice.created_at i) (Some now) (Invoice.confirmed_at i).

(** [PUT /api/invoices/:id] *)
Definition put_invoice (st : store) (now : Z) (target : Z) (b : update_body)
  : response Invoice.t * store :=
  match updateSchema_validate b with
  | None => (BadRequest400, st)
  | Some v =>
      if Nat.eqb (updates_length v) 0 then (BadRequest400, st)
      else
        let rows' := map (fun i => if Invoice.id i =? target then set_fields now v i else i)
                       (invoices st) in
        let st' := mk_store rows' (suppliers st) (next_invoice_id st) in
        match List.filter (fun i => Invoice.id i =? target) rows' with
        | [] => (NotFound404, st')
        | row :: _ => (Ok200 row, st')
        end
  end.

End InvoiceEdits.

(** ** Days of the week and fields of a date *)

Module Weekdays.

(** [EXTRACT(DOW FROM t)]: 0 is Sunday; the epoch fell on a Thursday. *)
Definition EXTRACT_DOW (t : Z) : Z := (t / day_secs + 4) mod 7.

(** [DATE_TRUNC('week', t)]: midnight of the Monday of the week of [t]. *)
Definition date_trunc_week (t : Z) : Z :=
  let d := t / day_secs in (d - (d + 3) mod 7) * day_secs.

Definition day_names : list string :=
  [ "Sunday   "; "Monday   "; "Tuesday  "; "Wednesday";
    "Thursday "; "Friday   "; "Saturday " ]%string.

(** [TO_CHAR(t, 'Day')]: the English day name, blank-padded to 9. *)
Definition TO_CHAR_Day (t : Z) : string :=
  nth (Z.to_nat (EXTRACT_DOW t)) day_names ""%string.

(** [EXTRACT(YEAR FROM t)], [EXTRACT(MONTH FROM t)], [EXTRACT(DAY FROM t)] *)
Definition EXTRACT_YEAR (t : Z) : Z := fst (fst (civil_from_days (t / day_secs))).
Definition EXTRACT_MONTH (t : Z) : Z := snd (fst (civil_from_days (t / day_secs))).
Definition EXTRACT_DAY (t : Z) : Z := snd (civil_from_days (t / day_secs)).

End Weekdays.

(** ** routes/analytics.js: the other two views of GET /api/analytics/trends *)

Module TrendViews.
Import Text Sql Weekdays.
Local Open Scope Q_scope.

Record monthly_trend := mk_monthly_trend {
  mt_month : Z;
  mt_invoice_count : Z;
  mt_total_amount : Q;
  mt_avg_amount : Q;
  mt_unique_suppliers : Z
}.

(** [ROUND(AVG(amount)::numeric, 2)] over a group, which has a row. *)
Definition avg_amount (rows : list Invoice.t) : Q :=
  ROUND2 (Analytics.sum_amount rows / inject_Z (COUNT rows)).

Definition monthly_trend_of (g : Z * list (Z * Invoice.t)) : monthly_trend :=
  let rows := map snd (snd g) in
  mk_monthly_trend (fst g) (COUNT rows) (Analytics.sum_amount rows) (avg_amount rows)
    (COUNT (distinct (map Invoice.supplier_name rows))).

(** [${period === '12m' ? '12 months' : '6 months'}] *)
Definition trend_months (period : string) : Z :=
  if String.eqb period "12m" then 12%Z else 6%Z.

(** The monthly statement, run with the array [params]. *)
Definition monthlyTrends (period : string) (params : list string) (st : store) (now : Z)
  : option (list monthly_trend) :=
  with_param1 params (fun c =>
    Some (map monthly_trend_of
            (GROUP_BY Z.ltb Z.eqb Analytics.month_of_row
               (Analytics.dated_since (trend_months period) c st now)))).

Record weekly_pattern := mk_weekly_pattern {
  day_of_week : Z;
  day_name : string;
  wp_invoice_count : Z;
  wp_total_amount : Q;
  wp_avg_amount : Q
}.

(** The two grouping expressions of the weekly statement. *)
Definition weekly_key (r : Z * Invoice.t) : Z * string :=
  (EXTRACT_DOW (fst r), TO_CHAR_Day (date_trunc_week (fst r))).

Definition weekly_key_ltb (a b : Z * string) : bool :=
  (fst a <? fst b)%Z || ((fst a =? fst b)%Z && String.ltb (snd a) (snd b)).

Definition weekly_key_eqb (a b : Z * string) : bool :=
  (fst a =? fst b)%Z && String.eqb (snd a) (snd b).

Definition weekly_pattern_of (g : (Z * string) * list (Z * Invoice.t)) : weekly_pattern :=
  let rows := map snd (snd g) in
  mk_weekly_pattern (fst (fst g)) (snd (fst g)) (COUNT rows)
    (Analytics.sum_amount rows) (avg_amount rows).

(** The weekly statement, run with the array [params]; rows come in
    [day_of_week] order. *)
Definition weeklyTrends (params : list string) (st : store) (now : Z)
  : option (list weekly_pattern) :=
  with_param1 params (fun c =>
    Some (map weekly_pattern_of
            (GROUP_BY weekly_key_ltb weekly_key_eqb weekly_key
               (Analytics.dated_since 3 c st now)))).

Record trends_data := mk_trends_data {
  td_period : string;
  monthly_trends : list monthly_trend;
  weekly_patterns : list weekly_pattern;
  growth_analysis : list Analytics.growth_row
}.

(** The whole route. *)
Definition trends_route (st : store) (now : Z) (company_phone period : option string)
  : response trends_data :=
  match truthy company_phone with
  | None => BadRequest400
  | Some c =>
      let period := match period with Some p => p | None => "12m"%string end in
      match monthlyTrends period [c] st now, weeklyTrends [c] st now,
            Analytics.growthAnalysis [c] st now with
      | Some m, Some w, Some g => Ok200 (mk_trends_data period m w g)
      | _, _, _ => ServerError500
      end
  end.

End TrendViews.

(** ** routes/analytics.js: the supplier patterns of GET /api/analytics/predictions *)

Module Patterns.
Import Text Sql.
Local Open Scope Q_scope.

Record supplier_pattern := mk_supplier_pattern {
  sp_supplier_name : string;
  frequency : Z;
  sp_avg_amount : Q;
  last_invoice : Z;
  sp_status : string
}.

(** The [CASE] on [MAX(invoice_date)]. *)
Definition pattern_status (now last : Z) : string :=
  (if (last <? ts_minus now (days_iv 60))%Z then "overdue"
   else if (last <? ts_minus now (days_iv 30))%Z then "expected_soon"
   else "recent")%string.

Definition pattern_of (now : Z) (g : string * list (Z * Invoice.t)) : supplier_pattern :=
  let rows := snd g in
  let last := Suppliers.MAX_date rows in
  mk_supplier_pattern (fst g) (COUNT rows)
    (TrendViews.avg_amount (map snd rows)) last (pattern_status now last).

(** [ORDER BY frequency DESC, last_invoice DESC] *)
Definition pattern_le (a b : supplier_pattern) : bool :=
  (frequency b <? frequency a)%Z
  || ((frequency a =? frequency b)%Z && (last_invoice b <=? last_invoice a)%Z).

(** The groups of the last 12 months by supplier name. *)
Definition supplier_groups (c : string) (st : store) (now : Z)
  : list (string * list (Z * Invoice.t)) :=
  GROUP_BY String.ltb String.eqb (fun r => Invoice.supplier_name (snd r))
    (Analytics.dated_since 12 c st now).

(** The pattern statement, run with the array [params]:
    [HAVING COUNT >= 3 ORDER BY ... LIMIT 10]. *)
Definition supplierPatterns (params : list string) (st : store) (now : Z)
  : option (list supplier_pattern) :=
  with_param1 params (fun c =>
    Some (firstn 10
            (ORDER_BY pattern_le
               (map (pattern_of now)
                  (List.filter (fun g => (3 <=? COUNT (snd g))%Z)
                     (supplier_groups c st now)))))).

End Patterns.

(** ** routes/analytics.js: GET /api/analytics/monthly *)

Module Monthly.
Import Text Sql Weekdays.
Local Open Scope Q_scope.

(** A year or month bound as a statement parameter: the store reads the
    text as a number (whole numbers here) or rejects it. *)
Inductive num_text := NumText (n : Z) | BadNumText.

Record summary := mk_summary {
  s_total_invoices : Z;
  s_total_amount : option Q;
  s_avg_amount : option Q;
  s_min_amount : option Q;
  s_max_amount : option Q;
  s_unique_suppliers : Z;
  s_unique_categories : Z
}.

Record daily := mk_daily {
  db_day : Z;
  db_invoices : Z;
  db_amount : Q
}.

Record category_share := mk_category_share {
  cb_category : string;
  cb_count : Z;
  cb_amount : Q;
  cb_percentage : Q
}.

(** The rows of company [c] dated in month [m] of year [y]. *)
Definition in_month (c : string) (y m : Z) (st : store) : list (Z * Invoice.t) :=
  List.filter (fun r => (EXTRACT_YEAR (fst r) =? y)%Z && (EXTRACT_MONTH (fst r) =? m)%Z)
    (not_null Invoice.invoice_date
       (List.filter (Analytics.of_company c) (invoices st))).

(** The categories that are not [NULL]. *)
Definition categories_of (rows : list Invoice.t) : list string :=
  flat_map (fun i => match Invoice.category i with Some s => [s] | None => [] end) rows.

(** [monthly_stats], with the rounding of the final [SELECT]. *)
Definition monthly_stats (rows : list Invoice.t) : summary :=
  match map Invoice.amount rows with
  | [] => mk_summary 0 None None None None 0 0
  | a :: rest =>
      mk_summary (COUNT rows) (Some (Analytics.sum_amount rows))
        (Some (ROUND2 (Analytics.sum_amount rows / inject_Z (COUNT rows))))
        (Some (Analytics.MIN_of a rest)) (Some (Analytics.MAX_of a rest))
        (COUNT (distinct (map Invoice.supplier_name rows)))
        (COUNT (distinct (categories_of rows)))
  end.

(** [daily_breakdown]: one row per day of the month that has an invoice. *)
Definition daily_breakdown (rows : list (Z * Invoice.t)) : list daily :=
  map (fun g => mk_daily (fst g) (COUNT (snd g))
                  (Analytics.sum_amount (map snd (snd g))))
    (GROUP_BY Z.ltb Z.eqb (fun r => EXTRACT_DAY (fst r)) rows).

(** The rows with a category that is neither [NULL] nor empty. *)
Definition categorized (rows : list Invoice.t) : list (string * Invoice.t) :=
  flat_map (fun i => match Invoice.category i with
                     | Some s => if String.eqb s "" then [] else [(s, i)]
                     | None => []
                     end) rows.

(** [category_breakdown]: each category's share of [SUM(SUM(amount)) OVER ()],
    the total over the groups. [None] is the store's division-by-zero
    error, raised when that total is zero. *)
Definition category_breakdown (rows : list Invoice.t) : option (list category_share) :=
  let groups := GROUP_BY String.ltb String.eqb fst (categorized rows) in
  let grand := SUM (map (fun g => Analytics.sum_amount (map snd (snd g))) groups) in
  match groups with
  | [] => Some []
  | _ :: _ =>
      if Qeq_bool grand 0 then None
      else Some (ORDER_BY (fun a b => Qle_bool (cb_amount b) (cb_amount a))
                   (map (fun g =>
                           let amount := Analytics.sum_amount (map snd (snd g)) in
                           mk_category_share (fst g) (COUNT (snd g)) amount
                             (ROUND2 (amount / grand * 100)))
                      groups))
  end.

(** The right side of [LEFT JOIN ... ON true]: every row, or one row of
    [NULL]s when there is none. *)
Definition left_join_rows {A} (l : list A) : list (option A) :=
  match l with
  | [] => [None]
  | _ :: _ => map Some l
  end.

(** [monthly_stats ms LEFT JOIN daily_breakdown db ON true
     LEFT JOIN category_breakdown cb ON true] *)
Definition joined (days : list daily) (cats : list category_share)
  : list (option daily * option category_share) :=
  flat_map (fun d => map (fun c => (d, c)) (left_join_rows cats)) (left_join_rows days).

Definition some_of {A} (l : list (option A)) : list A :=
  flat_map (fun x => match x with Some a => [a] | None => [] end) l.

(** [json_agg(... ORDER BY db.day) FILTER (WHERE db.day IS NOT NULL)] *)
Definition daily_json (days : list daily) (cats : list category_share) : list daily :=
  ORDER_BY (fun a b => (db_day a <=? db_day b)%Z) (some_of (map fst (joined days cats))).

(** [json_agg(... ORDER BY cb.amount DESC) FILTER (WHERE cb.category IS NOT NULL)] *)
Definition category_json (days : list daily) (cats : list category_share)
  : list category_share :=
  ORDER_BY (fun a b => Qle_bool (cb_amount b) (cb_amount a))
    (some_of (map snd (joined days cats))).

Record monthly_data := mk_monthly_data {
  md_year : Z;
  md_month : Z;
  md_summary : summary;
  md_daily_breakdown : list daily;
  md_category_breakdown : list category_share
}.

(** The route: [year] and [month] are the request values when truthy;
    otherwise the server's current year and month are used. *)
Definition monthly (st : store) (now : Z) (company_phone : option string)
           (year month : option num_text) : response monthly_data :=
  match truthy company_phone with
  | None => BadRequest400
  | Some c =>
      let targetYear := match year with
                        | Some y => y
                        | None => NumText (EXTRACT_YEAR now)
                        end in
      let targetMonth := match month with
                         | Some m => m
                         | None => NumText (EXTRACT_MONTH now)
                         end in
      match targetYear, targetMonth with
      | NumText y, NumText m =>
          let rows := in_month c y m st in
          match category_breakdown (map snd rows) with
          | None => ServerError500
          | Some cats =>
              let days := daily_breakdown rows in
              Ok200 (mk_monthly_data y m (monthly_stats (map snd rows))
                       (daily_json days cats) (category_json days cats))
          end
      | _, _ => ServerError500
      end
  end.

End Monthly.

(** ** routes/analytics.js: the listings of GET /api/analytics/dashboard *)

Module DashboardLists.
Import Text Sql.
Local Open Scope Q_scope.

Record top_category := mk_top_category {
  tc_category : string;
  tc_invoice_count : Z;
  tc_total_amount : Q;
  tc_avg_amount : Q
}.

Record top_supplier := mk_top_supplier {
  ts_supplier_name : string;
  ts_invoice_count : Z;
  ts_total_amount : Q;
  ts_avg_amount : Q;
  ts_last_invoice_date : Z
}.

Record month_trend := mk_month_trend {
  tr_month : Z;
  tr_invoice_count : Z;
  tr_total_amount : Q;
  tr_avg_amount : Q
}.

(** The rows of the period: [WHERE company_phone = $1 ${dateFilter}]. *)
Definition period_rows (period c : string) (st : store) (now : Z) : list Invoice.t :=
  List.filter (fun i => Analytics.of_company c i && Analytics.dateFilter period now i)
    (invoices st).

Definition top_category_of (g : string * list (string * Invoice.t)) : top_category :=
  let rows := map snd (snd g) in
  mk_top_category (fst g) (COUNT rows) (Analytics.sum_amount rows)
    (TrendViews.avg_amount rows).

(** The category statement, run with the array [params]. *)
Definition categoriesResult (period : string) (params : list string)
           (st : store) (now : Z) : option (list top_category) :=
  with_param1 params (fun c =>
    Some (firstn 10
            (ORDER_BY (fun a b => Qle_bool (tc_total_amount b) (tc_total_amount a))
               (map top_category_of
                  (GROUP_BY String.ltb String.eqb fst
                     (Monthly.categorized (period_rows period c st now))))))).

Definition MAX_created (rows : list Invoice.t) : Z :=
  fold_right (fun i acc => Z.max (Invoice.created_at i) acc)
    (match rows with i :: _ => Invoice.created_at i | [] => 0%Z end) rows.

Definition top_supplier_of (g : string * list Invoice.t) : top_supplier :=
  mk_top_supplier (fst g) (COUNT (snd g)) (Analytics.sum_amount (snd g))
    (TrendViews.avg_amount (snd g)) (MAX_created (snd g)).

(** The supplier statement, run with the array [params]. *)
Definition suppliersResult (period : string) (params : list string)
           (st : store) (now : Z) : option (list top_supplier) :=
  with_param1 params (fun c =>
    Some (firstn 10
            (ORDER_BY (fun a b => Qle_bool (ts_total_amount b) (ts_total_amount a))
               (map top_supplier_of
                  (GROUP_BY String.ltb String.eqb Invoice.supplier_name
                     (period_rows period c st now)))))).

Definition month_trend_of (g : Z * list Invoice.t) : month_trend :=
  mk_month_trend (fst g) (COUNT (snd g)) (Analytics.sum_amount (snd g))
    (TrendViews.avg_amount (snd g)).

(** The trend statement, run with the array [params]: the last six months
    by [created_at], [ORDER BY month DESC]. *)
Definition trendResult (params : list string) (st : store) (now : Z)
  : option (list month_trend) :=
  with_param1 params (fun c =>
    Some (rev (map month_trend_of
                 (GROUP_BY Z.ltb Z.eqb (fun i => date_trunc_month (Invoice.created_at i))
                    (List.filter (fun i => Analytics.of_company c i
                                           && (ts_minus now (months_iv 6)
                                               <=? Invoice.created_at i)%Z)
                       (invoices st)))))).

Record dashboard_data := mk_dashboard_data {
  dd_period : string;
  dd_metrics : Analytics.metrics;
  top_categories : list top_category;
  top_suppliers : list top_supplier;
  monthly_trend : list month_trend
}.

(** The whole route: the four statements in turn. *)
Definition dashboard_route (st : store) (now : Z) (company_phone period : option string)
  : response dashboard_data :=
  match truthy company_phone with
  | None => BadRequest400
  | Some c =>
      let period := match period with Some p => p | None => "30d"%string end in
      if IntervalInput.unread (Analytics.previous_interval_text period) then NotCovered
      else
        match Analytics.metrics_query period [c] st now with
        | None => ServerError500
        | Some m =>
            match categoriesResult period [c] st now, suppliersResult period [c] st now,
                  trendResult [c] st now with
            | Some cs, Some ss, Some tr => Ok200 (mk_dashboard_data period m cs ss tr)
            | _, _, _ => ServerError500
            end
        end
  end.

End DashboardLists.

(** ** routes/analytics.js: POST /api/analytics/update-metrics *)

Module DailyMetrics.
Import Text Sql.
Local Open Scope Q_scope.

(** The keys of the JSON body the route reads ([invoice_id] is read and
    not used). *)
Record metrics_body := mk_metrics_body {
  mb_phone : option string;
  mb_action : option string
}.

(** A row of [analytics_daily], as far as the statement writes it. *)
Record daily_row := mk_daily_row {
  ad_total_invoices : Z;
  ad_total_amount : Q;
  ad_pending_invoices : Z;
  ad_new_suppliers : Z;
  ad_created_at : Z
}.

(** The table carries the unique key (company_phone, date) that
    [ON CONFLICT] names; a date is the timestamp of its midnight. *)
Definition analytics_daily := gmap (string * Z) daily_row.

(** [company_phone = $1 AND DATE(created_at) = CURRENT_DATE] *)
Definition created_today (c : string) (now : Z) (i : Invoice.t) : bool :=
  Analytics.of_company c i
  && (current_date (Invoice.created_at i) =? current_date now)%Z.

(** The [SELECT] of the statement: one row of aggregates. *)
Definition todays_row (c : string) (st : store) (now : Z) : daily_row :=
  let rows := List.filter (created_today c now) (invoices st) in
  mk_daily_row (COUNT rows) (Analytics.sum_amount rows)
    (COUNT (List.filter (Analytics.has_status pending) rows))
    (COUNT (distinct (map Invoice.supplier_name rows)))
    now.

(** [INSERT ... ON CONFLICT (company_phone, date) DO UPDATE SET] the four
    counters: a stored row keeps its [created_at]. *)
Definition upsert_daily (c : string) (st : store) (now : Z) (tbl : analytics_daily)
  : analytics_daily :=
  let new := todays_row c st now in
  let row := match tbl !! (c, current_date now) with
             | Some old =>
                 mk_daily_row (ad_total_invoices new) (ad_total_amount new)
                   (ad_pending_invoices new) (ad_new_suppliers new) (ad_created_at old)
             | None => new
             end in
  <[(c, current_date now) := row]> tbl.

(** The route; the answer carries [action]. *)
Definition update_metrics (st : store) (tbl : analytics_daily) (now : Z) (b : metrics_body)
  : response string * analytics_daily :=
  match truthy (mb_phone b), truthy (mb_action b) with
  | Some phone, Some action => (Ok200 action, upsert_daily phone st now tbl)
  | _, _ => (BadRequest400, tbl)
  end.

End DailyMetrics.

(** ** Notions the further properties use *)

(** The rows of the group with key [k], for any key type. *)
Fixpoint group_rows {K A} (eqb : K -> K -> bool) (k : K) (gs : list (K * list A)) : list A :=
  match gs with
  | [] => []
  | (k1, xs) :: r => if eqb k1 k then xs else group_rows eqb k r
  end.

(** What [GROUP BY] needs of the comparison of its keys. *)
Record strict_order {K} (ltb eqb : K -> K -> bool) : Prop := mk_strict_order {
  so_eqb : forall a b, eqb a b = true <-> a = b;
  so_irrefl : forall a, ltb a a = false;
  so_trans : forall a b c, ltb a b = true -> ltb b c = true -> ltb a c = true;
  so_total : forall a b, ltb a b = false -> eqb a b = false -> ltb b a = true
}.

Definition keys_ascending {K B} (ltb : K -> K -> bool) (g h : K * B) : Prop :=
  ltb (fst g) (fst h) = true.

(** A text of decimal digits only. *)
Fixpoint all_digits (s : string) : bool :=
  match s with
  | EmptyString => true
  | String c r => Text.is_digit c && all_digits r
  end.

(** The whole number a text of decimal digits writes. *)
Definition number_of (s : string) : Z :=
  fold_left (fun acc c => acc * 10 + IntervalInput.digit_value c)
    (list_ascii_of_string s) 0.

(** The stored invoices of a supplier key. *)
Definition invoices_of (k : string * string) (st : store) : list Invoice.t :=
  List.filter (fun i => String.eqb (Invoice.supplier_name i) (fst k)
                        && String.eqb (Invoice.company_phone i) (snd k))
    (invoices st).

(** The supplier counters agree with the stored invoices: a row counts
    and sums the invoices of its key, and a key without a row has none. *)
Definition counters_match (st : store) : Prop :=
  forall k,
    match suppliers st !! k with
    | Some row =>
        Supplier.total_invoices row = COUNT (invoices_of k st)
        /\ (Supplier.total_amount row == Analytics.sum_amount (invoices_of k st))%Q
    | None => invoices_of k st = []
    end.

(** A row as every column except [status], [updated_at] and [confirmed_at]. *)
Definition fixed_columns (i : Invoice.t)
  : Z * string * string * Q * string * option Z * option Z
    * option string * option string * option string * Z :=
  (Invoice.id i, Invoice.company_phone i, Invoice.supplier_name i, Invoice.amount i,
   Invoice.currency i, Invoice.invoice_date i, Invoice.due_date i, Invoice.tax_id i,
   Invoice.description i, Invoice.category i, Invoice.created_at i).

(** The page of [rows] at [off] of at most [lim] rows. *)
Definition page {A} (lim off : nat) (rows : list A) : list A :=
  firstn lim (skipn off rows).

(** The columns a field edit never writes. *)
Definition edit_proof_columns (i : Invoice.t) : Z * string * Z * option Z :=
  (Invoice.id i, Invoice.company_phone i, Invoice.created_at i, Invoice.confirmed_at i).

(** The listing request [q] asked for [lim] rows from offset [off]. *)
Definition with_paging (q : Listing.list_query) (lim off : nat) : Listing.list_query :=
  Listing.mk_list_query (Listing.q_company_phone q) (Listing.q_status q)
    (Listing.q_category q) (Listing.q_supplier q) (Listing.q_date_from q)
    (Listing.q_date_to q) (Some (Sql.JsInt (Z.of_nat lim))) (Some (Sql.JsInt (Z.of_nat off)))
    (Listing.q_sort_by q) (Listing.q_sort_order q).

(** The metrics of a company with no invoice in either period. *)
Definition zero_metrics : Analytics.metrics :=
  Analytics.mk_metrics 0 0 0 0 0 0 0 0 0 0 0 0.

(** The sum of a list of counts. *)
Definition total_of (l : list Z) : Z := fold_right Z.add 0 l.

(** Two March invoices of one company, on different days and in
    different categories. *)
Definition two_category_store : store :=
  mk_store
    [ Invoice.mk 1 Scenario.company "Acme" 100 "EUR" (Some (mk_ts 2024 3 5 0 0 0))
        None None None (Some "Energy"%string) pending (mk_ts 2024 3 5 9 0 0) None None;
      Invoice.mk 2 Scenario.company "Borealis" 50 "EUR" (Some (mk_ts 2024 3 12 0 0 0))
        None None None (Some "Telecom"%string) pending (mk_ts 2024 3 12 9 0 0) None None ]
    ∅ 3.

(** The grouping expression [supplier_name] of a dated row. *)
Definition by_supplier (r : Z * Invoice.t) : string := Invoice.supplier_name (snd r).

(** An order [ORDER BY] may return for [rows]: the same rows, each before
    every row it does not sort after. *)
Definition valid_order {A} (le : A -> A -> bool) (rows l : list A) : Prop :=
  Permutation l rows /\ StronglySorted (fun a b => le a b = true) l.

(** No two different rows of [rows] have the same sort key. *)
Definition no_ties {A} (le : A -> A -> bool) (rows : list A) : Prop :=
  forall a b, In a rows -> In b rows -> le a b = true -> le b a = true -> a = b.

(** Three invoices of one supplier and one of another, all of one
    company: January, February and March. *)
Definition recurring_store : store :=
  mk_store
    [ Scenario.invoice_row 1 Scenario.company "Acme" 100 (mk_ts 2024 1 15 0 0 0) None paid
        (mk_ts 2024 1 15 9 0 0);
      Scenario.invoice_row 2 Scenario.company "Acme" 120 (mk_ts 2024 2 15 0 0 0) None paid
        (mk_ts 2024 2 15 9 0 0);
      Scenario.invoice_row 3 Scenario.company "Borealis" 40 (mk_ts 2024 2 20 0 0 0) None
        pending (mk_ts 2024 2 20 9 0 0);
      Scenario.invoice_row 4 Scenario.company "Acme" 90 (mk_ts 2024 3 5 0 0 0) None pending
        (mk_ts 2024 3 5 9 0 0) ]
    ∅ 5.

(** One invoice entered almost three years ago and one entered last
    week. *)
Definition aged_store : store :=
  mk_store
    [ Scenario.invoice_row 1 Scenario.company "Acme" 80 (mk_ts 2021 6 1 0 0 0) None paid
        (mk_ts 2021 6 1 9 0 0);
      Scenario.invoice_row 2 Scenario.company "Acme" 60 (mk_ts 2024 4 3 0 0 0) None pending
        (mk_ts 2024 4 3 9 0 0) ]
    ∅ 3.
(** * Properties *)

(** ** Rounding and the percent-change rule *)

Section Figures.
Import Analytics Sql.
Local Open Scope Q_scope.



Lemma SUM_nonneg l : Forall (fun a => 0 < a) l -> 0 <= SUM l.
Proof.
  induction 1 as [|a l Ha _ IH]; [discriminate |].
  change (SUM (a :: l)) with (a + SUM l). lra.
Qed.

Lemma sum_amount_nonneg rows :
  Forall (fun i => 0 < Invoice.amount i) rows -> 0 <= sum_amount rows.
Proof.
  intros H. apply SUM_nonneg. induction H; cbn; constructor; auto.
Qed.

Lemma Forall_list_filter {A} (P : A -> Prop) f l :
  Forall P l -> Forall P (List.filter f l).
Proof.
  induction 1 as [|x l Hx _ IH]; cbn; [constructor |].
  destruct (f x); [constructor |]; auto.
Qed.





Lemma truthy_nonempty c : c <> ""%string -> truthy (Some c) = Some c.
Proof.
  intros Hc. unfold truthy. destruct (String.eqb_spec c ""); [contradiction | reflexivity].
Qed.

Lemma list_filter_ext {A} (f g : A -> bool) l :
  (forall x, f x = g x) -> List.filter f l = List.filter g l.
Proof.
  intros H. induction l as [|x l IH]; cbn; [reflexivity |].
  rewrite H, IH. reflexivity.
Qed.

End Figures.

(** ** Grouping *)

Section Groups.
Import Sql.
Context {A : Type} (key : A -> Z).

Lemma insert_group_keys (P : Z -> Prop) k (x : A) gs :
  P k -> Forall (fun g => P (fst g)) gs ->
  Forall (fun g => P (fst g)) (insert_group Z.ltb Z.eqb k x gs).
Proof.
  intros Hk. induction 1 as [|[k1 xs] r H1 Hr IH]; cbn.
  - repeat constructor. exact Hk.
  - destruct (k <? k1); [constructor; [exact Hk | constructor; auto] |].
    destruct (k =? k1); constructor; auto.
Qed.

Lemma insert_group_sorted k (x : A) gs :
  StronglySorted key_lt gs ->
  StronglySorted key_lt (insert_group Z.ltb Z.eqb k x gs).
Proof.
  induction 1 as [|[k1 xs] r Hs IH Hall]; cbn.
  - repeat constructor.
  - destruct (k <? k1) eqn:E1.
    + apply Z.ltb_lt in E1. constructor; [constructor; auto |].
      constructor; [exact E1 |].
      eapply List.Forall_impl; [| exact Hall]. unfold key_lt; cbn. intros; lia.
    + destruct (k =? k1) eqn:E2; constructor; auto.
      apply Z.ltb_ge in E1. apply Z.eqb_neq in E2.
      apply (insert_group_keys (fun j => k1 < j)); [lia | exact Hall].
Qed.

Lemma rows_of_above k (gs : list (Z * list A)) :
  Forall (fun g => k < fst g) gs -> rows_of k gs = [].
Proof.
  induction 1 as [|[k1 xs] r H1 _ IH]; cbn; [reflexivity |].
  cbn in H1. destruct (k1 =? k) eqn:E; [apply Z.eqb_eq in E; lia | exact IH].
Qed.

Lemma rows_of_insert k (x : A) gs k' :
  StronglySorted key_lt gs ->
  rows_of k' (insert_group Z.ltb Z.eqb k x gs) =
    if k =? k' then x :: rows_of k' gs else rows_of k' gs.
Proof.
  induction 1 as [|[k1 xs] r Hs IH Hall]; cbn.
  - destruct (k =? k'); reflexivity.
  - destruct (k <? k1) eqn:E1.
    + apply Z.ltb_lt in E1. cbn. destruct (k =? k') eqn:E; [| reflexivity].
      apply Z.eqb_eq in E. subst k'.
      assert (E2 : (k1 =? k) = false) by (apply Z.eqb_neq; lia). rewrite E2.
      rewrite rows_of_above; [reflexivity |].
      eapply List.Forall_impl; [| exact Hall]. unfold key_lt; cbn. intros; lia.
    + destruct (k =? k1) eqn:E2.
      * apply Z.eqb_eq in E2. subst k1. cbn.
        destruct (k =? k'); reflexivity.
      * cbn. rewrite IH. apply Z.eqb_neq in E2.
        destruct (k1 =? k') eqn:E3; [| reflexivity].
        apply Z.eqb_eq in E3. subst k'.
        assert (E4 : (k =? k1) = false) by (apply Z.eqb_neq; lia).
        rewrite E4. reflexivity.
Qed.

Lemma GROUP_BY_cons x l :
  GROUP_BY Z.ltb Z.eqb key (x :: l) =
    insert_group Z.ltb Z.eqb (key x) x (GROUP_BY Z.ltb Z.eqb key l).
Proof. reflexivity. Qed.

Lemma GROUP_BY_sorted l : StronglySorted key_lt (GROUP_BY Z.ltb Z.eqb key l).
Proof.
  induction l as [|x l IH]; [constructor |].
  rewrite GROUP_BY_cons. apply insert_group_sorted, IH.
Qed.

Lemma rows_of_GROUP_BY l k :
  rows_of k (GROUP_BY Z.ltb Z.eqb key l) = List.filter (fun x => key x =? k) l.
Proof.
  induction l as [|x l IH]; [reflexivity |].
  rewrite GROUP_BY_cons, rows_of_insert by apply GROUP_BY_sorted.
  rewrite IH. reflexivity.
Qed.

Lemma In_rows_of k (xs : list A) gs :
  StronglySorted key_lt gs -> In (k, xs) gs -> rows_of k gs = xs.
Proof.
  induction 1 as [|[k1 ys] r Hs IH Hall]; cbn; [tauto |].
  intros [E | Hin].
  - inversion E; subst. rewrite Z.eqb_refl. reflexivity.
  - rewrite List.Forall_forall in Hall. pose proof (Hall _ Hin) as Hlt.
    unfold key_lt in Hlt; cbn in Hlt.
    assert (E : (k1 =? k) = false) by (apply Z.eqb_neq; lia).
    rewrite E. apply IH, Hin.
Qed.

Lemma insert_group_nonempty k (x : A) gs :
  Forall (fun g => snd g <> []) gs ->
  Forall (fun g => snd g <> []) (insert_group Z.ltb Z.eqb k x gs).
Proof.
  induction 1 as [|[k1 xs] r H1 Hr IH]; cbn.
  - repeat constructor. discriminate.
  - destruct (k <? k1); [constructor; [discriminate | constructor; auto] |].
    destruct (k =? k1); constructor; auto.
Qed.

Lemma GROUP_BY_nonempty l :
  Forall (fun g => snd g <> []) (GROUP_BY Z.ltb Z.eqb key l).
Proof.
  induction l as [|x l IH]; [constructor |].
  rewrite GROUP_BY_cons. apply insert_group_nonempty, IH.
Qed.

(** A group holds the rows of its key, in storage order, and is not empty. *)
Lemma GROUP_BY_group l k xs :
  In (k, xs) (GROUP_BY Z.ltb Z.eqb key l) ->
  xs = List.filter (fun x => key x =? k) l /\ xs <> [].
Proof.
  intros Hin. split.
  - rewrite <- rows_of_GROUP_BY. symmetry.
    apply In_rows_of; [apply GROUP_BY_sorted | exact Hin].
  - pose proof (GROUP_BY_nonempty l) as H. rewrite List.Forall_forall in H.
    apply (H _ Hin).
Qed.

End Groups.

(** ** The trend analyzer's growth analysis *)

Section Lag.
Import Analytics Sql.










(** The total of a month in [monthly_data] is the sum over the rows of the
    window that fall in that month, and there is such a row. *)
Lemma monthly_data_total n c st now m t :
  In (m, t) (monthly_data n c st now) ->
  let rows := List.filter (fun r => month_of_row r =? m) (dated_since n c st now) in
  rows <> [] /\ t = sum_amount (map snd rows).
Proof.
  cbv zeta. unfold monthly_data. intros Hin. apply in_map_iff in Hin.
  destruct Hin as ([k xs] & E & Hg). cbn in E. inversion E; subst m t.
  destruct (GROUP_BY_group _ _ _ _ Hg) as [Hxs Hne].
  rewrite <- Hxs. split; [exact Hne | reflexivity].
Qed.


Lemma not_null_Forall {B} (P : B -> Prop) col (l : list B) :
  Forall P l -> Forall (fun r => P (snd r)) (not_null col l).
Proof.
  induction 1 as [|x l Hx _ IH]; cbn; [constructor |].
  destruct (col x); cbn; [constructor |]; auto.
Qed.

Lemma dated_since_positive n c st now :
  amounts_positive st ->
  Forall (fun r => (0 < Invoice.amount (snd r))%Q) (dated_since n c st now).
Proof.
  intros H. unfold dated_since. apply Forall_list_filter.
  apply (not_null_Forall (fun i => (0 < Invoice.amount i)%Q)).
  apply Forall_list_filter, H.
Qed.

Lemma Forall_map_snd {B} (P : B -> Prop) (l : list (Z * B)) :
  Forall (fun r => P (snd r)) l -> Forall P (map snd l).
Proof. induction 1; cbn; constructor; auto. Qed.

Lemma monthly_data_nonneg n c st now m t :
  amounts_positive st -> In (m, t) (monthly_data n c st now) -> (0 <= t)%Q.
Proof.
  intros Hpos Hin. destruct (monthly_data_total _ _ _ _ _ _ Hin) as [_ ->].
  apply sum_amount_nonneg, Forall_map_snd, Forall_list_filter.
  apply dated_since_positive, Hpos.
Qed.

End Lag.

(** ** C4: period-over-period figures *)

Section PercentChange.
Import IntervalInput Analytics Sql.

Lemma previous_window_read period now w :
  previous_window period now = Some w -> unread (previous_interval_text period) = false.
Proof.
  unfold previous_window, parse_interval, unread.
  destruct (read_interval (previous_interval_text period)); [reflexivity | |];
    discriminate.
Qed.

Lemma dashboard_answer st now c period lo hi :
  c <> ""%string ->
  previous_window period now = Some (lo, hi) ->
  let cur := List.filter (fun i => of_company c i && dateFilter period now i)
               (invoices st) in
  let prev := List.filter (in_window c lo hi) (invoices st) in
  dashboard st now (Some c) (Some period)
  = Ok200 (mk_metrics
             (COUNT cur) (sum_amount cur) (avg_or_zero cur)
             (COUNT (distinct (map Invoice.supplier_name cur)))
             (COUNT (List.filter (has_status pending) cur))
             (COUNT (List.filter (has_status confirmed) cur))
             (COUNT (List.filter (has_status paid) cur))
             (COUNT (List.filter (overdue now) cur))
             (COUNT prev) (sum_amount prev)
             (amount_change (sum_amount cur) (sum_amount prev))
             (invoices_change (COUNT cur) (COUNT prev))).
Proof.
  intros Hc Hw. cbv zeta. unfold dashboard.
  rewrite (truthy_nonempty c Hc), (previous_window_read _ _ _ Hw).
  unfold metrics_query, with_param1. rewrite Hw. reflexivity.
Qed.




End PercentChange.

(** ** C7: the growth analysis *)

Section Growth.
Import Analytics Sql.




End Growth.

(** ** C2: the forecast's growth rate *)

Section Forecast.
Import Analytics Sql.
Local Open Scope Q_scope.

Lemma Qmin_le_r a b : Qmin a b <= b.
Proof.
  unfold Qmin. destruct (Qle_bool a b) eqn:E; [apply Qle_bool_iff, E | lra].
Qed.

Lemma Qmax_ge_r a b : b <= Qmax a b.
Proof.
  unfold Qmax. destruct (Qle_bool a b) eqn:E; [lra |].
  destruct (Qlt_le_dec a b) as [H | H]; [| exact H].
  assert (Qle_bool a b = true) by (apply Qle_bool_iff; lra). congruence.
Qed.

Lemma Qmin_pos a b : 0 < a -> 0 < b -> 0 < Qmin a b.
Proof. intros. unfold Qmin. destruct (Qle_bool a b); assumption. Qed.

Lemma MIN_le_MAX t rest : MIN_of t rest <= t /\ t <= MAX_of t rest.
Proof.
  induction rest as [|x rest [IH1 IH2]]; [cbn; split; lra |].
  change (MIN_of t (x :: rest)) with (Qmin x (MIN_of t rest)).
  change (MAX_of t (x :: rest)) with (Qmax x (MAX_of t rest)).
  split.
  - pose proof (Qmin_le_r x (MIN_of t rest)). lra.
  - pose proof (Qmax_ge_r x (MAX_of t rest)). lra.
Qed.

Lemma MIN_of_pos t rest :
  0 < t -> Forall (fun x => 0 < x) rest -> 0 < MIN_of t rest.
Proof.
  intros Ht. induction 1 as [|x rest Hx _ IH]; [exact Ht |].
  change (MIN_of t (x :: rest)) with (Qmin x (MIN_of t rest)).
  apply Qmin_pos; assumption.
Qed.

(** Whatever the order of the months, the rate the statement computes from
    positive totals is never negative. *)
Lemma monthly_growth_rate_nonneg totals g :
  Forall (fun x => 0 < x) totals ->
  monthly_growth_rate totals = Some g -> 0 <= g.
Proof.
  intros Hpos. unfold monthly_growth_rate.
  destruct totals as [|t rest]; [intros E; inversion E; lra |].
  destruct (2 <=? COUNT (t :: rest))%Z; [| intros E; inversion E; lra].
  destruct (Qeq_bool (MIN_of t rest) 0); [discriminate |].
  intros E. inversion E; subst g; clear E.
  inversion Hpos as [|? ? Ht Hrest]; subst.
  pose proof (MIN_le_MAX t rest) as [H1 H2].
  pose proof (MIN_of_pos t rest Ht Hrest) as H3.
  set (mx := MAX_of t rest) in *. set (mn := MIN_of t rest) in *.
  assert (H4 : 0 <= (mx - mn) / mn).
  { apply Qle_shift_div_l; [exact H3 | lra]. }
  lra.
Qed.

(** C2, evaluated where the code departs from it. With 200 invoiced in
    February and 100 in March, the two latest monthly totals are 100 and
    200; the statement's rate is (MAX - MIN) / MIN * 100 = 100, while the
    signed change between the two latest months is -50; the route predicts
    600 for the next month. *)
Theorem C2_growth_rate_of_extremes :
  map snd (latest_two_months Scenario.company Scenario.shrinking_store Scenario.now)
    = [100; 200]
  /\ (exists g, monthly_growth_rate [100; 200] = Some g /\ g == 100)
  /\ signed_percent_change 100 200 == -50
  /\ (exists p a,
        predictions_route Scenario.shrinking_store Scenario.now (Some Scenario.company)
          = Ok200 (Some p)
        /\ next_month_predicted_amount p = Some a /\ a == 600).
Proof.
  split; [vm_compute; reflexivity |].
  split; [eexists; split; [vm_compute; reflexivity | reflexivity] |].
  split; [reflexivity |].
  eexists. eexists. split; [vm_compute; reflexivity |].
  split; [cbn; reflexivity | reflexivity].
Qed.

End Forecast.

(** ** C1: the cash-flow route *)

Section Cashflow.
Import Analytics Sql.

(** The statement names [$1] and is sent without parameters, so no request
    is answered with data. *)
Lemma cashflow_statement_unbound st now company_phone months :
  cashflow st now company_phone months = BadRequest400
  \/ cashflow st now company_phone months = ServerError500.
Proof.
  unfold cashflow. destruct (truthy company_phone); [right | left; reflexivity].
  unfold cashflowData. destruct months as [[n|]|]; cbn; try reflexivity.
  destruct (IntervalInput.interval_ok (months_iv n)); reflexivity.
Qed.

(** C1, evaluated where the code departs from it. For the company with one
    confirmed invoice of 121.00 due yesterday, the request for a 6-month
    window is answered with the generic failure; the same statement run
    with the company bound to [$1] yields the April bucket with
    pending_payments 121, overdue_count 1 and overdue_amount 121, and lists
    the invoice as overdue. *)
Theorem C1_cashflow_request_fails :
  cashflow Scenario.overdue_store Scenario.now (Some Scenario.company) (Some (JsInt 6))
    = ServerError500
  /\ cashflowData (JsInt 6) [Scenario.company] Scenario.overdue_store Scenario.now
     = Some ([mk_bucket (mk_ts 2024 4 1 0 0 0) 121 0 1 121],
             [mk_upcoming (mk_ts 2024 4 9 0 0 0) "Acme" 121 confirmed "overdue"]).
Proof. split; vm_compute; reflexivity. Qed.

End Cashflow.

(** ** C9: the dashboard's period selector *)

Section Period.
Import Text IntervalInput Analytics Sql.

Lemma dateFilter_default period now i :
  ~ In period listed_periods ->
  dateFilter period now i = (ts_minus now (days_iv 30) <=? Invoice.created_at i).
Proof.
  intros Hn. unfold dateFilter, listed_periods in *.
  destruct (String.eqb_spec period "7d") as [-> | _]; [exfalso; apply Hn; cbn; tauto |].
  destruct (String.eqb_spec period "30d") as [-> | _]; [exfalso; apply Hn; cbn; tauto |].
  destruct (String.eqb_spec period "90d") as [-> | _]; [exfalso; apply Hn; cbn; tauto |].
  destruct (String.eqb_spec period "1y") as [-> | _]; [exfalso; apply Hn; cbn; tauto |].
  reflexivity.
Qed.

(** *** The text the route builds from a period of digits and one letter *)

Lemma digit_not_d c rep r :
  is_digit c = true -> replace "d" rep (String c r) = String c (replace "d" rep r).
Proof.
  destruct c as [b0 b1 b2 b3 b4 b5 b6 b7].
  destruct b0, b1, b2, b3, b4, b5, b6, b7; try discriminate; reflexivity.
Qed.

Lemma digit_not_y c rep r :
  is_digit c = true -> replace "y" rep (String c r) = String c (replace "y" rep r).
Proof.
  destruct c as [b0 b1 b2 b3 b4 b5 b6 b7].
  destruct b0, b1, b2, b3, b4, b5, b6, b7; try discriminate; reflexivity.
Qed.

Lemma replace_after_digits pat rep n tl :
  (forall c r, is_digit c = true ->
     replace pat rep (String c r) = String c (replace pat rep r)) ->
  all_digits n = true ->
  replace pat rep (String.append n tl) = String.append n (replace pat rep tl).
Proof.
  intros Hstep. induction n as [|c n IH]; intros Hn; [reflexivity |].
  cbn in Hn. apply andb_true_iff in Hn. destruct Hn as [Hc Hn].
  change (String.append (String c n) tl) with (String c (String.append n tl)).
  rewrite (Hstep c _ Hc), (IH Hn). reflexivity.
Qed.

Lemma previous_interval_text_days n :
  all_digits n = true ->
  previous_interval_text (String.append n "d") = String.append n " da years".
Proof.
  intros Hn. unfold previous_interval_text.
  rewrite (replace_after_digits "d" " days" n "d" (fun c r => digit_not_d c _ r) Hn).
  change (replace "d" " days" "d") with " days"%string.
  rewrite (replace_after_digits "y" " year" n " days" (fun c r => digit_not_y c _ r) Hn).
  reflexivity.
Qed.

Lemma previous_interval_text_years n :
  all_digits n = true ->
  previous_interval_text (String.append n "y") = String.append n " year".
Proof.
  intros Hn. unfold previous_interval_text.
  rewrite (replace_after_digits "d" " days" n "y" (fun c r => digit_not_d c _ r) Hn).
  change (replace "d" " days" "y") with "y"%string.
  rewrite (replace_after_digits "y" " year" n "y" (fun c r => digit_not_y c _ r) Hn).
  reflexivity.
Qed.

(** *** How such a text is read *)

Lemma list_ascii_of_append a b :
  list_ascii_of_string (String.append a b)
  = list_ascii_of_string a ++ list_ascii_of_string b.
Proof. induction a as [|c a IH]; simpl; [reflexivity | rewrite IH; reflexivity]. Qed.

Lemma length_append a b :
  String.length (String.append a b) = (String.length a + String.length b)%nat.
Proof. induction a as [|c a IH]; simpl; [reflexivity | rewrite IH; reflexivity]. Qed.

Lemma all_digits_list n :
  all_digits n = true -> forallb is_digit (list_ascii_of_string n) = true.
Proof.
  induction n as [|c n IH]; cbn; [reflexivity |].
  intros H. apply andb_true_iff in H. destruct H as [Hc Hn].
  rewrite Hc, (IH Hn). reflexivity.
Qed.

Lemma length_list_ascii s : List.length (list_ascii_of_string s) = String.length s.
Proof. induction s as [|c s IH]; simpl; [reflexivity | rewrite IH; reflexivity]. Qed.

Lemma lex_digits ds : forall len v tl,
  forallb is_digit ds = true ->
  lex (InNumber len v) (ds ++ tl)
  = lex (InNumber (len + List.length ds)
           (fold_left (fun acc c => acc * 10 + digit_value c) ds v)) tl.
Proof.
  induction ds as [|c ds IH]; intros len v tl Hd.
  - cbn [app List.length fold_left]. rewrite Nat.add_0_r. reflexivity.
  - cbn in Hd. apply andb_true_iff in Hd. destruct Hd as [Hc Hd].
    change ((c :: ds) ++ tl) with (c :: (ds ++ tl)).
    cbn [lex]. rewrite Hc. rewrite (IH _ _ _ Hd).
    cbn [List.length fold_left]. rewrite Nat.add_succ_r. reflexivity.
Qed.

Lemma option_map_app_nil {A} (o : option (list A)) : option_map (app []) o = o.
Proof. destruct o; reflexivity. Qed.

(** A text that starts with at least one digit: the lexer is in a number
    of that many digits and that value when they end. *)
Lemma lex_number n tl :
  all_digits n = true -> n <> ""%string ->
  lex Idle (list_ascii_of_string (String.append n tl))
  = lex (InNumber (String.length n) (number_of n)) (list_ascii_of_string tl).
Proof.
  intros Hn Hne. destruct n as [|c n]; [congruence |].
  cbn in Hn. apply andb_true_iff in Hn. destruct Hn as [Hc Hn].
  change (list_ascii_of_string (String.append (String c n) tl))
    with (c :: list_ascii_of_string (String.append n tl)).
  cbn [lex]. rewrite Hc. cbn [flush]. rewrite option_map_app_nil.
  rewrite list_ascii_of_append, (lex_digits _ _ _ _ (all_digits_list n Hn)).
  rewrite length_list_ascii. reflexivity.
Qed.

Lemma digit_value_range c : is_digit c = true -> 0 <= digit_value c <= 9.
Proof.
  destruct c as [b0 b1 b2 b3 b4 b5 b6 b7].
  destruct b0, b1, b2, b3, b4, b5, b6, b7; try discriminate; intros _; vm_compute;
    split; discriminate.
Qed.

Lemma fold_digits_bound ds : forall v,
  forallb is_digit ds = true -> 0 <= v ->
  0 <= fold_left (fun acc c => acc * 10 + digit_value c) ds v
    < (v + 1) * 10 ^ Z.of_nat (List.length ds).
Proof.
  induction ds as [|c ds IH]; intros v Hd Hv.
  - cbn. lia.
  - cbn in Hd. apply andb_true_iff in Hd. destruct Hd as [Hc Hd].
    pose proof (digit_value_range c Hc) as Hr.
    cbn [fold_left List.length].
    assert (H0 : 0 <= v * 10 + digit_value c) by lia.
    pose proof (IH _ Hd H0) as [H1 H2].
    split; [exact H1 |].
    rewrite Nat2Z.inj_succ, Z.pow_succ_r by lia.
    assert (Hp : 0 < 10 ^ Z.of_nat (List.length ds)) by (apply Z.pow_pos_nonneg; lia).
    nia.
Qed.

Lemma number_of_bound n :
  all_digits n = true -> 0 <= number_of n < 10 ^ Z.of_nat (String.length n).
Proof.
  intros Hn. unfold number_of.
  pose proof (fold_digits_bound _ 0 (all_digits_list n Hn) ltac:(lia)) as H.
  rewrite length_list_ascii in H. lia.
Qed.

Lemma not_prefix_P c r : is_digit c = true -> String.prefix "P" (String c r) = false.
Proof.
  destruct c as [b0 b1 b2 b3 b4 b5 b6 b7].
  destruct b0, b1, b2, b3, b4, b5, b6, b7; try discriminate; reflexivity.
Qed.

(** Every day count gives a text with the word [da], which is refused. *)
Lemma day_count_refused n :
  all_digits n = true -> read_interval (String.append n " da years") = Refused.
Proof.
  intros Hn. destruct n as [|c n]; [reflexivity |].
  unfold read_interval.
  rewrite (lex_number (String c n) " da years" Hn ltac:(discriminate)).
  cbn in Hn. apply andb_true_iff in Hn. destruct Hn as [Hc _].
  change (String.append (String c n) " da years")
    with (String c (String.append n " da years")).
  rewrite (not_prefix_P c _ Hc). reflexivity.
Qed.

(** At most 6 digits and [ year]: read as that number of years. *)
Lemma year_count_read n :
  all_digits n = true -> (1 <= String.length n <= 6)%nat ->
  read_interval (String.append n " year") = Reads (months_iv (12 * number_of n)).
Proof.
  intros Hn [H1 H6]. unfold read_interval.
  assert (Hne : n <> ""%string) by (intros ->; cbn in H1; lia).
  rewrite (lex_number n " year" Hn Hne).
  destruct n as [|c n]; [congruence |].
  pose proof Hn as Hn'. cbn in Hn'. apply andb_true_iff in Hn'. destruct Hn' as [Hc _].
  change (String.append (String c n) " year") with (String c (String.append n " year")).
  change (lex (InNumber (String.length (String c n)) (number_of (String c n)))
            (list_ascii_of_string " year"))
    with (Some [FNumber (String.length (String c n)) (number_of (String c n));
                FWord "year" false]).
  change (existsb unknown_field
            [FNumber (String.length (String c n)) (number_of (String c n));
             FWord "year" false]) with false.
  cbn [andb].
  change (String c (String.append n " year")) with (String.append (String c n) " year").
  rewrite length_append.
  destruct (Nat.ltb_spec 100 (String.length (String c n) + String.length " year"))
    as [Hlt | _]; [cbn in Hlt; cbn in H6; lia |].
  cbn [rev app decode].
  change (lookup_unit unit_names "year") with (Some UYear).
  cbn [existsb orb].
  destruct (Nat.ltb_spec 6 (String.length (String c n))) as [Hlt | _]; [lia |].
  cbn [add_field iv_months iv_days iv_secs]. unfold months_iv.
  rewrite Z.add_0_l. reflexivity.
Qed.

Lemma unlisted_years n :
  all_digits n = true -> n <> "1"%string -> ~ In (String.append n "y") listed_periods.
Proof.
  intros _ H1 Hin. unfold listed_periods in Hin.
  destruct n as [|c1 [|c2 [|c3 [|c4 n]]]]; cbn in Hin;
    destruct Hin as [Hin | [Hin | [Hin | [Hin | []]]]];
    try discriminate; inversion Hin; subst; try discriminate.
  apply H1. reflexivity.
Qed.

Lemma unlisted_2y : ~ In "2y"%string listed_periods.
Proof. apply (unlisted_years "2"); [reflexivity | discriminate]. Qed.

Lemma years_window now k :
  0 <= k < 1000000 ->
  previous_window_of (months_iv (12 * k)) now
  = match timestamp_minus now (months_iv (12 * k)),
          timestamp_minus now (months_iv (24 * k)) with
    | Some hi, Some lo => Some (lo, hi)
    | _, _ => None
    end.
Proof.
  intros Hk. unfold previous_window_of.
  assert (Hi : interval_times (months_iv (12 * k)) 2 = Some (months_iv (24 * k))).
  { unfold interval_times, interval_mul, months_iv. cbn [iv_months iv_days iv_secs].
    replace (12 * k * 2) with (24 * k) by lia. change (0 * 2) with 0.
    assert (Hok : interval_ok (mk_interval (24 * k) 0 0) = true).
    { unfold interval_ok, int32_max, max_interval_secs. cbn [iv_months iv_days iv_secs].
      rewrite !andb_true_iff, !Z.leb_le. lia. }
    rewrite Hok. reflexivity. }
  rewrite Hi. unfold mbind, option_bind. cbv beta iota.
  generalize (timestamp_minus now (months_iv (12 * k))).
  generalize (timestamp_minus now (months_iv (24 * k))).
  intros lo hi. destruct hi as [hi|]; destruct lo as [lo|]; reflexivity.
Qed.

Lemma dashboard_day_count st now c n :
  c <> ""%string -> all_digits n = true ->
  dashboard st now (Some c) (Some (String.append n "d")) = ServerError500.
Proof.
  intros Hc Hn. unfold dashboard. rewrite (truthy_nonempty c Hc).
  unfold unread, metrics_query, with_param1, previous_window, parse_interval.
  rewrite (previous_interval_text_days n Hn), (day_count_refused n Hn). reflexivity.
Qed.

(** C9, as amended. A period outside 7d, 30d, 90d and 1y does not always
    fail. The current period is then the last 30 days, and the previous
    one is read from the period after its first [d] became [ days] and the
    first [y] of the result [ year]. So a period of up to 6 digits and [y]
    (other than 1y) becomes that number of years: the request succeeds and
    compares the last 30 days with the window from twice that many years
    ago to that many years ago, unless a bound of the window is no
    timestamp, in which case it fails. A period of digits and [d] becomes
    a text ending in [da years], which the store refuses, and the request
    fails with the generic failure. *)
Theorem C9_dashboard_unlisted_period st now c n :
  c <> ""%string ->
  all_digits n = true ->
  (~ In (String.append n "d") listed_periods ->
     previous_interval_text (String.append n "d") = String.append n " da years"
     /\ dashboard st now (Some c) (Some (String.append n "d")) = ServerError500)
  /\ ((1 <= String.length n <= 6)%nat -> n <> "1"%string ->
      ~ In (String.append n "y") listed_periods
      /\ previous_interval_text (String.append n "y") = String.append n " year"
      /\ match timestamp_minus now (months_iv (12 * number_of n)),
               timestamp_minus now (months_iv (24 * number_of n)) with
         | Some hi, Some lo =>
             exists m,
               dashboard st now (Some c) (Some (String.append n "y")) = Ok200 m
               /\ total_invoices m
                  = COUNT (List.filter (in_last_30_days c now) (invoices st))
               /\ total_amount m
                  = sum_amount (List.filter (in_last_30_days c now) (invoices st))
               /\ prev_total_invoices m
                  = COUNT (List.filter (in_window c lo hi) (invoices st))
               /\ prev_total_amount m
                  = sum_amount (List.filter (in_window c lo hi) (invoices st))
         | _, _ =>
             dashboard st now (Some c) (Some (String.append n "y")) = ServerError500
         end).
Proof.
  intros Hc Hn. split.
  - intros _. split; [apply previous_interval_text_days, Hn |].
    apply (dashboard_day_count st now c n Hc Hn).
  - intros Hlen H1.
    pose proof (unlisted_years n Hn H1) as Hun.
    split; [exact Hun |].
    split; [apply previous_interval_text_years, Hn |].
    pose proof (number_of_bound n Hn) as Hb.
    assert (Hk : 0 <= number_of n < 1000000).
    { destruct Hb as [Hb0 Hb1]. split; [exact Hb0 |].
      eapply Z.lt_le_trans; [exact Hb1 |].
      change 1000000 with (10 ^ Z.of_nat 6).
      apply Z.pow_le_mono_r; lia. }
    assert (Hw : previous_window (String.append n "y") now
                 = match timestamp_minus now (months_iv (12 * number_of n)),
                         timestamp_minus now (months_iv (24 * number_of n)) with
                   | Some hi, Some lo => Some (lo, hi)
                   | _, _ => None
                   end).
    { unfold previous_window, parse_interval.
      rewrite (previous_interval_text_years n Hn), (year_count_read n Hn Hlen).
      apply (years_window now (number_of n) Hk). }
    assert (Hr : unread (previous_interval_text (String.append n "y")) = false).
    { unfold unread.
      rewrite (previous_interval_text_years n Hn), (year_count_read n Hn Hlen).
      reflexivity. }
    destruct (timestamp_minus now (months_iv (12 * number_of n))) as [hi|];
      [destruct (timestamp_minus now (months_iv (24 * number_of n))) as [lo|] |].
    + eexists. split; [apply (dashboard_answer st now c _ lo hi Hc Hw) |].
      cbn [total_invoices total_amount prev_total_invoices prev_total_amount].
      rewrite (list_filter_ext _ (in_last_30_days c now)).
      2:{ intros i. unfold in_last_30_days. rewrite (dateFilter_default _ _ _ Hun).
          reflexivity. }
      repeat split; reflexivity.
    + unfold dashboard. rewrite (truthy_nonempty c Hc), Hr.
      unfold metrics_query, with_param1. rewrite Hw. reflexivity.
    + unfold dashboard. rewrite (truthy_nonempty c Hc), Hr.
      unfold metrics_query, with_param1. rewrite Hw. reflexivity.
Qed.

Lemma C9_dashboard_unlisted_period_witness :
  Scenario.company <> ""%string
  /\ all_digits "2" = true
  /\ (1 <= String.length "2" <= 6)%nat
  /\ "2"%string <> "1"%string
  /\ previous_interval_text "2y" = "2 year"%string
  /\ exists m,
       dashboard aged_store Scenario.now (Some Scenario.company) (Some "2y"%string)
         = Ok200 m
       /\ total_invoices m = 1
       /\ prev_total_invoices m = 1
       /\ (amount_change_percent m == -25)%Q.
Proof.
  assert (Hc : Scenario.company <> ""%string) by discriminate.
  assert (Hd : all_digits "2" = true) by reflexivity.
  assert (Hl : (1 <= String.length "2" <= 6)%nat) by (cbn; lia).
  assert (H1 : "2"%string <> "1"%string) by discriminate.
  pose proof (proj2 (C9_dashboard_unlisted_period aged_store Scenario.now
                       Scenario.company "2" Hc Hd) Hl H1) as (_ & Ht & P).
  split; [exact Hc |]. split; [exact Hd |]. split; [exact Hl |]. split; [exact H1 |].
  split; [exact Ht |].
  assert (Ehi : timestamp_minus Scenario.now (months_iv (12 * number_of "2"))
                = Some (mk_ts 2022 4 10 12 0 0)) by (vm_compute; reflexivity).
  assert (Elo : timestamp_minus Scenario.now (months_iv (24 * number_of "2"))
                = Some (mk_ts 2020 4 10 12 0 0)) by (vm_compute; reflexivity).
  rewrite Ehi, Elo in P. destruct P as (m & Hm & Ht1 & _ & Hp1 & _).
  exists m. split; [exact Hm |].
  split; [rewrite Ht1; vm_compute; reflexivity |].
  split; [rewrite Hp1; vm_compute; reflexivity |].
  assert (E : exists m',
             dashboard aged_store Scenario.now (Some Scenario.company)
               (Some "2y"%string) = Ok200 m'
             /\ (amount_change_percent m' == -25)%Q)
    by (eexists; split; vm_compute; reflexivity).
  destruct E as (m' & Hm' & Ha).
  pose proof (eq_trans (eq_sym Hm') Hm) as Em. injection Em as Em.
  rewrite <- Em. exact Ha.
Defined.

(** C9 as stated fails: the period 2y is not one of the four, its text
    becomes [2 year], and the request succeeds. *)
Lemma C9_unlisted_period_accepted :
  ~ In "2y"%string listed_periods
  /\ previous_interval_text "2y" = "2 year"%string
  /\ (exists m,
        dashboard aged_store Scenario.now (Some Scenario.company)
          (Some "2y"%string) = Ok200 m
        /\ total_invoices m = 1 /\ prev_total_invoices m = 1)
  /\ dashboard aged_store Scenario.now (Some Scenario.company)
       (Some "2y"%string) <> ServerError500.
Proof.
  split; [exact unlisted_2y |]. split; [reflexivity |]. split.
  - eexists. split; [vm_compute; reflexivity |]. split; reflexivity.
  - vm_compute. discriminate.
Qed.

End Period.

(** ** C8: the invoice listing *)

Section ListingProps.
Import Sql Listing.

Lemma insert_by_perm {A} (le : A -> A -> bool) x l :
  Permutation (insert_by le x l) (x :: l).
Proof.
  induction l as [|y l IH]; cbn; [reflexivity |].
  destruct (le x y); [reflexivity |].
  rewrite IH. apply perm_swap.
Qed.

Lemma ORDER_BY_perm {A} (le : A -> A -> bool) l : Permutation (ORDER_BY le l) l.
Proof.
  induction l as [|x l IH]; [reflexivity |].
  change (ORDER_BY le (x :: l)) with (insert_by le x (ORDER_BY le l)).
  rewrite insert_by_perm, IH. reflexivity.
Qed.

Lemma where_clause_ignores cs keep :
  Forall (fun o => forall p, o = Some p -> ignores_company p) cs ->
  where_clause cs = Some keep -> ignores_company keep.
Proof.
  intros H. revert keep. induction H as [|o cs Ho _ IH]; cbn; intros keep E.
  - inversion E. intros i c. reflexivity.
  - destruct o as [p|]; [| discriminate].
    destruct (where_clause cs) as [k|]; [| discriminate].
    inversion E; subst keep. intros i c.
    rewrite (Ho p eq_refl i c), (IH k eq_refl i c). reflexivity.
Qed.

Lemma other_conjuncts_ignore q :
  Forall (fun o => forall p, o = Some p -> ignores_company p) (other_conjuncts q).
Proof.
  unfold other_conjuncts, status_conjunct, category_conjunct, supplier_conjunct,
    date_conjunct.
  repeat apply Forall_app_2.
  - destruct (truthy (q_status q)); repeat constructor.
    intros p E; inversion E; intros i c; reflexivity.
  - destruct (truthy (q_category q)); repeat constructor.
    intros p E; inversion E; intros i c; reflexivity.
  - destruct (truthy (q_supplier q)); repeat constructor.
    intros p E; inversion E; intros i c; reflexivity.
  - destruct (q_date_from q) as [[t|]|]; repeat constructor;
      intros p E; inversion E; intros i c; reflexivity.
  - destruct (q_date_to q) as [[t|]|]; repeat constructor;
      intros p E; inversion E; intros i c; reflexivity.
Qed.

(** C8. When the request leaves company_phone out (or empty), and its
    other parameters are readable, the listing answers with the rows kept
    by the other filters alone, in the requested order, cut by limit and
    offset; the row filter does not look at the company, every stored
    invoice that passes it is among the ordered rows whatever its company,
    and the pagination total counts all of them. *)
Theorem C8_listing_without_company st q keep lim off :
  truthy (q_company_phone q) = None ->
  where_clause (other_conjuncts q) = Some keep ->
  row_count (q_limit q) 50 = Some lim ->
  row_count (q_offset q) 0 = Some off ->
  let rows := ORDER_BY (order_le q)
                (map (join_supplier st) (List.filter keep (invoices st))) in
  list_invoices st q = Ok200 (firstn lim (skipn off rows), COUNT rows)
  /\ ignores_company keep
  /\ Permutation rows (map (join_supplier st) (List.filter keep (invoices st)))
  /\ COUNT rows = COUNT (List.filter keep (invoices st))
  /\ forall i, In i (invoices st) -> keep i = true -> In (join_supplier st i) rows.
Proof.
  intros Hc Hw Hl Ho rows.
  assert (Hp : Permutation rows (map (join_supplier st) (List.filter keep (invoices st))))
    by apply ORDER_BY_perm.
  split.
  - unfold list_invoices, matching, conjuncts, company_conjunct.
    rewrite Hc. cbn [app]. rewrite Hw, Hl, Ho. reflexivity.
  - split; [apply (where_clause_ignores _ _ (other_conjuncts_ignore q) Hw) |].
    split; [exact Hp |]. split.
    + unfold COUNT. rewrite (Permutation_length Hp), length_map. reflexivity.
    + intros i Hi Hk. apply (Permutation_in _ (Permutation_sym Hp)).
      apply in_map, filter_In. split; assumption.
Qed.

Lemma C8_listing_without_company_witness :
  exists rows,
    list_invoices Scenario.two_company_store Scenario.bare_listing
      = Ok200 (firstn 50 (skipn 0 rows), 2)
    /\ forall i, In i (invoices Scenario.two_company_store) ->
         In (join_supplier Scenario.two_company_store i) rows.
Proof.
  destruct (C8_listing_without_company Scenario.two_company_store
              Scenario.bare_listing (fun _ => true) 50%nat 0%nat
              eq_refl eq_refl eq_refl eq_refl) as (Hl & _ & _ & _ & Hin).
  eexists. split; [exact Hl |].
  intros i Hi. apply (Hin i Hi). reflexivity.
Defined.

End ListingProps.

(** ** C3, C5 and C10: the write path *)

Section WritePath.
Import Invoices.

Lemma update_status_rows now s target rows :
  Forall2 (status_changed now target s) rows (update_status now s target rows).
Proof.
  induction rows as [|i rows IH]; cbn; constructor; auto.
  unfold status_changed. destruct (Invoice.id i =? target) eqn:E; [| reflexivity].
  cbn. apply Z.eqb_eq in E. auto.
Qed.

(** C3, as amended. A change-status request with a status outside
    pending, confirmed and paid is refused and changes nothing. Otherwise
    every invoice with the requested id takes the new status, and its
    confirmed_at becomes the time of the request when the new status is
    confirmed, whether or not it was set before, and is left as it was
    when the new status is pending or paid; other invoices are untouched. *)
Theorem C3_confirmed_at_follows_latest_confirmation st now target text :
  match status_of_string text with
  | Some s =>
      Forall2 (status_changed now target s) (invoices st)
        (invoices (snd (patch_status st now target text)))
  | None => patch_status st now target text = (BadRequest400, st)
  end.
Proof.
  unfold patch_status. destruct (status_of_string text) as [s|]; [| reflexivity].
  pose proof (update_status_rows now s target (invoices st)) as H.
  destruct (List.filter _ _); exact H.
Qed.

Lemma C3_confirmed_at_follows_latest_confirmation_witness :
  Forall2 (status_changed Scenario.now 1 confirmed)
    (invoices Scenario.confirmed_store)
    (invoices (snd (patch_status Scenario.confirmed_store Scenario.now 1 "confirmed"))).
Proof.
  exact (C3_confirmed_at_follows_latest_confirmation Scenario.confirmed_store
           Scenario.now 1 "confirmed").
Defined.

(** C3 as stated fails: an invoice confirmed on 11 March and confirmed
    again on 10 April has its confirmed_at moved to 10 April. *)
Lemma C3_confirmed_at_overwritten :
  Invoice.confirmed_at Scenario.confirmed_invoice = Some (mk_ts 2024 3 11 8 0 0)
  /\ exists after,
       patch_status Scenario.confirmed_store Scenario.now 1 "confirmed"
         = (Ok200 after, mk_store [after] ∅ 2)
       /\ Invoice.confirmed_at after = Some Scenario.now
       /\ Invoice.confirmed_at after <> Invoice.confirmed_at Scenario.confirmed_invoice.
Proof.
  split; [reflexivity |]. eexists. split; [reflexivity |].
  split; [reflexivity |]. vm_compute. discriminate.
Qed.

Lemma post_invoice_valid st now b v :
  invoiceSchema_validate b = Some v ->
  post_invoice st now b =
    (Created201 (fst (insert_invoice now v st)),
     upsert_supplier now v (snd (insert_invoice now v st))).
Proof.
  intros Hv. unfold post_invoice, transaction. rewrite Hv. reflexivity.
Qed.

Lemma suppliers_after_post st now b v :
  invoiceSchema_validate b = Some v ->
  suppliers (snd (post_invoice st now b)) =
    <[supplier_key v :=
        match suppliers st !! supplier_key v with
        | None =>
            Supplier.mk (supplier_name v) (company_phone v) 1 (amount v)
              (Some (invoice_date_or_now now v)) None now None
        | Some s =>
            Supplier.mk (Supplier.name s) (Supplier.company_phone s)
              (Supplier.total_invoices s + 1)
              (Supplier.total_amount s + amount v)%Q
              (Some (invoice_date_or_now now v)) (Supplier.rating s)
              (Supplier.created_at s) (Some now)
        end]> (suppliers st).
Proof.
  intros Hv. rewrite (post_invoice_valid _ _ _ _ Hv). reflexivity.
Qed.

(** A validated amount is positive, so the write path keeps the data
    model's invariant on amounts. *)
Lemma validated_amount_positive b v :
  invoiceSchema_validate b = Some v -> (0 < amount v)%Q.
Proof.
  unfold invoiceSchema_validate.
  destruct (required_string (b_company_phone b)) as [phone|]; [| discriminate].
  destruct (required_string (b_supplier_name b)) as [supplier|]; [| discriminate].
  destruct (b_amount b) as [amt|]; [| discriminate]. cbn.
  destruct (positive_number amt) eqn:E; cbn; [| discriminate].
  destruct (match b_currency b with Some _ => _ | None => _ end); [| discriminate].
  destruct (match b_status b with Some _ => _ | None => _ end); [| discriminate].
  cbn. intros H. inversion H; subst v; clear H. cbn.
  unfold positive_number in E. apply andb_true_iff in E. destruct E as [E _].
  apply negb_true_iff in E.
  destruct (Qlt_le_dec 0 amt) as [Hlt | Hle]; [exact Hlt |].
  apply Qle_bool_iff in Hle. congruence.
Qed.

Lemma post_invoice_keeps_amounts_positive st now b :
  amounts_positive st -> amounts_positive (snd (post_invoice st now b)).
Proof.
  intros Hpos. destruct (invoiceSchema_validate b) as [v|] eqn:Hv.
  - rewrite (post_invoice_valid _ _ _ _ Hv). unfold amounts_positive in *. cbn.
    apply Forall_app_2; [exact Hpos |]. constructor; [| constructor].
    cbn. apply (validated_amount_positive b v Hv).
  - unfold post_invoice. rewrite Hv. exact Hpos.
Qed.

Lemma patch_status_keeps_amounts_positive st now target text :
  amounts_positive st -> amounts_positive (snd (patch_status st now target text)).
Proof.
  intros Hpos. unfold patch_status.
  destruct (status_of_string text) as [s|]; [| exact Hpos].
  assert (H : Forall (fun i => (0 < Invoice.amount i)%Q)
                (update_status now s target (invoices st))).
  { unfold amounts_positive in Hpos. unfold update_status.
    induction Hpos as [|i rows Hi _ IH]; cbn; constructor; [| exact IH].
    destruct (Invoice.id i =? target); exact Hi. }
  destruct (List.filter _ _); exact H.
Qed.

(** C5. Creating a valid invoice for a (supplier name, company) pair that
    has no supplier row adds exactly one row, with total_invoices 1 and
    total_amount the invoice's amount; a second valid invoice for the same
    pair adds no row and leaves that one with total_invoices 2 and
    total_amount the sum of the two amounts. *)
Theorem C5_supplier_counters st now1 now2 b1 b2 v1 v2 :
  invoiceSchema_validate b1 = Some v1 ->
  invoiceSchema_validate b2 = Some v2 ->
  supplier_key v2 = supplier_key v1 ->
  suppliers st !! supplier_key v1 = None ->
  let st1 := snd (post_invoice st now1 b1) in
  let st2 := snd (post_invoice st1 now2 b2) in
  (exists s1, suppliers st1 !! supplier_key v1 = Some s1
              /\ Supplier.total_invoices s1 = 1
              /\ Supplier.total_amount s1 = amount v1)
  /\ size (suppliers st1) = S (size (suppliers st))
  /\ (exists s2, suppliers st2 !! supplier_key v1 = Some s2
                 /\ Supplier.total_invoices s2 = 2
                 /\ Supplier.total_amount s2 = (amount v1 + amount v2)%Q)
  /\ size (suppliers st2) = size (suppliers st1).
Proof.
  intros Hv1 Hv2 Hk Hnone st1 st2.
  assert (H1 : suppliers st1 =
               <[supplier_key v1 :=
                   Supplier.mk (supplier_name v1) (company_phone v1) 1 (amount v1)
                     (Some (invoice_date_or_now now1 v1)) None now1 None]> (suppliers st)).
  { unfold st1. rewrite (suppliers_after_post _ _ _ _ Hv1), Hnone. reflexivity. }
  assert (L1 : suppliers st1 !! supplier_key v1 =
               Some (Supplier.mk (supplier_name v1) (company_phone v1) 1 (amount v1)
                       (Some (invoice_date_or_now now1 v1)) None now1 None)).
  { rewrite H1. apply lookup_insert_eq. }
  assert (H2 : suppliers st2 !! supplier_key v1 =
               Some (Supplier.mk (supplier_name v1) (company_phone v1) (1 + 1)
                       (amount v1 + amount v2)%Q
                       (Some (invoice_date_or_now now2 v2)) None now1 (Some now2))).
  { unfold st2. rewrite (suppliers_after_post _ _ _ _ Hv2), Hk, L1.
    apply lookup_insert_eq. }
  split; [eexists; split; [exact L1 | split; reflexivity] |].
  split; [rewrite H1; apply map_size_insert_None; exact Hnone |].
  split; [eexists; split; [exact H2 | split; reflexivity] |].
  unfold st2. rewrite (suppliers_after_post _ _ _ _ Hv2), Hk.
  apply map_size_insert_Some. rewrite L1. eauto.
Qed.

Lemma C5_supplier_counters_witness :
  exists s2,
    suppliers
      (snd (post_invoice
              (snd (post_invoice Scenario.empty_store 1000 (Scenario.body_of 100 None)))
              2000 (Scenario.body_of 50 None)))
      !! ("Acme"%string, Scenario.company) = Some s2
    /\ Supplier.total_invoices s2 = 2
    /\ (Supplier.total_amount s2 == 150)%Q.
Proof.
  destruct (C5_supplier_counters Scenario.empty_store 1000 2000
              (Scenario.body_of 100 None) (Scenario.body_of 50 None)
              (Scenario.value_of 100 None) (Scenario.value_of 50 None)
              eq_refl eq_refl eq_refl eq_refl) as (_ & _ & (s2 & L & T & A) & _).
  exists s2. split; [exact L |]. split; [exact T |]. rewrite A. reflexivity.
Defined.

(** C10. After a valid invoice is created, its supplier row's
    last_invoice_date is the invoice's date, or the time of creation when
    the invoice has no date, whatever the row held before: an invoice
    dated before the stored date moves last_invoice_date backwards. *)
Theorem C10_last_invoice_date_overwritten st now b v :
  invoiceSchema_validate b = Some v ->
  exists s,
    suppliers (snd (post_invoice st now b)) !! supplier_key v = Some s
    /\ Supplier.last_invoice_date s =
         Some (match invoice_date v with Some d => d | None => now end)
    /\ forall s0 d0 d,
         suppliers st !! supplier_key v = Some s0 ->
         Supplier.last_invoice_date s0 = Some d0 ->
         invoice_date v = Some d -> d < d0 ->
         Supplier.last_invoice_date s = Some d /\ d < d0.
Proof.
  intros Hv. rewrite (post_invoice_valid _ _ _ _ Hv).
  unfold upsert_supplier, supplier_key. cbn [snd insert_invoice suppliers].
  eexists. split; [apply lookup_insert_eq |].
  destruct (suppliers st !! (supplier_name v, company_phone v)) as [s0|];
    cbn [Supplier.last_invoice_date]; unfold invoice_date_or_now;
    (split; [reflexivity |]); intros s1 d0 d Hs Hd0 Hd Hlt; rewrite Hd; auto.
Qed.

Lemma C10_last_invoice_date_overwritten_witness :
  exists s,
    suppliers (snd (post_invoice Scenario.supplier_store Scenario.now
                      (Scenario.body_of 50 (Some (mk_ts 2024 1 5 0 0 0)))))
      !! ("Acme"%string, Scenario.company) = Some s
    /\ Supplier.last_invoice_date s = Some (mk_ts 2024 1 5 0 0 0)
    /\ mk_ts 2024 1 5 0 0 0 < mk_ts 2024 3 1 0 0 0.
Proof.
  destruct (C10_last_invoice_date_overwritten Scenario.supplier_store Scenario.now
              (Scenario.body_of 50 (Some (mk_ts 2024 1 5 0 0 0)))
              (Scenario.value_of 50 (Some (mk_ts 2024 1 5 0 0 0))) eq_refl)
    as (s & L & _ & B).
  exists s. split; [exact L |].
  apply (B (Supplier.mk "Acme" Scenario.company 1 100 (Some (mk_ts 2024 3 1 0 0 0))
              None (mk_ts 2024 3 1 9 0 0) None)
           (mk_ts 2024 3 1 0 0 0) (mk_ts 2024 1 5 0 0 0));
    reflexivity.
Defined.

End WritePath.

(** ** C6: the importance score *)

Section Score.
Import Suppliers.
Local Open Scope Q_scope.

(** C6. The importance score does not decrease when total_amount grows
    with invoice_count and the days since the last invoice held fixed, nor
    when invoice_count grows with the other two held fixed. *)
Theorem C6_importance_monotone (a1 a2 : Q) (n1 n2 d : Z) :
  a1 <= a2 -> (n1 <= n2)%Z ->
  importance_score a1 n1 d <= importance_score a2 n1 d
  /\ importance_score a1 n1 d <= importance_score a1 n2 d.
Proof.
  intros Ha Hn. unfold importance_score.
  rewrite Zle_Qle in Hn.
  split.
  - assert (Hv : a1 / 1000 <= a2 / 1000).
    { apply Qmult_le_compat_r; [exact Ha | discriminate]. }
    set (r := (30 - LEAST 30 (inject_Z d)) * (3 # 10)).
    set (c := inject_Z n1 * (3 # 10)).
    set (x1 := a1 / 1000) in *. set (x2 := a2 / 1000) in *. lra.
  - set (x1 := a1 / 1000).
    set (r := (30 - LEAST 30 (inject_Z d)) * (3 # 10)). lra.
Qed.

Lemma C6_importance_monotone_witness :
  100 <= 200 /\ (2 <= 3)%Z
  /\ importance_score 100 2 5 <= importance_score 200 2 5
  /\ importance_score 100 2 5 <= importance_score 100 3 5.
Proof.
  assert (Ha : 100 <= 200) by (unfold Qle; cbn; lia).
  assert (Hn : (2 <= 3)%Z) by lia.
  split; [exact Ha |]. split; [exact Hn |].
  apply (C6_importance_monotone 100 200 2 3 5 Ha Hn).
Defined.

End Score.

(** * Further properties *)

(** ** Grouping and ordering in general *)

Section KeyOrders.

Lemma Z_strict_order : strict_order Z.ltb Z.eqb.
Proof.
  constructor.
  - intros a b. apply Z.eqb_eq.
  - intros a. apply Z.ltb_irrefl.
  - intros a b c H1 H2. apply Z.ltb_lt in H1, H2. apply Z.ltb_lt. lia.
  - intros a b H1 H2. apply Z.ltb_ge in H1. apply Z.eqb_neq in H2. apply Z.ltb_lt. lia.
Qed.

Lemma ascii_compare_lt_trans a b c :
  Ascii.compare a b = Lt -> Ascii.compare b c = Lt -> Ascii.compare a c = Lt.
Proof.
  unfold Ascii.compare. rewrite !N.compare_lt_iff. apply N.lt_trans.
Qed.

Lemma string_compare_lt_trans s : forall t u,
  String.compare s t = Lt -> String.compare t u = Lt -> String.compare s u = Lt.
Proof.
  induction s as [|a s IH]; intros [|b t] [|c u]; cbn; try congruence.
  destruct (Ascii.compare a b) eqn:Eab; try discriminate;
    destruct (Ascii.compare b c) eqn:Ebc; try discriminate; intros H1 H2.
  - apply Ascii.compare_eq_iff in Eab, Ebc. subst.
    assert (E : Ascii.compare c c = Eq).
    { pose proof (Ascii.compare_antisym c c) as H.
      destruct (Ascii.compare c c); cbn in H; congruence. }
    rewrite E. apply (IH t u H1 H2).
  - apply Ascii.compare_eq_iff in Eab. subst. rewrite Ebc. reflexivity.
  - apply Ascii.compare_eq_iff in Ebc. subst. rewrite Eab. reflexivity.
  - rewrite (ascii_compare_lt_trans a b c Eab Ebc). reflexivity.
Qed.

Lemma string_compare_refl s : String.compare s s = Eq.
Proof.
  pose proof (String.compare_antisym s s) as H.
  destruct (String.compare s s); cbn in H; congruence.
Qed.

Lemma string_strict_order : strict_order String.ltb String.eqb.
Proof.
  constructor.
  - intros a b. apply String.eqb_eq.
  - intros a. unfold String.ltb. rewrite string_compare_refl. reflexivity.
  - intros a b c. unfold String.ltb.
    destruct (String.compare a b) eqn:E1; try discriminate.
    destruct (String.compare b c) eqn:E2; try discriminate.
    intros _ _. rewrite (string_compare_lt_trans a b c E1 E2). reflexivity.
  - intros a b. unfold String.ltb. intros H1 H2.
    rewrite String.compare_antisym.
    destruct (String.compare a b) eqn:E; cbn; try reflexivity; try discriminate.
    apply String.compare_eq_iff in E. subst.
    rewrite String.eqb_refl in H2. discriminate.
Qed.

Lemma weekly_key_strict_order :
  strict_order TrendViews.weekly_key_ltb TrendViews.weekly_key_eqb.
Proof.
  pose proof string_strict_order as S.
  unfold TrendViews.weekly_key_ltb, TrendViews.weekly_key_eqb.
  constructor.
  - intros [a s] [b t]; cbn. rewrite andb_true_iff, Z.eqb_eq, String.eqb_eq.
    split; [intros [-> ->]; reflexivity | intros E; inversion E; auto].
  - intros [a s]; cbn. rewrite Z.ltb_irrefl, Z.eqb_refl, (so_irrefl _ _ S). reflexivity.
  - intros [a s] [b t] [c u]; cbn.
    rewrite !orb_true_iff, !andb_true_iff, !Z.ltb_lt, !Z.eqb_eq.
    intros [H1 | [H1 H1']] [H2 | [H2 H2']]; try (left; lia).
    right. split; [lia | apply (so_trans _ _ S s t u H1' H2')].
  - intros [a s] [b t]; cbn.
    rewrite !orb_false_iff, !andb_false_iff, !orb_true_iff, !andb_true_iff,
      !Z.ltb_ge, !Z.ltb_lt, !Z.eqb_neq, !Z.eqb_eq.
    intros [H1 H1'] H2.
    destruct (Z.eq_dec a b) as [-> | Hne]; [| left; lia].
    right. split; [reflexivity |].
    destruct H1' as [H1' | H1']; [contradiction |].
    destruct H2 as [H2 | H2]; [contradiction |].
    apply (so_total _ _ S s t H1' H2).
Qed.

End KeyOrders.

Section GroupsByKey.
Import Sql.
Context {K A : Type} (ltb eqb : K -> K -> bool) (ord : strict_order ltb eqb).
Context (key : A -> K).

Lemma insert_group_perm k (x : A) gs :
  Permutation (concat (map snd (insert_group ltb eqb k x gs)))
    (x :: concat (map snd gs)).
Proof.
  induction gs as [|[k1 xs] r IH]; cbn; [reflexivity |].
  destruct (ltb k k1); [reflexivity |].
  destruct (eqb k k1); cbn; [reflexivity |].
  rewrite IH. symmetry. apply Permutation_middle.
Qed.

(** Grouping loses no row and repeats none. *)
Lemma GROUP_BY_perm l :
  Permutation (concat (map snd (GROUP_BY ltb eqb key l))) l.
Proof.
  induction l as [|x l IH]; [reflexivity |].
  change (GROUP_BY ltb eqb key (x :: l))
    with (insert_group ltb eqb (key x) x (GROUP_BY ltb eqb key l)).
  rewrite insert_group_perm, IH. reflexivity.
Qed.

Lemma insert_group_keys_by (P : K -> Prop) k (x : A) gs :
  P k -> Forall (fun g => P (fst g)) gs ->
  Forall (fun g => P (fst g)) (insert_group ltb eqb k x gs).
Proof.
  intros Hk. induction 1 as [|[k1 xs] r H1 Hr IH]; cbn.
  - repeat constructor. exact Hk.
  - destruct (ltb k k1); [constructor; [exact Hk | constructor; auto] |].
    destruct (eqb k k1); constructor; auto.
Qed.

Lemma insert_group_ascending k (x : A) gs :
  StronglySorted (keys_ascending ltb) gs ->
  StronglySorted (keys_ascending ltb) (insert_group ltb eqb k x gs).
Proof.
  induction 1 as [|[k1 xs] r Hs IH Hall]; cbn.
  - repeat constructor.
  - destruct (ltb k k1) eqn:E1.
    + constructor; [constructor; auto |].
      constructor; [exact E1 |].
      eapply List.Forall_impl; [| exact Hall]. unfold keys_ascending; cbn.
      intros g Hg. apply (so_trans _ _ ord k k1 (fst g) E1 Hg).
    + destruct (eqb k k1) eqn:E2; constructor; auto.
      apply (insert_group_keys_by (fun j => ltb k1 j = true));
        [apply (so_total _ _ ord k k1 E1 E2) | exact Hall].
Qed.

Lemma GROUP_BY_ascending l :
  StronglySorted (keys_ascending ltb) (GROUP_BY ltb eqb key l).
Proof.
  induction l as [|x l IH]; [constructor |].
  change (GROUP_BY ltb eqb key (x :: l))
    with (insert_group ltb eqb (key x) x (GROUP_BY ltb eqb key l)).
  apply insert_group_ascending, IH.
Qed.

Lemma eqb_false_of_ltb a b : ltb a b = true -> eqb b a = false.
Proof.
  intros H. destruct (eqb b a) eqn:E; [| reflexivity].
  apply (so_eqb _ _ ord) in E. subst. rewrite (so_irrefl _ _ ord) in H. discriminate.
Qed.

Lemma eqb_sym_by a b : eqb a b = eqb b a.
Proof.
  destruct (eqb a b) eqn:E1; destruct (eqb b a) eqn:E2; auto.
  - apply (so_eqb _ _ ord) in E1. subst.
    assert (eqb b b = true) by (apply (so_eqb _ _ ord); reflexivity). congruence.
  - apply (so_eqb _ _ ord) in E2. subst.
    assert (eqb a a = true) by (apply (so_eqb _ _ ord); reflexivity). congruence.
Qed.

Lemma group_rows_above k (gs : list (K * list A)) :
  Forall (fun g => ltb k (fst g) = true) gs -> group_rows eqb k gs = [].
Proof.
  induction 1 as [|[k1 xs] r H1 _ IH]; cbn; [reflexivity |].
  cbn in H1. rewrite (eqb_false_of_ltb _ _ H1). exact IH.
Qed.

Lemma group_rows_insert k (x : A) gs k' :
  StronglySorted (keys_ascending ltb) gs ->
  group_rows eqb k' (insert_group ltb eqb k x gs) =
    if eqb k k' then x :: group_rows eqb k' gs else group_rows eqb k' gs.
Proof.
  induction 1 as [|[k1 xs] r Hs IH Hall]; cbn.
  - destruct (eqb k k'); reflexivity.
  - destruct (ltb k k1) eqn:E1.
    + cbn. destruct (eqb k k') eqn:E; [| reflexivity].
      apply (so_eqb _ _ ord) in E. subst k'.
      rewrite (eqb_false_of_ltb _ _ E1).
      rewrite group_rows_above; [reflexivity |].
      eapply List.Forall_impl; [| exact Hall]. unfold keys_ascending; cbn.
      intros g Hg. apply (so_trans _ _ ord k k1 (fst g) E1 Hg).
    + destruct (eqb k k1) eqn:E2.
      * apply (so_eqb _ _ ord) in E2. subst k1. cbn.
        destruct (eqb k k'); reflexivity.
      * cbn. rewrite IH.
        destruct (eqb k1 k') eqn:E3; [| reflexivity].
        apply (so_eqb _ _ ord) in E3. subst k'. rewrite E2. reflexivity.
Qed.

Lemma group_rows_GROUP_BY l k :
  group_rows eqb k (GROUP_BY ltb eqb key l) = List.filter (fun x => eqb (key x) k) l.
Proof.
  induction l as [|x l IH]; [reflexivity |].
  change (GROUP_BY ltb eqb key (x :: l))
    with (insert_group ltb eqb (key x) x (GROUP_BY ltb eqb key l)).
  rewrite group_rows_insert by apply GROUP_BY_ascending.
  rewrite IH. reflexivity.
Qed.

Lemma In_group_rows k (xs : list A) gs :
  StronglySorted (keys_ascending ltb) gs -> In (k, xs) gs -> group_rows eqb k gs = xs.
Proof.
  induction 1 as [|[k1 ys] r Hs IH Hall]; cbn; [tauto |].
  intros [E | Hin].
  - inversion E; subst.
    assert (H : eqb k k = true) by (apply (so_eqb _ _ ord); reflexivity).
    rewrite H. reflexivity.
  - rewrite List.Forall_forall in Hall. pose proof (Hall _ Hin) as Hlt.
    unfold keys_ascending in Hlt; cbn in Hlt.
    rewrite eqb_sym_by, (eqb_false_of_ltb _ _ Hlt). apply IH, Hin.
Qed.

Lemma insert_group_has_rows k (x : A) gs :
  Forall (fun g => snd g <> []) gs ->
  Forall (fun g => snd g <> []) (insert_group ltb eqb k x gs).
Proof.
  induction 1 as [|[k1 xs] r H1 Hr IH]; cbn.
  - repeat constructor. discriminate.
  - destruct (ltb k k1); [constructor; [discriminate | constructor; auto] |].
    destruct (eqb k k1); constructor; auto.
Qed.

Lemma GROUP_BY_has_rows l :
  Forall (fun g => snd g <> []) (GROUP_BY ltb eqb key l).
Proof.
  induction l as [|x l IH]; [constructor |].
  change (GROUP_BY ltb eqb key (x :: l))
    with (insert_group ltb eqb (key x) x (GROUP_BY ltb eqb key l)).
  apply insert_group_has_rows, IH.
Qed.

(** A group holds exactly the rows of its key, in storage order, and has
    at least one. *)
Lemma GROUP_BY_rows l k xs :
  In (k, xs) (GROUP_BY ltb eqb key l) ->
  xs = List.filter (fun x => eqb (key x) k) l /\ xs <> [].
Proof.
  intros Hin. split.
  - rewrite <- group_rows_GROUP_BY. symmetry.
    apply In_group_rows; [apply GROUP_BY_ascending | exact Hin].
  - pose proof (GROUP_BY_has_rows l) as H. rewrite List.Forall_forall in H.
    apply (H _ Hin).
Qed.

(** No key has two groups. *)
Lemma GROUP_BY_keys_NoDup l : List.NoDup (map fst (GROUP_BY ltb eqb key l)).
Proof.
  pose proof (GROUP_BY_ascending l) as H.
  induction H as [|g gs Hs IH Hall]; cbn; constructor; [| exact IH].
  intros Hin. apply in_map_iff in Hin. destruct Hin as (h & E & Hh).
  rewrite List.Forall_forall in Hall. pose proof (Hall _ Hh) as Hlt.
  unfold keys_ascending in Hlt. rewrite E, (so_irrefl _ _ ord) in Hlt. discriminate.
Qed.

End GroupsByKey.

Section Orders.
Import Sql.
Context {A : Type} (le : A -> A -> bool).
Hypothesis le_total : forall a b, le a b = false -> le b a = true.

Lemma insert_by_HdRel a x l :
  le a x = true -> HdRel (fun u v => le u v = true) a l ->
  HdRel (fun u v => le u v = true) a (insert_by le x l).
Proof.
  intros Hax Hl. destruct l as [|y r]; cbn; [constructor; exact Hax |].
  destruct (le x y); constructor; [exact Hax |].
  inversion Hl; assumption.
Qed.

Lemma insert_by_Sorted x l :
  Sorted (fun u v => le u v = true) l ->
  Sorted (fun u v => le u v = true) (insert_by le x l).
Proof.
  induction 1 as [|y r Hs IH Hd]; cbn; [repeat constructor |].
  destruct (le x y) eqn:E.
  - constructor; [constructor; assumption | constructor; exact E].
  - constructor; [exact IH |].
    apply insert_by_HdRel; [apply le_total, E | exact Hd].
Qed.

(** With a total comparison, [ORDER BY] leaves each row before the next. *)
Lemma ORDER_BY_Sorted l : Sorted (fun u v => le u v = true) (ORDER_BY le l).
Proof.
  induction l as [|x l IH]; [constructor |].
  change (ORDER_BY le (x :: l)) with (insert_by le x (ORDER_BY le l)).
  apply insert_by_Sorted, IH.
Qed.

End Orders.

Section ListFacts.

Lemma Sorted_firstn {A} (R : A -> A -> Prop) n l : Sorted R l -> Sorted R (firstn n l).
Proof.
  intros H. revert n. induction H as [|x l Hs IH Hd]; intros [|n]; cbn;
    try constructor; auto.
  destruct Hd as [|y r Hxy]; destruct n; cbn; constructor; exact Hxy.
Qed.

Lemma Sorted_skipn {A} (R : A -> A -> Prop) n l : Sorted R l -> Sorted R (skipn n l).
Proof.
  intros H. revert n. induction H as [|x l Hs IH Hd]; intros [|n]; cbn;
    try constructor; auto.
Qed.

Lemma SUM_app l1 l2 : (SUM (l1 ++ l2) == SUM l1 + SUM l2)%Q.
Proof.
  induction l1 as [|a l1 IH]; cbn.
  - change (SUM l2 == 0 + SUM l2)%Q. lra.
  - change (a + SUM (l1 ++ l2) == a + SUM l1 + SUM l2)%Q. rewrite IH. lra.
Qed.

Lemma SUM_perm l1 l2 : Permutation l1 l2 -> (SUM l1 == SUM l2)%Q.
Proof.
  induction 1 as [|a l1 l2 _ IH | a b l | l1 l2 l3 _ IH1 _ IH2].
  - reflexivity.
  - change (a + SUM l1 == a + SUM l2)%Q. rewrite IH. reflexivity.
  - change (b + (a + SUM l) == a + (b + SUM l))%Q. lra.
  - rewrite IH1. exact IH2.
Qed.

Lemma SUM_concat (ls : list (list Q)) : (SUM (concat ls) == SUM (map SUM ls))%Q.
Proof.
  induction ls as [|l ls IH]; cbn; [reflexivity |].
  rewrite SUM_app. change (SUM l + SUM (concat ls) == SUM l + SUM (map SUM ls))%Q.
  rewrite IH. reflexivity.
Qed.

Lemma length_concat_sum {A} (ls : list (list A)) :
  Z.of_nat (List.length (concat ls)) =
    fold_right Z.add 0 (map (fun l => Z.of_nat (List.length l)) ls).
Proof.
  induction ls as [|l ls IH]; cbn; [reflexivity |].
  rewrite length_app, Nat2Z.inj_add, IH. reflexivity.
Qed.

End ListFacts.

(** ** The write routes *)

Section WriteRoutes.
Import Invoices InvoiceEdits.

(** X2. A created invoice is stored as one new last row that carries the
    validated fields, the time of creation and no confirmation time, also
    when it is created as confirmed; the rows stored before and the
    supplier rows of other keys are left as they were. *)
Theorem post_invoice_appends_row st now b v :
  invoiceSchema_validate b = Some v ->
  exists row st',
    post_invoice st now b = (Created201 row, st')
    /\ invoices st' = invoices st ++ [row]
    /\ Invoice.company_phone row = company_phone v
    /\ Invoice.supplier_name row = supplier_name v
    /\ Invoice.amount row = amount v
    /\ Invoice.status row = status v
    /\ Invoice.created_at row = now
    /\ Invoice.confirmed_at row = None
    /\ forall k, k <> supplier_key v -> suppliers st' !! k = suppliers st !! k.
Proof.
  intros Hv. rewrite (post_invoice_valid _ _ _ _ Hv).
  eexists. eexists. split; [reflexivity |].
  cbn. repeat (split; [reflexivity |]).
  intros k Hk. apply lookup_insert_ne. intros E. apply Hk. rewrite <- E. reflexivity.
Qed.

Lemma post_invoice_appends_row_witness :
  exists row st',
    post_invoice Scenario.empty_store Scenario.now
      (mk_body (Some Scenario.company) (Some "Acme"%string) (Some 100%Q) None None None
         None None None (Some "confirmed"%string))
      = (Created201 row, st')
    /\ Invoice.status row = confirmed
    /\ Invoice.confirmed_at row = None.
Proof.
  destruct (post_invoice_appends_row Scenario.empty_store Scenario.now
              (mk_body (Some Scenario.company) (Some "Acme"%string) (Some 100%Q) None
                 None None None None None (Some "confirmed"%string))
              (mk_value Scenario.company "Acme" 100 "EUR" None None None None None
                 confirmed) eq_refl)
    as (row & st' & H & _ & _ & _ & _ & Hs & _ & Hc & _).
  exists row, st'. split; [exact H |]. split; [exact Hs | exact Hc].
Defined.

Lemma invoices_of_app k rows1 rows2 sup n1 sup2 n2 :
  invoices_of k (mk_store (rows1 ++ rows2) sup n1) =
    invoices_of k (mk_store rows1 sup2 n2) ++ invoices_of k (mk_store rows2 sup2 n2).
Proof. unfold invoices_of. cbn. apply List.filter_app. Qed.

Lemma sum_amount_app l1 l2 :
  (Analytics.sum_amount (l1 ++ l2) == Analytics.sum_amount l1 + Analytics.sum_amount l2)%Q.
Proof. unfold Analytics.sum_amount. rewrite map_app. apply SUM_app. Qed.

Lemma sum_amount_one i : (Analytics.sum_amount [i] == Invoice.amount i)%Q.
Proof. unfold Analytics.sum_amount. cbn. lra. Qed.

Lemma COUNT_app {A} (l1 l2 : list A) : COUNT (l1 ++ l2) = COUNT l1 + COUNT l2.
Proof. unfold COUNT. rewrite length_app. lia. Qed.

(** X3. Creation keeps the supplier counters in step with the stored
    invoices: if every supplier row counts and sums the invoices of its
    key before a creation, it does so after it. *)
Theorem post_invoice_keeps_counters st now b :
  counters_match st -> counters_match (snd (post_invoice st now b)).
Proof.
  intros Hm. destruct (invoiceSchema_validate b) as [v|] eqn:Hv.
  2:{ unfold post_invoice. rewrite Hv. exact Hm. }
  rewrite (post_invoice_valid _ _ _ _ Hv). cbn [snd].
  set (row := fst (insert_invoice now v st)).
  intros k. specialize (Hm k).
  assert (Hrows : invoices_of k (upsert_supplier now v (snd (insert_invoice now v st)))
                  = invoices_of k st
                    ++ (if String.eqb (supplier_name v) (fst k)
                           && String.eqb (company_phone v) (snd k)
                        then [row] else [])).
  { unfold invoices_of. cbn. rewrite List.filter_app. cbn. reflexivity. }
  rewrite Hrows. clear Hrows.
  unfold upsert_supplier. cbn [suppliers snd insert_invoice].
  destruct (decide (supplier_key v = k)) as [<- | Hne].
  - unfold supplier_key in *. cbn [fst snd] in *.
    rewrite !String.eqb_refl. cbn [andb].
    rewrite lookup_insert_eq.
    destruct (suppliers st !! (supplier_name v, company_phone v)) as [s|].
    + destruct Hm as [Hc Ha]. cbn. split.
      * rewrite COUNT_app, Hc. reflexivity.
      * rewrite sum_amount_app, Ha, sum_amount_one. cbn [Invoice.amount]. lra.
    + rewrite Hm. cbn. split; [reflexivity |]. lra.
  - rewrite lookup_insert_ne by exact Hne.
    assert (E : String.eqb (supplier_name v) (fst k)
                && String.eqb (company_phone v) (snd k) = false).
    { destruct (String.eqb_spec (supplier_name v) (fst k)) as [E1|];
        [| reflexivity].
      destruct (String.eqb_spec (company_phone v) (snd k)) as [E2|];
        [| reflexivity].
      exfalso. apply Hne. unfold supplier_key. destruct k. cbn in *. congruence. }
    rewrite E, app_nil_r. exact Hm.
Qed.

Lemma counters_match_empty : counters_match Scenario.empty_store.
Proof. intros k. cbn. rewrite lookup_empty. reflexivity. Qed.

Lemma post_invoice_keeps_counters_witness :
  counters_match Scenario.empty_store
  /\ counters_match
       (snd (post_invoice Scenario.empty_store Scenario.now (Scenario.body_of 100 None))).
Proof.
  split; [exact counters_match_empty |].
  apply (post_invoice_keeps_counters Scenario.empty_store Scenario.now
           (Scenario.body_of 100 None) counters_match_empty).
Defined.

Lemma filter_none {A} (f : A -> bool) l :
  List.filter f l = [] -> List.filter (fun x => negb (f x)) l = l.
Proof.
  induction l as [|x l IH]; cbn; [reflexivity |].
  destruct (f x); cbn; [discriminate |]. intros H. rewrite (IH H). reflexivity.
Qed.

(** X4. Deletion answers 404 and leaves the store as it was when no
    invoice has the id. Otherwise it answers with the id, supplier name and
    amount of the invoice, exactly the rows of that id are gone, and the
    supplier rows are untouched. *)
Theorem delete_invoice_effect st target :
  match List.filter (fun i => Invoice.id i =? target) (invoices st) with
  | [] => delete_invoice st target = (NotFound404, st)
  | row :: _ =>
      exists st',
        delete_invoice st target
          = (Ok200 (mk_deleted target (Invoice.supplier_name row) (Invoice.amount row)), st')
        /\ suppliers st' = suppliers st
        /\ forall i, In i (invoices st') <-> In i (invoices st) /\ Invoice.id i <> target
  end.
Proof.
  unfold delete_invoice.
  destruct (List.filter (fun i => Invoice.id i =? target) (invoices st)) as [|row rest] eqn:E.
  - rewrite (filter_none _ _ E). destruct st; reflexivity.
  - assert (Hrow : Invoice.id row = target).
    { assert (H : In row (List.filter (fun i => Invoice.id i =? target) (invoices st)))
        by (rewrite E; left; reflexivity).
      apply filter_In in H. destruct H as [_ H]. apply Z.eqb_eq, H. }
    rewrite Hrow. eexists. split; [reflexivity |]. split; [reflexivity |].
    intros i. cbn. rewrite filter_In, negb_true_iff, Z.eqb_neq. reflexivity.
Qed.

(** X5. Creating an invoice and then deleting it (its id being in no
    stored row before) brings the invoices back to what they were but not
    the supplier row: it keeps counting the deleted invoice, one more than
    the invoices stored for its key. *)
Theorem create_then_delete_leaves_counter st now b v :
  invoiceSchema_validate b = Some v ->
  counters_match st ->
  Forall (fun i => Invoice.id i <> next_invoice_id st) (invoices st) ->
  let st1 := snd (post_invoice st now b) in
  let st2 := snd (delete_invoice st1 (next_invoice_id st)) in
  fst (delete_invoice st1 (next_invoice_id st))
    = Ok200 (mk_deleted (next_invoice_id st) (supplier_name v) (amount v))
  /\ invoices st2 = invoices st
  /\ exists s, suppliers st2 !! supplier_key v = Some s
               /\ Supplier.total_invoices s = COUNT (invoices_of (supplier_key v) st2) + 1.
Proof.
  intros Hv Hm Hfresh st1 st2.
  assert (H1 : invoices st1 = invoices st ++ [fst (insert_invoice now v st)]).
  { unfold st1. rewrite (post_invoice_valid _ _ _ _ Hv). reflexivity. }
  assert (Hold : List.filter (fun i => Invoice.id i =? next_invoice_id st) (invoices st) = []).
  { clear -Hfresh. induction Hfresh as [|i l Hi _ IH]; cbn; [reflexivity |].
    apply Z.eqb_neq in Hi. rewrite Hi. exact IH. }
  assert (Hgone : List.filter (fun i => Invoice.id i =? next_invoice_id st) (invoices st1)
                  = [fst (insert_invoice now v st)]).
  { rewrite H1, List.filter_app, Hold. cbn. rewrite Z.eqb_refl. reflexivity. }
  assert (Hkept : List.filter (fun i => negb (Invoice.id i =? next_invoice_id st))
                    (invoices st1) = invoices st).
  { rewrite H1, List.filter_app, (filter_none _ _ Hold). cbn. rewrite Z.eqb_refl. cbn.
    apply app_nil_r. }
  assert (H2 : invoices st2 = invoices st).
  { unfold st2, delete_invoice. rewrite Hgone. cbn. exact Hkept. }
  split; [unfold delete_invoice; rewrite Hgone; reflexivity |].
  split; [exact H2 |].
  assert (Hsup : suppliers st2 = suppliers st1).
  { unfold st2, delete_invoice. rewrite Hgone. reflexivity. }
  rewrite Hsup. unfold st1. rewrite (suppliers_after_post _ _ _ _ Hv).
  rewrite lookup_insert_eq.
  assert (Hof : invoices_of (supplier_key v) st2 = invoices_of (supplier_key v) st).
  { unfold invoices_of. rewrite H2. reflexivity. }
  rewrite Hof. specialize (Hm (supplier_key v)).
  destruct (suppliers st !! supplier_key v) as [s|].
  - destruct Hm as [Hc _]. eexists. split; [reflexivity |]. cbn. rewrite Hc. reflexivity.
  - rewrite Hm. eexists. split; [reflexivity |]. reflexivity.
Qed.

Lemma create_then_delete_leaves_counter_witness :
  exists s,
    suppliers
      (snd (delete_invoice
              (snd (post_invoice Scenario.empty_store Scenario.now
                      (Scenario.body_of 100 None))) 1))
      !! ("Acme"%string, Scenario.company) = Some s
    /\ Supplier.total_invoices s = 1
    /\ invoices
         (snd (delete_invoice
                 (snd (post_invoice Scenario.empty_store Scenario.now
                         (Scenario.body_of 100 None))) 1)) = [].
Proof.
  destruct (create_then_delete_leaves_counter Scenario.empty_store Scenario.now
              (Scenario.body_of 100 None) (Scenario.value_of 100 None) eq_refl
              counters_match_empty (List.Forall_nil _)) as (_ & Hi & s & Hs & Hc).
  exists s. split; [exact Hs |]. split; [| exact Hi].
  rewrite Hc. reflexivity.
Defined.

End WriteRoutes.

Section EditRoutes.
Import Invoices InvoiceEdits.

Lemma optional_present {A} (rule : A -> bool) (x y : option A) :
  optional rule x = Some y -> is_present y = is_present x.
Proof.
  unfold optional. destruct x as [a|]; [destruct (rule a) |]; intros H;
    inversion H; reflexivity.
Qed.

Lemma validated_update_has_entry b v :
  updateSchema_validate b = Some v -> updates_length v <> 0%nat.
Proof.
  unfold updateSchema_validate.
  destruct (optional nonempty (u_supplier_name b)) as [sn|] eqn:E1; [| discriminate].
  destruct (optional _ (u_amount b)) as [am|] eqn:E2; [| discriminate].
  destruct (optional _ (u_currency b)) as [cu|] eqn:E3; [| discriminate].
  destruct (optional nonempty (u_category b)) as [ca|] eqn:E4; [| discriminate].
  simpl.
  assert (E5 : forall st,
             match u_status b with
             | Some s => match status_of_string s with
                         | Some v => Some (Some v)
                         | None => None
                         end
             | None => Some None
             end = Some st -> is_present st = is_present (u_status b)).
  { intros st. destruct (u_status b) as [t|]; [destruct (status_of_string t) |];
      intros H; inversion H; reflexivity. }
  destruct (match u_status b with Some _ => _ | None => _ end) as [st|];
    [| discriminate].
  specialize (E5 st eq_refl). simpl.
  destruct (has_key b) eqn:Hk; [| discriminate].
  intros H. inversion H; subst v; clear H.
  unfold updates_length. cbn [uv_supplier_name uv_amount uv_currency uv_invoice_date
    uv_due_date uv_tax_id uv_description uv_category uv_status].
  rewrite (optional_present _ _ _ E1), (optional_present _ _ _ E2),
    (optional_present _ _ _ E3), (optional_present _ _ _ E4), E5.
  unfold has_key in Hk.
  destruct (is_present (u_supplier_name b)); [discriminate |].
  destruct (is_present (u_amount b)); [discriminate |].
  destruct (is_present (u_currency b)); [discriminate |].
  destruct (is_present (u_invoice_date b)); [discriminate |].
  destruct (is_present (u_due_date b)); [discriminate |].
  destruct (is_present (u_tax_id b)); [discriminate |].
  destruct (is_present (u_description b)); [discriminate |].
  destruct (is_present (u_category b)); [discriminate |].
  destruct (is_present (u_status b)); discriminate.
Qed.

(** X6. The edit route's answer that there is no field to update is
    unreachable: a body that passes updateSchema always gives at least one
    column to write, so an edit whose body is valid is never answered
    400. *)
Theorem put_invoice_empty_update_unreachable st now target b v :
  updateSchema_validate b = Some v ->
  updates_length v <> 0%nat
  /\ fst (put_invoice st now target b) <> BadRequest400.
Proof.
  intros Hv. pose proof (validated_update_has_entry b v Hv) as Hn.
  split; [exact Hn |].
  unfold put_invoice. rewrite Hv. apply Nat.eqb_neq in Hn. rewrite Hn.
  destruct (List.filter _ _) as [|row rest]; cbn; discriminate.
Qed.

Lemma put_invoice_empty_update_unreachable_witness :
  exists v row,
    updateSchema_validate
      (mk_update_body None (Some 75%Q) None None None None None None None) = Some v
    /\ updates_length v = 1%nat
    /\ fst (put_invoice Scenario.gap_store Scenario.now 1
              (mk_update_body None (Some 75%Q) None None None None None None None))
       = Ok200 row
    /\ fst (put_invoice Scenario.gap_store Scenario.now 1
              (mk_update_body None (Some 75%Q) None None None None None None None))
       <> BadRequest400.
Proof.
  assert (E : exists v row,
             updateSchema_validate
               (mk_update_body None (Some 75%Q) None None None None None None None)
             = Some v
             /\ updates_length v = 1%nat
             /\ fst (put_invoice Scenario.gap_store Scenario.now 1
                       (mk_update_body None (Some 75%Q) None None None None None None
                          None))
                = Ok200 row)
    by (eexists; eexists; repeat split; vm_compute; reflexivity).
  destruct E as (v & row & Hv & Hl & Hr). exists v, row.
  split; [exact Hv |]. split; [exact Hl |]. split; [exact Hr |].
  exact (proj2 (put_invoice_empty_update_unreachable Scenario.gap_store Scenario.now 1
                  _ v Hv)).
Defined.

Lemma map_edit_columns now v target rows :
  map edit_proof_columns
    (map (fun i => if Invoice.id i =? target then set_fields now v i else i) rows)
  = map edit_proof_columns rows.
Proof.
  induction rows as [|i rows IH]; cbn; [reflexivity |].
  rewrite IH. destruct (Invoice.id i =? target); reflexivity.
Qed.

(** X7. A field edit never writes the id, the company, the creation time
    or the confirmation time of any invoice, and never touches a supplier
    row: setting the status to confirmed this way leaves confirmed_at as it
    was, and changing an amount leaves the supplier counters as they were. *)
Theorem put_invoice_leaves_confirmation_and_suppliers st now target b :
  suppliers (snd (put_invoice st now target b)) = suppliers st
  /\ map edit_proof_columns (invoices (snd (put_invoice st now target b)))
     = map edit_proof_columns (invoices st).
Proof.
  unfold put_invoice.
  destruct (updateSchema_validate b) as [v|]; [| split; reflexivity].
  destruct (Nat.eqb (updates_length v) 0); [split; reflexivity |].
  destruct (List.filter _ _); cbn; (split; [reflexivity | apply map_edit_columns]).
Qed.

Lemma validated_update_amount_positive b v a :
  updateSchema_validate b = Some v -> uv_amount v = Some a -> (0 < a)%Q.
Proof.
  unfold updateSchema_validate.
  destruct (optional nonempty (u_supplier_name b)) as [sn|]; [| discriminate].
  destruct (optional positive_number (u_amount b)) as [am|] eqn:E2; [| discriminate].
  destruct (optional length3 (u_currency b)) as [cu|]; [| discriminate].
  destruct (optional nonempty (u_category b)) as [ca|]; [| discriminate].
  simpl.
  destruct (match u_status b with Some _ => _ | None => _ end) as [st|];
    [| discriminate].
  simpl. destruct (has_key b); [| discriminate].
  intros H. inversion H; subst v; clear H. cbn [uv_amount]. intros ->.
  unfold optional in E2. destruct (u_amount b) as [a'|]; [| discriminate].
  destruct (positive_number a') eqn:Ep; [| discriminate].
  inversion E2; subst a'. clear E2.
  unfold positive_number in Ep. apply andb_true_iff in Ep. destruct Ep as [Ep _].
  apply negb_true_iff in Ep.
  destruct (Qlt_le_dec 0 a) as [Hlt | Hle]; [exact Hlt |].
  apply Qle_bool_iff in Hle. congruence.
Qed.

Lemma put_invoice_keeps_amounts_positive st now target b :
  amounts_positive st -> amounts_positive (snd (put_invoice st now target b)).
Proof.
  intros Hpos. unfold put_invoice.
  destruct (updateSchema_validate b) as [v|] eqn:Hv; [| exact Hpos].
  destruct (Nat.eqb (updates_length v) 0); [exact Hpos |].
  assert (H : Forall (fun i => (0 < Invoice.amount i)%Q)
                (map (fun i => if Invoice.id i =? target then set_fields now v i else i)
                   (invoices st))).
  { unfold amounts_positive in Hpos.
    induction Hpos as [|i rows Hi _ IH]; cbn; constructor; [| exact IH].
    destruct (Invoice.id i =? target); [| exact Hi]. cbn.
    destruct (uv_amount v) as [a|] eqn:Ea; cbn; [| exact Hi].
    apply (validated_update_amount_positive b v a Hv Ea). }
  destruct (List.filter _ _); exact H.
Qed.

Lemma delete_invoice_keeps_amounts_positive st target :
  amounts_positive st -> amounts_positive (snd (delete_invoice st target)).
Proof.
  intros Hpos. unfold delete_invoice.
  assert (H : Forall (fun i => (0 < Invoice.amount i)%Q)
                (List.filter (fun i => negb (Invoice.id i =? target)) (invoices st)))
    by (apply Forall_list_filter, Hpos).
  destruct (List.filter (fun i => Invoice.id i =? target) (invoices st)); exact H.
Qed.

(** X8. Every write route keeps the data model's invariant: on a store
    whose amounts are all positive, creating, editing, deleting and
    changing the status of an invoice, with any request, leave all amounts
    positive. *)
Theorem write_routes_keep_amounts_positive st now target b u text :
  amounts_positive st ->
  amounts_positive (snd (post_invoice st now b))
  /\ amounts_positive (snd (put_invoice st now target u))
  /\ amounts_positive (snd (delete_invoice st target))
  /\ amounts_positive (snd (patch_status st now target text)).
Proof.
  intros Hpos.
  split; [apply post_invoice_keeps_amounts_positive, Hpos |].
  split; [apply put_invoice_keeps_amounts_positive, Hpos |].
  split; [apply delete_invoice_keeps_amounts_positive, Hpos |].
  apply patch_status_keeps_amounts_positive, Hpos.
Qed.

Lemma write_routes_keep_amounts_positive_witness :
  amounts_positive Scenario.gap_store
  /\ amounts_positive
       (snd (put_invoice Scenario.gap_store Scenario.now 1
               (mk_update_body None (Some 75%Q) None None None None None None None))).
Proof.
  assert (Hpos : amounts_positive Scenario.gap_store).
  { unfold amounts_positive. cbn. repeat (constructor; [reflexivity |]). constructor. }
  split; [exact Hpos |].
  apply (write_routes_keep_amounts_positive Scenario.gap_store Scenario.now 1
           (Scenario.body_of 100 None)
           (mk_update_body None (Some 75%Q) None None None None None None None)
           "paid" Hpos).
Defined.

Lemma map_fixed_columns now s target rows :
  map fixed_columns (update_status now s target rows) = map fixed_columns rows.
Proof.
  unfold update_status. induction rows as [|i rows IH]; cbn; [reflexivity |].
  rewrite IH. destruct (Invoice.id i =? target); reflexivity.
Qed.

Lemma update_status_none now s target rows :
  List.filter (fun i => Invoice.id i =? target) rows = [] ->
  update_status now s target rows = rows.
Proof.
  unfold update_status. induction rows as [|i rows IH]; cbn; [reflexivity |].
  destruct (Invoice.id i =? target) eqn:E; [discriminate |].
  intros H. rewrite (IH H). reflexivity.
Qed.

Lemma filter_update_status now s target rows :
  List.filter (fun i => Invoice.id i =? target) (update_status now s target rows)
  = map (set_status now s) (List.filter (fun i => Invoice.id i =? target) rows).
Proof.
  unfold update_status. induction rows as [|i rows IH]; cbn; [reflexivity |].
  destruct (Invoice.id i =? target) eqn:E; cbn; rewrite ?E, IH; reflexivity.
Qed.

(** X9. A status change writes nothing but status, updated_at and
    confirmed_at: every other column of every invoice and all supplier
    rows stay as they were. With a valid status it answers 404, leaving the
    store as it was, exactly when no invoice has the id, and otherwise
    answers with an invoice of that id in the new status. *)
Theorem patch_status_scope st now target text s :
  status_of_string text = Some s ->
  suppliers (snd (patch_status st now target text)) = suppliers st
  /\ map fixed_columns (invoices (snd (patch_status st now target text)))
     = map fixed_columns (invoices st)
  /\ match List.filter (fun i => Invoice.id i =? target) (invoices st) with
     | [] => patch_status st now target text = (NotFound404, st)
     | _ :: _ =>
         exists row, fst (patch_status st now target text) = Ok200 row
                     /\ Invoice.id row = target /\ Invoice.status row = s
     end.
Proof.
  intros Hs. unfold patch_status. rewrite Hs.
  rewrite filter_update_status.
  destruct (List.filter (fun i => Invoice.id i =? target) (invoices st))
    as [|row rest] eqn:E; cbn.
  - split; [reflexivity |]. split; [apply map_fixed_columns |].
    rewrite (update_status_none _ _ _ _ E). destruct st; reflexivity.
  - split; [reflexivity |]. split; [apply map_fixed_columns |].
    eexists. split; [reflexivity |]. cbn. split; [| reflexivity].
    assert (H : In row (List.filter (fun i => Invoice.id i =? target) (invoices st)))
      by (rewrite E; left; reflexivity).
    apply filter_In in H. destruct H as [_ H]. apply Z.eqb_eq, H.
Qed.

Lemma patch_status_scope_witness :
  patch_status Scenario.confirmed_store Scenario.now 7 "paid"
    = (NotFound404, Scenario.confirmed_store)
  /\ exists row,
       fst (patch_status Scenario.confirmed_store Scenario.now 1 "paid") = Ok200 row
       /\ Invoice.id row = 1 /\ Invoice.status row = paid.
Proof.
  split.
  - apply (patch_status_scope Scenario.confirmed_store Scenario.now 7 "paid" paid eq_refl).
  - apply (patch_status_scope Scenario.confirmed_store Scenario.now 1 "paid" paid eq_refl).
Defined.

End EditRoutes.

(** ** The invoice listing *)

Section ListingPages.
Import Sql Listing.

Lemma list_invoices_inv st q rows total :
  list_invoices st q = Ok200 (rows, total) ->
  exists all lim off,
    matching st q = Some all
    /\ row_count (q_limit q) 50 = Some lim
    /\ row_count (q_offset q) 0 = Some off
    /\ rows = page lim off all /\ total = COUNT all.
Proof.
  unfold list_invoices.
  destruct (matching st q) as [all|]; [| discriminate].
  destruct (row_count (q_limit q) 50) as [lim|]; [| discriminate].
  destruct (row_count (q_offset q) 0) as [off|]; [| discriminate].
  intros H. inversion H. exists all, lim, off. auto.
Qed.

(** X10. A listing page holds at most [limit] rows (50 when the request
    names none) and never more than the pagination total, and it is empty
    when the offset reaches the total. *)
Theorem list_invoices_page_bounds st q rows total lim off :
  list_invoices st q = Ok200 (rows, total) ->
  row_count (q_limit q) 50 = Some lim ->
  row_count (q_offset q) 0 = Some off ->
  (List.length rows <= lim)%nat
  /\ Z.of_nat (List.length rows) <= total
  /\ (total <= Z.of_nat off -> rows = []).
Proof.
  intros H Hl Ho. destruct (list_invoices_inv _ _ _ _ H) as (all & l & o & _ & Hl' & Ho' & -> & ->).
  assert (l = lim) by congruence. assert (o = off) by congruence. subst l o.
  unfold page, COUNT. split; [apply firstn_le_length |]. split.
  - pose proof (firstn_le_length lim (skipn off all)).
    rewrite length_firstn, length_skipn. lia.
  - intros Hge. rewrite skipn_all2 by lia. destruct lim; reflexivity.
Qed.

Lemma list_invoices_page_bounds_witness :
  exists rows total,
    list_invoices Scenario.two_company_store (with_paging Scenario.bare_listing 1 0)
      = Ok200 (rows, total)
    /\ (List.length rows <= 1)%nat /\ Z.of_nat (List.length rows) <= total.
Proof.
  eexists. eexists. split; [vm_compute; reflexivity |].
  destruct (list_invoices_page_bounds Scenario.two_company_store
              (with_paging Scenario.bare_listing 1 0) _ _ 1%nat 0%nat
              eq_refl eq_refl eq_refl) as (H1 & H2 & _).
  split; [exact H1 | exact H2].
Defined.

Lemma row_count_nat n d :
  Z.of_nat n <= bigint_max -> row_count (Some (JsInt (Z.of_nat n))) d = Some n.
Proof.
  intros Hn. unfold row_count, row_count_ok.
  destruct (Z.leb_spec 0 (Z.of_nat n)); [| lia].
  destruct (Z.leb_spec (Z.of_nat n) bigint_max); [| lia].
  cbn [andb]. rewrite Nat2Z.id. reflexivity.
Qed.

Lemma page_app {A} (a b off : nat) (l : list A) :
  page a off l ++ page b (off + a) l = page (a + b) off l.
Proof.
  unfold page. rewrite Nat.add_comm, <- skipn_skipn.
  generalize (skipn off l). intros r. revert r.
  induction a as [|a IH]; intros r; cbn; [reflexivity |].
  destruct r as [|x r]; cbn.
  - rewrite firstn_nil. reflexivity.
  - rewrite IH. reflexivity.
Qed.

Lemma where_clause_sound cs keep p i :
  where_clause cs = Some keep -> In (Some p) cs -> keep i = true -> p i = true.
Proof.
  revert keep. induction cs as [|o cs IH]; cbn; intros keep E Hin Hk; [tauto |].
  destruct o as [p'|]; [| discriminate].
  destruct (where_clause cs) as [k|]; [| discriminate].
  inversion E; subst keep. apply andb_true_iff in Hk. destruct Hk as [Hp Hk].
  destruct Hin as [Hin | Hin]; [inversion Hin; subst; exact Hp |].
  apply (IH k eq_refl Hin Hk).
Qed.

Lemma In_ORDER_BY {A} (le : A -> A -> bool) l x : In x (ORDER_BY le l) -> In x l.
Proof. apply Permutation_in, ORDER_BY_perm. Qed.

Lemma In_firstn_list {A} n (l : list A) x : In x (firstn n l) -> In x l.
Proof.
  revert l. induction n as [|n IH]; intros [|y l]; cbn; try tauto.
  intros [H | H]; [left; exact H | right; apply IH, H].
Qed.

Lemma In_skipn_list {A} n (l : list A) x : In x (skipn n l) -> In x l.
Proof.
  revert l. induction n as [|n IH]; intros [|y l]; cbn; try tauto.
  intros H. right. apply IH, H.
Qed.

Lemma In_page {A} lim off (l : list A) x : In x (page lim off l) -> In x l.
Proof.
  unfold page. intros H. apply In_firstn_list, In_skipn_list in H. exact H.
Qed.

(** X12. When the request names a company, every listed row belongs to
    that company, and the pagination total does not exceed the number of
    that company's invoices. *)
Theorem list_invoices_of_company st q c rows total :
  truthy (q_company_phone q) = Some c ->
  list_invoices st q = Ok200 (rows, total) ->
  Forall (fun r => Invoice.company_phone (inv r) = c) rows
  /\ total <= COUNT (List.filter (Analytics.of_company c) (invoices st)).
Proof.
  intros Hc H. destruct (list_invoices_inv _ _ _ _ H) as (all & lim & off & Hm & _ & _ & -> & ->).
  unfold matching in Hm.
  destruct (where_clause (conjuncts q)) as [keep|] eqn:Hw; [| discriminate].
  cbn in Hm. inversion Hm; subst all; clear Hm.
  assert (Hkeep : forall i, keep i = true -> Invoice.company_phone i = c).
  { intros i Hk. apply String.eqb_eq.
    apply (where_clause_sound _ _ (fun i => String.eqb (Invoice.company_phone i) c) i Hw);
      [| exact Hk].
    unfold conjuncts, company_conjunct. rewrite Hc. left. reflexivity. }
  split.
  - apply List.Forall_forall. intros r Hr. apply In_page, In_ORDER_BY in Hr.
    apply in_map_iff in Hr. destruct Hr as (i & <- & Hi). cbn.
    apply filter_In in Hi. apply Hkeep, Hi.
  - unfold COUNT. rewrite (Permutation_length (ORDER_BY_perm _ _)), length_map.
    apply inj_le. clear -Hkeep.
    induction (invoices st) as [|i l IH]; cbn; [lia |].
    unfold Analytics.of_company in *.
    destruct (keep i) eqn:Ek; cbn.
    + rewrite (proj2 (String.eqb_eq _ _) (Hkeep i Ek)). cbn. lia.
    + destruct (String.eqb (Invoice.company_phone i) c); cbn; lia.
Qed.

Lemma list_invoices_of_company_witness :
  exists rows total,
    list_invoices Scenario.two_company_store
      (mk_list_query (Some Scenario.company) None None None None None None None None None)
      = Ok200 (rows, total)
    /\ Forall (fun r => Invoice.company_phone (inv r) = Scenario.company) rows.
Proof.
  eexists. eexists. split; [vm_compute; reflexivity |].
  apply (list_invoices_of_company Scenario.two_company_store
           (mk_list_query (Some Scenario.company) None None None None None None None
              None None) Scenario.company _ _ eq_refl eq_refl).
Defined.

Lemma Qle_bool_total a b : Qle_bool a b = false -> Qle_bool b a = true.
Proof.
  intros H. apply Qle_bool_iff. destruct (Qlt_le_dec b a) as [Hlt | Hle].
  - apply Qlt_le_weak, Hlt.
  - apply Qle_bool_iff in Hle. congruence.
Qed.

Lemma column_le_total col a b : column_le col a b = false -> column_le col b a = true.
Proof.
  destruct col; cbn.
  - intros H. apply Z.leb_gt in H. apply Z.leb_le. lia.
  - destruct (Invoice.invoice_date (inv a)), (Invoice.invoice_date (inv b));
      try discriminate; try reflexivity.
    intros H. apply Z.leb_gt in H. apply Z.leb_le. lia.
  - apply Qle_bool_total.
  - intros H. destruct (String.leb_total (Invoice.supplier_name (inv a))
                          (Invoice.supplier_name (inv b))); congruence.
Qed.

Lemma order_le_total q a b : order_le q a b = false -> order_le q b a = true.
Proof. unfold order_le. destruct (sort_ascending q); apply column_le_total. Qed.

(** X13. A listing page comes in the requested order: each row precedes
    the next under the sort column and direction the request selects
    (created_at, newest first, by default). *)
Theorem list_invoices_sorted st q rows total :
  list_invoices st q = Ok200 (rows, total) ->
  Sorted (fun a b => order_le q a b = true) rows.
Proof.
  intros H. destruct (list_invoices_inv _ _ _ _ H) as (all & lim & off & Hm & _ & _ & -> & _).
  unfold matching in Hm.
  destruct (where_clause (conjuncts q)) as [keep|]; [| discriminate].
  cbn in Hm. inversion Hm; subst all.
  unfold page. apply Sorted_firstn, Sorted_skipn.
  apply ORDER_BY_Sorted. apply order_le_total.
Qed.

Lemma list_invoices_sorted_witness :
  exists rows total,
    list_invoices Scenario.two_company_store Scenario.bare_listing = Ok200 (rows, total)
    /\ Sorted (fun a b => (Invoice.created_at (inv b) <=? Invoice.created_at (inv a)) = true)
         rows.
Proof.
  eexists. eexists. split; [vm_compute; reflexivity |].
  apply (list_invoices_sorted Scenario.two_company_store Scenario.bare_listing _ _ eq_refl).
Defined.

Lemma string_leb_trans a b c :
  String.leb a b = true -> String.leb b c = true -> String.leb a c = true.
Proof.
  unfold String.leb. intros Hab Hbc.
  destruct (String.compare a b) eqn:Eab; try discriminate;
    destruct (String.compare b c) eqn:Ebc; try discriminate.
  - apply String.compare_eq_iff in Eab. subst. rewrite Ebc. reflexivity.
  - apply String.compare_eq_iff in Eab. subst. rewrite Ebc. reflexivity.
  - apply String.compare_eq_iff in Ebc. subst. rewrite Eab. reflexivity.
  - rewrite (string_compare_lt_trans _ _ _ Eab Ebc). reflexivity.
Qed.

Lemma column_le_trans col a b c :
  column_le col a b = true -> column_le col b c = true -> column_le col a c = true.
Proof.
  destruct col; cbn.
  - rewrite !Z.leb_le. lia.
  - destruct (Invoice.invoice_date (inv a)), (Invoice.invoice_date (inv b)),
      (Invoice.invoice_date (inv c)); try discriminate; try reflexivity.
    rewrite !Z.leb_le. lia.
  - rewrite !Qle_bool_iff. apply Qle_trans.
  - apply string_leb_trans.
Qed.

Lemma order_le_trans q a b c :
  order_le q a b = true -> order_le q b c = true -> order_le q a c = true.
Proof.
  unfold order_le. destruct (sort_ascending q).
  - apply column_le_trans.
  - intros H1 H2. apply (column_le_trans _ _ _ _ H2 H1).
Qed.

Lemma ORDER_BY_valid q (rows : list listed) :
  valid_order (order_le q) rows (ORDER_BY (order_le q) rows).
Proof.
  split; [apply ORDER_BY_perm |].
  apply Sorted_StronglySorted.
  - intros a b c. apply order_le_trans.
  - apply ORDER_BY_Sorted, order_le_total.
Qed.

(** Rows without ties have one valid order only. *)
Lemma valid_order_unique {A} (le : A -> A -> bool) (rows : list A) : forall l1 l2,
  no_ties le rows -> valid_order le rows l1 -> valid_order le rows l2 -> l1 = l2.
Proof.
  intros l1 l2 Hties [Hp1 Hs1] [Hp2 Hs2].
  assert (Hp : Permutation l1 l2) by (rewrite Hp1, Hp2; reflexivity).
  assert (Hin1 : forall x, In x l1 -> In x rows)
    by (intros x Hx; apply (Permutation_in _ Hp1 Hx)).
  clear Hp1 Hp2. revert l2 Hp Hs2.
  induction Hs1 as [|x l1 Hs1 IH Hall1]; intros l2 Hp Hs2.
  - apply Permutation_nil in Hp. subst. reflexivity.
  - destruct l2 as [|y l2]; [apply Permutation_sym, Permutation_nil in Hp; discriminate |].
    apply StronglySorted_inv in Hs2. destruct Hs2 as [Hs2 Hall2].
    assert (Exy : x = y).
    { assert (Hy : In y (x :: l1))
        by (apply (Permutation_in _ (Permutation_sym Hp)); left; reflexivity).
      assert (Hx : In x (y :: l2)) by (apply (Permutation_in _ Hp); left; reflexivity).
      destruct Hy as [Hy | Hy]; [exact Hy |].
      destruct Hx as [Hx | Hx]; [symmetry; exact Hx |].
      rewrite List.Forall_forall in Hall1, Hall2.
      apply Hties.
      - apply Hin1. left. reflexivity.
      - apply Hin1. right. exact Hy.
      - apply (Hall1 y Hy).
      - apply (Hall2 x Hx). }
    subst y. f_equal. apply IH.
    + intros z Hz. apply Hin1. right. exact Hz.
    + apply (Permutation_cons_inv Hp).
    + exact Hs2.
Qed.

(** X11. When no two rows that pass the filters have the same sort key,
    consecutive pages tile the result whatever order the store picks for
    each request: the page of [a] rows at an offset followed by the page of
    [b] rows at that offset plus [a] is the page of [a + b] rows at the
    offset, and each request for a page is answered with that page of the
    one order there is, and the number of rows that pass the filters.
    Nothing of the kind is stated for rows with equal sort keys, which
    separate requests may order differently. *)
Theorem list_invoices_pages_tile st q keep a b off o1 o2 o3 :
  where_clause (conjuncts q) = Some keep ->
  let rows := map (join_supplier st) (List.filter keep (invoices st)) in
  no_ties (order_le q) rows ->
  valid_order (order_le q) rows o1 ->
  valid_order (order_le q) rows o2 ->
  valid_order (order_le q) rows o3 ->
  page a off o1 ++ page b (off + a) o2 = page (a + b) off o3
  /\ forall lim from,
       Z.of_nat lim <= bigint_max -> Z.of_nat from <= bigint_max ->
       list_invoices st (with_paging q lim from)
       = Ok200 (page lim from o1, COUNT rows).
Proof.
  intros Hw rows Hties H1 H2 H3.
  rewrite (valid_order_unique _ rows o2 o1 Hties H2 H1).
  rewrite (valid_order_unique _ rows o3 o1 Hties H3 H1).
  split; [apply page_app |].
  intros lim from Hlim Hfrom.
  assert (Hm : matching st (with_paging q lim from) = Some o1).
  { change (matching st (with_paging q lim from)) with (matching st q).
    unfold matching. rewrite Hw. cbn [mbind option_bind]. f_equal.
    apply (valid_order_unique _ rows _ _ Hties (ORDER_BY_valid q rows) H1). }
  unfold list_invoices. rewrite Hm. cbn [q_limit q_offset with_paging].
  rewrite (row_count_nat lim 50 Hlim), (row_count_nat from 0 Hfrom).
  unfold page, COUNT. rewrite (Permutation_length (proj1 H1)). reflexivity.
Qed.

Lemma list_invoices_pages_tile_witness :
  exists keep o,
    where_clause (conjuncts Scenario.bare_listing) = Some keep
    /\ list_invoices Scenario.two_company_store (with_paging Scenario.bare_listing 1 1)
       = Ok200 (page 1 1 o, 2)
    /\ List.length o = 2%nat
    /\ page 1 0 o ++ page 1 1 o = page 2 0 o.
Proof.
  assert (E : exists keep,
             where_clause (conjuncts Scenario.bare_listing) = Some keep)
    by (eexists; reflexivity).
  destruct E as (keep & Hw).
  set (rows := map (join_supplier Scenario.two_company_store)
                 (List.filter keep (invoices Scenario.two_company_store))).
  assert (Hties : no_ties (order_le Scenario.bare_listing) rows).
  { injection Hw as <-. intros x y Hx Hy.
    destruct Hx as [<- | [<- | []]]; destruct Hy as [<- | [<- | []]];
      intros Hxy Hyx; try reflexivity; vm_compute in Hxy; vm_compute in Hyx;
      discriminate. }
  pose proof (ORDER_BY_valid Scenario.bare_listing rows) as Hv.
  destruct (list_invoices_pages_tile Scenario.two_company_store Scenario.bare_listing
              keep 1 1 0 _ _ _ Hw Hties Hv Hv Hv) as [Ht Hm].
  exists keep, (ORDER_BY (order_le Scenario.bare_listing) rows).
  split; [exact Hw |]. split.
  { rewrite (Hm 1%nat 1%nat ltac:(vm_compute; discriminate)
               ltac:(vm_compute; discriminate)).
    injection Hw as <-. reflexivity. }
  split; [| exact Ht].
  rewrite (Permutation_length (ORDER_BY_perm _ _)). injection Hw as <-. reflexivity.
Defined.




End ListingPages.

(** ** The dashboard *)

Section DashboardProps.
Import Text IntervalInput Sql Analytics DashboardLists.

(** X15. For every period written as a day count (digits followed by
    [d], so 7d, 30d and 90d among them) and for a request that names no
    period (it defaults to 30d), the dashboard of any company on any store
    fails with the generic 500: the interval text the route builds ends in
    [da years]. *)
Theorem dashboard_day_periods_fail st now c :
  c <> ""%string ->
  (forall n, all_digits n = true ->
     previous_interval_text (String.append n "d") = String.append n " da years"
     /\ dashboard st now (Some c) (Some (String.append n "d")) = ServerError500
     /\ dashboard_route st now (Some c) (Some (String.append n "d")) = ServerError500)
  /\ dashboard st now (Some c) None = ServerError500
  /\ dashboard_route st now (Some c) None = ServerError500.
Proof.
  intros Hc.
  assert (H : forall n, all_digits n = true ->
                dashboard_route st now (Some c) (Some (String.append n "d"))
                = ServerError500).
  { intros n Hn. unfold dashboard_route. rewrite (truthy_nonempty c Hc).
    unfold unread, metrics_query, with_param1, previous_window, parse_interval.
    rewrite (previous_interval_text_days n Hn), (day_count_refused n Hn).
    reflexivity. }
  split.
  - intros n Hn. split; [apply previous_interval_text_days, Hn |].
    split; [apply (dashboard_day_count st now c n Hc Hn) | apply (H n Hn)].
  - split.
    + apply (dashboard_day_count st now c "30" Hc eq_refl).
    + apply (H "30"%string eq_refl).
Qed.

Lemma dashboard_day_periods_fail_witness :
  Scenario.company <> ""%string
  /\ dashboard Scenario.gap_store Scenario.now (Some Scenario.company)
       (Some "365d"%string) = ServerError500
  /\ dashboard Scenario.gap_store Scenario.now (Some Scenario.company) None
     = ServerError500.
Proof.
  assert (Hc : Scenario.company <> ""%string) by discriminate.
  destruct (dashboard_day_periods_fail Scenario.gap_store Scenario.now
              Scenario.company Hc) as (Hn & Hd & _).
  split; [exact Hc |]. split; [| exact Hd].
  apply (Hn "365"%string eq_refl).
Defined.

Lemma length_filter_cons {A} (f : A -> bool) x l :
  List.length (List.filter f (x :: l))
  = ((if f x then 1 else 0) + List.length (List.filter f l))%nat.
Proof. cbn. destruct (f x); reflexivity. Qed.

Lemma length_status_partition (rows : list Invoice.t) :
  (List.length (List.filter (has_status pending) rows)
   + List.length (List.filter (has_status confirmed) rows)
   + List.length (List.filter (has_status paid) rows))%nat = List.length rows.
Proof.
  induction rows as [|i rows IH]; [reflexivity |].
  rewrite !length_filter_cons. cbn [List.length]. unfold has_status in *.
  destruct (Invoice.status i); cbn [status_eqb]; lia.
Qed.

Lemma length_overdue now (rows : list Invoice.t) :
  (List.length (List.filter (overdue now) rows)
   <= List.length (List.filter (has_status pending) rows)
      + List.length (List.filter (has_status confirmed) rows))%nat.
Proof.
  induction rows as [|i rows IH]; [cbn; lia |].
  rewrite !length_filter_cons.
  assert (H : ((if overdue now i then 1 else 0)
               <= (if has_status pending i then 1 else 0)
                  + (if has_status confirmed i then 1 else 0))%nat).
  { unfold overdue, has_status.
    destruct (Invoice.due_date i) as [d|]; destruct (Invoice.status i);
      cbn [status_eqb negb andb]; try destruct (d <? Calendar.current_date now);
      cbn [andb]; lia. }
  lia.
Qed.

Lemma length_distinct l : (List.length (distinct l) <= List.length l)%nat.
Proof.
  induction l as [|x l IH]; [cbn; lia |].
  cbn [distinct]. destruct (existsb (String.eqb x) l); cbn [List.length]; lia.
Qed.


(** X16. Whenever the dashboard answers, its counters are consistent: the
    pending, confirmed and paid counts add up to the invoice count, the
    overdue count is at most pending plus confirmed, and the number of
    distinct suppliers is at most the invoice count. *)
Theorem dashboard_counts_consistent st now company period m :
  dashboard st now company period = Ok200 m ->
  pending_invoices m + confirmed_invoices m + paid_invoices m = total_invoices m
  /\ overdue_invoices m <= pending_invoices m + confirmed_invoices m
  /\ 0 <= unique_suppliers m <= total_invoices m.
Proof.
  unfold dashboard. destruct (truthy company) as [c|]; [| discriminate].
  destruct (unread _); [discriminate |].
  unfold metrics_query, with_param1.
  destruct (previous_window _ now) as [[lo hi]|]; cbn; [| discriminate].
  intros H. inversion H; subst m; clear H. cbn. unfold COUNT.
  set (ps := List.filter _ (invoices st)).
  pose proof (length_status_partition ps). pose proof (length_overdue now ps).
  pose proof (length_distinct (map Invoice.supplier_name ps)) as Hd.
  rewrite length_map in Hd.
  split; [lia |]. split; lia.
Qed.

Lemma dashboard_counts_consistent_witness :
  exists m,
    dashboard Scenario.gap_store Scenario.now (Some Scenario.company) (Some "1y"%string)
      = Ok200 m
    /\ pending_invoices m + confirmed_invoices m + paid_invoices m = total_invoices m
    /\ overdue_invoices m <= pending_invoices m + confirmed_invoices m.
Proof.
  assert (E : exists m,
             dashboard Scenario.gap_store Scenario.now (Some Scenario.company)
               (Some "1y"%string) = Ok200 m) by (eexists; vm_compute; reflexivity).
  destruct E as [m E]. exists m. split; [exact E |].
  destruct (dashboard_counts_consistent Scenario.gap_store Scenario.now
              (Some Scenario.company) (Some "1y"%string) m E) as (H1 & H2 & _).
  split; [exact H1 | exact H2].
Defined.

Lemma filter_company_none c (f : Invoice.t -> bool) rows :
  Forall (fun i => Invoice.company_phone i <> c) rows ->
  List.filter (fun i => of_company c i && f i) rows = [].
Proof.
  induction 1 as [|i rows Hi _ IH]; cbn; [reflexivity |].
  unfold of_company at 1. destruct (String.eqb_spec (Invoice.company_phone i) c);
    [contradiction | exact IH].
Qed.

Lemma filter_company_none' c (f g : Invoice.t -> bool) rows :
  Forall (fun i => Invoice.company_phone i <> c) rows ->
  List.filter (fun i => of_company c i && f i && g i) rows = [].
Proof.
  induction 1 as [|i rows Hi _ IH]; cbn; [reflexivity |].
  unfold of_company at 1. destruct (String.eqb_spec (Invoice.company_phone i) c);
    [contradiction | exact IH].
Qed.

(** X17. For a company with no stored invoice, whenever the store accepts
    the interval text of the period, the dashboard answers 200 with every
    metric zero and empty category, supplier and trend lists. *)
Theorem dashboard_of_company_without_invoices st now c period w :
  c <> ""%string ->
  previous_window period now = Some w ->
  Forall (fun i => Invoice.company_phone i <> c) (invoices st) ->
  dashboard_route st now (Some c) (Some period)
    = Ok200 (mk_dashboard_data period zero_metrics [] [] []).
Proof.
  intros Hc Hw Hnone. unfold dashboard_route.
  rewrite (truthy_nonempty c Hc), (previous_window_read period now w Hw).
  unfold metrics_query, categoriesResult, suppliersResult, trendResult, with_param1,
    period_rows.
  rewrite Hw. destruct w as [lo hi]. cbn [mbind option_bind].
  rewrite !(filter_company_none' c _ _ _ Hnone), !(filter_company_none c _ _ Hnone).
  reflexivity.
Qed.

Lemma dashboard_of_company_without_invoices_witness :
  dashboard_route Scenario.gap_store Scenario.now (Some Scenario.other_company)
    (Some "1y"%string)
  = Ok200 (mk_dashboard_data "1y" zero_metrics [] [] []).
Proof.
  destruct (previous_window "1y" Scenario.now) as [w|] eqn:Hw;
    [| vm_compute in Hw; discriminate].
  refine (dashboard_of_company_without_invoices Scenario.gap_store Scenario.now
            Scenario.other_company "1y" w _ Hw _).
  - discriminate.
  - repeat (constructor; [intros E; vm_compute in E; discriminate |]). constructor.
Defined.

End DashboardProps.

(** ** The monthly and weekly views of the trend analyzer *)

Section TrendViewProps.
Import Sql Weekdays Analytics TrendViews.

Lemma total_of_group_counts {K A} (gs : list (K * list A)) :
  total_of (map (fun g => COUNT (snd g)) gs) = COUNT (concat (map snd gs)).
Proof.
  unfold COUNT, total_of. induction gs as [|g gs IH]; cbn; [reflexivity |].
  rewrite length_app, Nat2Z.inj_add, IH. reflexivity.
Qed.

Lemma sum_amount_perm l1 l2 :
  Permutation l1 l2 -> (sum_amount l1 == sum_amount l2)%Q.
Proof. intros H. unfold sum_amount. apply SUM_perm, Permutation_map, H. Qed.

Lemma sum_amount_concat (ls : list (list Invoice.t)) :
  (SUM (map sum_amount ls) == sum_amount (concat ls))%Q.
Proof.
  induction ls as [|l ls IH]; [reflexivity |].
  change (sum_amount l + SUM (map sum_amount ls) == sum_amount (l ++ concat ls))%Q.
  rewrite IH. unfold sum_amount. rewrite map_app, SUM_app. reflexivity.
Qed.

Lemma map_snd_concat {A B} (ls : list (list (A * B))) :
  map snd (concat ls) = concat (map (map snd) ls).
Proof. apply concat_map. Qed.

Lemma group_totals_add_up {K} (ltb eqb : K -> K -> bool) (key : Z * Invoice.t -> K) l :
  total_of (map (fun g => COUNT (map snd (snd g))) (GROUP_BY ltb eqb key l)) = COUNT l
  /\ (SUM (map (fun g => sum_amount (map snd (snd g))) (GROUP_BY ltb eqb key l))
      == sum_amount (map snd l))%Q.
Proof.
  pose proof (GROUP_BY_perm ltb eqb key l) as Hp. split.
  - rewrite (List.map_ext _ (fun g => COUNT (snd g))).
    2:{ intros g. unfold COUNT. rewrite length_map. reflexivity. }
    rewrite total_of_group_counts. unfold COUNT.
    rewrite (Permutation_length Hp). reflexivity.
  - rewrite <- (sum_amount_perm _ _ (Permutation_map snd Hp)).
    rewrite map_snd_concat, <- sum_amount_concat, !map_map. reflexivity.
Qed.

Lemma monthly_trend_months gs :
  StronglySorted key_lt gs ->
  StronglySorted (fun a b => mt_month a < mt_month b) (map monthly_trend_of gs).
Proof.
  induction 1 as [|g gs Hs IH Hall]; cbn; constructor; [exact IH |].
  rewrite List.Forall_forall in *. intros y Hy.
  apply in_map_iff in Hy. destruct Hy as (h & <- & Hh). apply (Hall _ Hh).
Qed.

(** X18. The monthly trend loses no invoice and counts none twice: its
    months come in strictly ascending order, each has at least one
    invoice, the invoice counts add up to the number of the company's
    invoices dated in the window (12 months for period 12m, 6 for any
    other period), and the totals add up to the sum of their amounts. *)
Theorem monthly_trends_partition st now c period rows :
  monthlyTrends period [c] st now = Some rows ->
  let window := dated_since (trend_months period) c st now in
  StronglySorted (fun a b => mt_month a < mt_month b) rows
  /\ Forall (fun r => 1 <= mt_invoice_count r) rows
  /\ total_of (map mt_invoice_count rows) = COUNT window
  /\ (SUM (map mt_total_amount rows) == sum_amount (map snd window))%Q.
Proof.
  intros H window. unfold monthlyTrends, with_param1 in H.
  inversion H; subst rows; clear H. fold window.
  destruct (group_totals_add_up Z.ltb Z.eqb month_of_row window) as [Hc Hs].
  split; [apply monthly_trend_months, GROUP_BY_sorted |].
  split.
  - apply List.Forall_forall. intros r Hr. apply in_map_iff in Hr.
    destruct Hr as ([k xs] & <- & Hg). cbn.
    destruct (GROUP_BY_group _ _ _ _ Hg) as [_ Hne].
    unfold COUNT. rewrite length_map. destruct xs; [congruence | cbn; lia].
  - rewrite !map_map. cbn. split; [exact Hc | exact Hs].
Qed.

Lemma monthly_trends_partition_witness :
  exists rows,
    monthlyTrends "12m" [Scenario.company] Scenario.gap_store Scenario.now = Some rows
    /\ total_of (map mt_invoice_count rows) = 2.
Proof.
  assert (E : exists rows,
             monthlyTrends "12m" [Scenario.company] Scenario.gap_store Scenario.now
             = Some rows) by (eexists; vm_compute; reflexivity).
  destruct E as [rows E]. exists rows. split; [exact E |].
  pose proof (monthly_trends_partition Scenario.gap_store Scenario.now Scenario.company
                "12m" rows E) as P.
  cbv zeta in P. destruct P as (_ & _ & H & _).
  rewrite H. vm_compute. reflexivity.
Defined.

Lemma week_starts_on_monday t : EXTRACT_DOW (date_trunc_week t) = 1.
Proof.
  unfold EXTRACT_DOW, date_trunc_week, day_secs.
  rewrite Z.div_mul by lia.
  set (d := t / 86400).
  pose proof (Z.div_mod (d + 3) 7 ltac:(lia)) as Hd.
  replace (d - (d + 3) mod 7 + 4) with (1 + (d + 3) / 7 * 7) by lia.
  rewrite Z.mod_add by lia. reflexivity.
Qed.

Lemma weekly_key_name r : snd (weekly_key r) = "Monday   "%string.
Proof.
  unfold weekly_key, TO_CHAR_Day. cbn [snd]. rewrite week_starts_on_monday. reflexivity.
Qed.

Lemma weekly_key_dow r : 0 <= fst (weekly_key r) < 7.
Proof. unfold weekly_key, EXTRACT_DOW. cbn [fst]. apply Z.mod_pos_bound. lia. Qed.

Lemma ascending_in_range (l : list Z) : forall lo hi,
  StronglySorted Z.lt l -> Forall (fun x => lo <= x < hi) l -> lo <= hi ->
  Z.of_nat (List.length l) <= hi - lo.
Proof.
  induction l as [|x l IH]; intros lo hi Hs Hr Hle; cbn [List.length]; [lia |].
  apply StronglySorted_inv in Hs. destruct Hs as [Hs Hall].
  inversion Hr as [|? ? Hx Hl]; subst.
  assert (H : Z.of_nat (List.length l) <= hi - (x + 1)).
  { apply IH; [exact Hs | | lia].
    rewrite List.Forall_forall in *. intros y Hy.
    pose proof (Hall y Hy). pose proof (Hl y Hy). lia. }
  lia.
Qed.

(** X19. In the weekly pattern every row is named Monday, whatever its
    day of the week, because the name is taken from the start of the
    row's week; the rows have distinct days of the week between 0 and 6,
    so there are at most 7, and their invoice counts add up to the number
    of the company's invoices dated in the last 3 months. *)
Theorem weekly_patterns_all_named_monday st now c rows :
  weeklyTrends [c] st now = Some rows ->
  Forall (fun r => day_name r = "Monday   "%string /\ 0 <= day_of_week r < 7) rows
  /\ StronglySorted (fun a b => day_of_week a < day_of_week b) rows
  /\ (List.length rows <= 7)%nat
  /\ total_of (map wp_invoice_count rows) = COUNT (dated_since 3 c st now).
Proof.
  unfold weeklyTrends, with_param1. intros H. inversion H; subst rows; clear H.
  set (window := dated_since 3 c st now).
  set (gs := GROUP_BY weekly_key_ltb weekly_key_eqb weekly_key window).
  assert (Hkeys : Forall (fun g => snd (fst g) = "Monday   "%string
                                   /\ 0 <= fst (fst g) < 7) gs).
  { apply List.Forall_forall. intros [k xs] Hg. cbn.
    destruct (GROUP_BY_rows _ _ weekly_key_strict_order weekly_key window k xs Hg)
      as [Hxs Hne].
    destruct xs as [|x xs']; [congruence |].
    assert (Hx : In x (List.filter (fun y => weekly_key_eqb (weekly_key y) k) window))
      by (rewrite <- Hxs; left; reflexivity).
    apply filter_In in Hx. destruct Hx as [_ Hx].
    apply (so_eqb _ _ weekly_key_strict_order) in Hx. subst k.
    split; [apply weekly_key_name | apply weekly_key_dow]. }
  assert (Hsorted : StronglySorted (fun a b => day_of_week a < day_of_week b)
                      (map weekly_pattern_of gs)).
  { pose proof (GROUP_BY_ascending _ _ weekly_key_strict_order weekly_key window) as Hs.
    fold gs in Hs. clear -Hs Hkeys.
    induction Hs as [|g gs Hs IH Hall]; cbn; constructor.
    - apply IH. inversion Hkeys; assumption.
    - inversion Hkeys as [|? ? Hg Hgs]; subst.
      rewrite List.Forall_forall in *. intros y Hy.
      apply in_map_iff in Hy. destruct Hy as (h & <- & Hh). cbn.
      pose proof (Hall h Hh) as Hlt. pose proof (Hgs h Hh) as [Hn _].
      destruct Hg as [Hn' _].
      unfold keys_ascending, weekly_key_ltb in Hlt.
      rewrite Hn, Hn' in Hlt.
      apply orb_true_iff in Hlt. destruct Hlt as [Hlt | Hlt];
        [apply Z.ltb_lt, Hlt |].
      apply andb_true_iff in Hlt. destruct Hlt as [_ Hlt].
      rewrite (so_irrefl _ _ string_strict_order) in Hlt. discriminate. }
  split.
  { apply List.Forall_forall. intros r Hr. apply in_map_iff in Hr.
    destruct Hr as (g & <- & Hg). rewrite List.Forall_forall in Hkeys.
    apply (Hkeys g Hg). }
  split; [exact Hsorted |].
  split.
  { assert (H : Z.of_nat (List.length (map day_of_week (map weekly_pattern_of gs))) <= 7 - 0).
    { apply ascending_in_range; [| | lia].
      - clear -Hsorted. induction Hsorted as [|r rs Hs IH Hall]; cbn; constructor;
          [exact IH |].
        rewrite List.Forall_forall in *. intros y Hy.
        apply in_map_iff in Hy. destruct Hy as (h & <- & Hh). apply (Hall _ Hh).
      - apply List.Forall_forall. intros y Hy. rewrite map_map in Hy.
        apply in_map_iff in Hy. destruct Hy as (g & <- & Hg).
        rewrite List.Forall_forall in Hkeys. apply (Hkeys g Hg). }
    rewrite !length_map in H. rewrite length_map. lia. }
  rewrite map_map. cbn.
  apply (group_totals_add_up weekly_key_ltb weekly_key_eqb weekly_key window).
Qed.

Lemma weekly_patterns_all_named_monday_witness :
  exists rows,
    weeklyTrends [Scenario.company] Scenario.gap_store Scenario.now = Some rows
    /\ rows <> []
    /\ Forall (fun r => day_name r = "Monday   "%string /\ 0 <= day_of_week r < 7) rows.
Proof.
  assert (E : exists rows,
             weeklyTrends [Scenario.company] Scenario.gap_store Scenario.now = Some rows
             /\ rows <> [])
    by (eexists; split; [vm_compute; reflexivity | discriminate]).
  destruct E as (rows & E & Hne). exists rows. split; [exact E |]. split; [exact Hne |].
  apply (weekly_patterns_all_named_monday Scenario.gap_store Scenario.now
           Scenario.company rows E).
Defined.

End TrendViewProps.

(** ** The forecast *)

Section ForecastProps.
Import Sql Analytics Patterns.
Local Open Scope Q_scope.

Lemma SUM_pos a l : 0 < a -> Forall (fun x => 0 < x) l -> 0 < SUM (a :: l).
Proof.
  intros Ha Hl. pose proof (SUM_nonneg l Hl).
  change (SUM (a :: l)) with (a + SUM l). lra.
Qed.

Lemma monthly_data_positive n c st now m t :
  amounts_positive st -> In (m, t) (monthly_data n c st now) -> 0 < t.
Proof.
  intros Hpos Hin. destruct (monthly_data_total _ _ _ _ _ _ Hin) as [Hne ->].
  pose proof (dated_since_positive n c st now Hpos) as Hall.
  apply (Forall_list_filter _ (fun r => (month_of_row r =? m)%Z)) in Hall.
  destruct (List.filter _ (dated_since n c st now)) as [|r rs]; [congruence |].
  inversion Hall as [|? ? Hr Hrs]; subst.
  unfold sum_amount. cbn [map]. apply SUM_pos; [exact Hr |].
  clear -Hrs. induction Hrs; cbn; constructor; auto.
Qed.

Lemma latest_two_months_positive c st now :
  amounts_positive st ->
  Forall (fun x => 0 < x) (map snd (latest_two_months c st now)).
Proof.
  intros Hpos. apply List.Forall_forall. intros t Ht.
  apply in_map_iff in Ht. destruct Ht as ([m t'] & <- & Hin). cbn.
  unfold latest_two_months in Hin. apply In_firstn_list in Hin.
  apply in_rev in Hin. apply (monthly_data_positive 6 c st now m t' Hpos Hin).
Qed.

Lemma monthly_growth_rate_defined totals :
  Forall (fun x => 0 < x) totals -> exists g, monthly_growth_rate totals = Some g.
Proof.
  intros Hpos. unfold monthly_growth_rate.
  destruct totals as [|t rest]; [eauto |].
  destruct (2 <=? COUNT (t :: rest))%Z; [| eauto].
  inversion Hpos as [|? ? Ht Hrest]; subst.
  pose proof (MIN_of_pos t rest Ht Hrest) as Hmin.
  destruct (Qeq_bool (MIN_of t rest) 0) eqn:E; [| eauto].
  apply Qeq_bool_iff in E. lra.
Qed.

(** X20. On a store whose amounts are all positive the forecast request
    of any company never fails: the division by the smallest monthly total
    is never a division by zero. *)
Theorem predictions_never_fail st now c :
  amounts_positive st -> c <> ""%string ->
  exists p, predictions_route st now (Some c) = Ok200 p.
Proof.
  intros Hpos Hc. unfold predictions_route. rewrite (truthy_nonempty c Hc).
  unfold historicalData, with_param1.
  destruct (monthly_growth_rate_defined _ (latest_two_months_positive c st now Hpos))
    as [g Hg].
  rewrite Hg. cbn. destruct (recent_trend c st now) as [avg n].
  destruct (monthly_data 12 c st now); eauto.
Qed.

Lemma predictions_never_fail_witness :
  amounts_positive Scenario.shrinking_store
  /\ exists p, predictions_route Scenario.shrinking_store Scenario.now
                 (Some Scenario.company) = Ok200 p.
Proof.
  assert (Hpos : amounts_positive Scenario.shrinking_store).
  { unfold amounts_positive. cbn. repeat (constructor; [reflexivity |]). constructor. }
  split; [exact Hpos |].
  apply (predictions_never_fail Scenario.shrinking_store Scenario.now Scenario.company
           Hpos). discriminate.
Defined.

End ForecastProps.

(** ** Supplier patterns and the supplier ranking *)

Section SupplierProps.
Import Sql Analytics Patterns Suppliers.

Lemma pattern_le_total a b : pattern_le a b = false -> pattern_le b a = true.
Proof.
  unfold pattern_le.
  rewrite orb_false_iff, andb_false_iff, orb_true_iff, andb_true_iff,
    !Z.ltb_ge, !Z.ltb_lt, Z.eqb_neq, Z.eqb_eq, Z.leb_gt, Z.leb_le.
  intros [H1 H2]. destruct (Z.eq_dec (frequency a) (frequency b)) as [E | E].
  - right. split; [lia |]. destruct H2; [contradiction | lia].
  - left. lia.
Qed.

Lemma NoDup_map_filter {A B} (f : A -> B) (p : A -> bool) l :
  List.NoDup (map f l) -> List.NoDup (map f (List.filter p l)).
Proof.
  induction l as [|x l IH]; cbn; [constructor |].
  intros H. inversion H as [|? ? Hx Hrest]; subst.
  destruct (p x); cbn; [| apply IH, Hrest].
  constructor; [| apply IH, Hrest].
  intros Hin. apply Hx. apply in_map_iff in Hin.
  destruct Hin as (y & E & Hy). apply filter_In in Hy.
  apply in_map_iff. exists y. split; [exact E | apply Hy].
Qed.

Lemma NoDup_map_firstn {A B} (f : A -> B) n : forall l,
  List.NoDup (map f l) -> List.NoDup (map f (firstn n l)).
Proof.
  induction n as [|n IH]; intros [|x l] Hl; cbn; try constructor.
  - inversion Hl as [|? ? Hx Hrest]; subst. intros Hin. apply Hx.
    apply in_map_iff in Hin. destruct Hin as (y & E & Hy).
    apply in_map_iff. exists y. split; [exact E | apply (In_firstn_list _ _ _ Hy)].
  - inversion Hl; subst. apply IH. assumption.
Qed.

(** X22. Every supplier pattern stands for a supplier with at least 3
    invoices of the company dated in the last 12 months: its frequency is
    the number of those invoices, no supplier is listed twice, at most 10
    are listed, most frequent first, and the label is overdue when the
    last invoice is more than 60 days old, expected_soon when more than
    30, recent otherwise. *)
Theorem supplier_patterns_sound st now c rows :
  supplierPatterns [c] st now = Some rows ->
  (List.length rows <= 10)%nat
  /\ Sorted (fun a b => pattern_le a b = true) rows
  /\ List.NoDup (map sp_supplier_name rows)
  /\ Forall (fun r =>
       3 <= frequency r
       /\ frequency r =
            COUNT (List.filter (fun x => String.eqb (by_supplier x) (sp_supplier_name r))
                     (dated_since 12 c st now))
       /\ sp_status r = pattern_status now (last_invoice r)) rows.
Proof.
  unfold supplierPatterns, with_param1. intros H. inversion H; subst rows; clear H.
  set (gs := supplier_groups c st now).
  set (kept := List.filter (fun g => 3 <=? COUNT (snd g)) gs).
  assert (Hperm : Permutation (ORDER_BY pattern_le (map (pattern_of now) kept))
                    (map (pattern_of now) kept)) by apply ORDER_BY_perm.
  split; [apply firstn_le_length |].
  split; [apply Sorted_firstn, ORDER_BY_Sorted, pattern_le_total |].
  split.
  - apply NoDup_map_firstn.
    eapply Permutation_NoDup;
      [apply Permutation_map, Permutation_sym, Hperm |].
    rewrite map_map. cbn [sp_supplier_name pattern_of].
    apply (NoDup_map_filter fst).
    apply (GROUP_BY_keys_NoDup _ _ string_strict_order by_supplier
             (dated_since 12 c st now)).
  - apply List.Forall_forall. intros r Hr. apply In_firstn_list in Hr.
    apply (Permutation_in _ Hperm) in Hr. apply in_map_iff in Hr.
    destruct Hr as ([k xs] & <- & Hg). unfold kept in Hg. apply filter_In in Hg.
    destruct Hg as [Hg H3]. cbn in H3. apply Z.leb_le in H3.
    destruct (GROUP_BY_rows _ _ string_strict_order by_supplier _ k xs Hg) as [Hxs _].
    cbn. split; [exact H3 |]. split; [rewrite Hxs at 1; reflexivity | reflexivity].
Qed.

Lemma supplier_patterns_sound_witness :
  exists rows,
    supplierPatterns [Scenario.company] recurring_store Scenario.now = Some rows
    /\ map sp_supplier_name rows = ["Acme"%string]
    /\ map frequency rows = [3]
    /\ map sp_status rows = ["expected_soon"%string]
    /\ (List.length rows <= 10)%nat
    /\ Forall (fun r =>
         3 <= frequency r
         /\ frequency r =
              COUNT (List.filter
                       (fun x => String.eqb (by_supplier x) (sp_supplier_name r))
                       (dated_since 12 Scenario.company recurring_store Scenario.now))
         /\ sp_status r = pattern_status Scenario.now (last_invoice r)) rows.
Proof.
  assert (E : exists rows,
             supplierPatterns [Scenario.company] recurring_store Scenario.now = Some rows
             /\ map sp_supplier_name rows = ["Acme"%string]
             /\ map frequency rows = [3]
             /\ map sp_status rows = ["expected_soon"%string])
    by (eexists; vm_compute; repeat split; reflexivity).
  destruct E as (rows & E & Hn & Hf & Hs). exists rows.
  destruct (supplier_patterns_sound recurring_store Scenario.now Scenario.company
              rows E) as (H1 & _ & _ & H2).
  split; [exact E |]. split; [exact Hn |]. split; [exact Hf |]. split; [exact Hs |].
  split; [exact H1 | exact H2].
Defined.

Lemma score_le_total (a b : ranked) :
  Qle_bool (score b) (score a) = false -> Qle_bool (score a) (score b) = true.
Proof. apply Qle_bool_total. Qed.

(** X23. The supplier ranking lists at most [limit] suppliers (10 when the
    request names none), best score first and no supplier twice; each row
    counts and sums exactly the company's invoices of that supplier dated
    in the period. The request fails with the generic 500 when limit is
    not a whole number between zero and the largest [bigint], 2^63 - 1. *)
Theorem top_suppliers_sound st now c period limit :
  c <> ""%string ->
  match (match limit with Some l => l | None => JsInt 10 end) with
  | JsNaN => top st now (Some c) period limit = ServerError500
  | JsInt n =>
      if (n <? 0) || (bigint_max <? n)
      then top st now (Some c) period limit = ServerError500
      else
        exists rows,
          top st now (Some c) period limit = Ok200 rows
          /\ Z.of_nat (List.length rows) <= n
          /\ Sorted (fun a b => Qle_bool (score b) (score a) = true) rows
          /\ List.NoDup (map r_supplier_name rows)
          /\ Forall (fun r =>
               let mine :=
                 List.filter (fun x => String.eqb (by_supplier x) (r_supplier_name r))
                   (List.filter
                      (Suppliers.dateFilter
                         (match period with Some p => p | None => "12m"%string end) now)
                      (not_null Invoice.invoice_date
                         (List.filter (of_company c) (invoices st)))) in
               invoice_count r = COUNT mine
               /\ r_total_amount r = SUM (map (fun x => Invoice.amount (snd x)) mine)
               /\ score r = importance_score (r_total_amount r) (invoice_count r)
                              (EXTRACT_DAYS now (r_last_invoice_date r))) rows
  end.
Proof.
  intros Hc. unfold top. rewrite (truthy_nonempty c Hc).
  destruct (match limit with Some l => l | None => JsInt 10 end) as [n|]; [| reflexivity].
  assert (Hok : row_count_ok n = negb ((n <? 0) || (bigint_max <? n))).
  { unfold row_count_ok. rewrite negb_orb, !Z.ltb_antisym, !negb_involutive.
    reflexivity. }
  rewrite Hok.
  destruct ((n <? 0) || (bigint_max <? n)) eqn:En; [reflexivity |]. cbn [negb].
  apply orb_false_iff in En. destruct En as [En _]. apply Z.ltb_ge in En.
  eexists. split; [reflexivity |].
  unfold top_query.
  set (p := match period with Some p => p | None => "12m"%string end).
  set (window := List.filter (Suppliers.dateFilter p now) _).
  set (gs := GROUP_BY String.ltb String.eqb _ window).
  set (le := fun a b : ranked => Qle_bool (score b) (score a)).
  assert (Hperm : Permutation (ORDER_BY le (map (rank_group st c now) gs))
                    (map (rank_group st c now) gs)) by apply ORDER_BY_perm.
  split.
  { pose proof (firstn_le_length (Z.to_nat n)
                  (ORDER_BY le (map (rank_group st c now) gs))). lia. }
  split; [apply Sorted_firstn, ORDER_BY_Sorted; intros a b; apply Qle_bool_total |].
  split.
  - apply NoDup_map_firstn.
    eapply Permutation_NoDup;
      [apply Permutation_map, Permutation_sym, Hperm |].
    rewrite map_map. cbn [r_supplier_name rank_group].
    apply (GROUP_BY_keys_NoDup _ _ string_strict_order by_supplier window).
  - apply List.Forall_forall. intros r Hr. apply In_firstn_list in Hr.
    apply (Permutation_in _ Hperm) in Hr. apply in_map_iff in Hr.
    destruct Hr as ([k xs] & <- & Hg).
    destruct (GROUP_BY_rows _ _ string_strict_order by_supplier _ k xs Hg) as [Hxs _].
    cbn. rewrite <- Hxs. repeat split; reflexivity.
Qed.

Lemma top_suppliers_sound_witness :
  Scenario.company <> ""%string
  /\ exists rows,
       top Scenario.gap_store Scenario.now (Some Scenario.company) None (Some (JsInt 5))
         = Ok200 rows
       /\ Z.of_nat (List.length rows) <= 5
       /\ List.NoDup (map r_supplier_name rows).
Proof.
  assert (Hc : Scenario.company <> ""%string) by discriminate.
  split; [exact Hc |].
  destruct (top_suppliers_sound Scenario.gap_store Scenario.now Scenario.company
              None (Some (JsInt 5)) Hc) as (rows & H & Hl & _ & Hn & _).
  exists rows. split; [exact H |]. split; [exact Hl | exact Hn].
Defined.

Local Open Scope Q_scope.

Lemma LEAST_cases a b : (a <= b -> LEAST a b = a) /\ (b < a -> LEAST a b = b).
Proof.
  unfold LEAST, Qmin. split; intros H.
  - apply Qle_bool_iff in H. rewrite H. reflexivity.
  - destruct (Qle_bool a b) eqn:E; [| reflexivity].
    apply Qle_bool_iff in E. lra.
Qed.

(** X24. Recency in the importance score: the score never rises when the
    last invoice gets older, a supplier whose last invoice is 30 or more
    days old gets no recency credit at all (its score is the volume and
    frequency terms alone), and the credit is at most 9 points unless the
    last invoice is dated in the future. *)
Theorem importance_recency (a : Q) (n d1 d2 : Z) :
  (d1 <= d2)%Z ->
  importance_score a n d2 <= importance_score a n d1
  /\ ((30 <= d1)%Z ->
      importance_score a n d1 == (a / 1000) * (4 # 10) + inject_Z n * (3 # 10))
  /\ ((0 <= d1)%Z ->
      importance_score a n d1 <= (a / 1000) * (4 # 10) + inject_Z n * (3 # 10) + 9).
Proof.
  intros Hd. unfold importance_score.
  set (v := (a / 1000) * (4 # 10)). set (f := inject_Z n * (3 # 10)).
  assert (H12 : inject_Z d1 <= inject_Z d2) by (rewrite <- Zle_Qle; exact Hd).
  assert (Hmono : LEAST 30 (inject_Z d1) <= LEAST 30 (inject_Z d2)).
  { destruct (Qlt_le_dec (inject_Z d1) 30) as [H1 | H1];
      destruct (Qlt_le_dec (inject_Z d2) 30) as [H2 | H2].
    - rewrite (proj2 (LEAST_cases _ _) H1), (proj2 (LEAST_cases _ _) H2). exact H12.
    - rewrite (proj2 (LEAST_cases _ _) H1), (proj1 (LEAST_cases _ _) H2). lra.
    - lra.
    - rewrite (proj1 (LEAST_cases _ _) H1), (proj1 (LEAST_cases _ _) H2). lra. }
  split; [lra |]. split.
  - intros H30. assert (H : 30 <= inject_Z d1).
    { change 30 with (inject_Z 30). rewrite <- Zle_Qle. exact H30. }
    rewrite (proj1 (LEAST_cases _ _) H). lra.
  - intros H0. assert (H : 0 <= inject_Z d1).
    { change 0 with (inject_Z 0). rewrite <- Zle_Qle. exact H0. }
    destruct (Qlt_le_dec (inject_Z d1) 30) as [H1 | H1].
    + rewrite (proj2 (LEAST_cases _ _) H1). lra.
    + rewrite (proj1 (LEAST_cases _ _) H1). lra.
Qed.

Lemma importance_recency_witness :
  (5 <= 45)%Z
  /\ importance_score 100 2 45 <= importance_score 100 2 5
  /\ importance_score 100 2 45 == (100 / 1000) * (4 # 10) + inject_Z 2 * (3 # 10).
Proof.
  assert (H : (5 <= 45)%Z) by lia.
  assert (H' : (45 <= 45)%Z) by lia.
  assert (H30 : (30 <= 45)%Z) by lia.
  split; [exact H |]. split.
  - exact (proj1 (importance_recency 100 2 5 45 H)).
  - exact (proj1 (proj2 (importance_recency 100 2 45 45 H')) H30).
Defined.

End SupplierProps.

(** ** The monthly summary *)

Section MonthlyProps.
Import Sql Analytics Monthly.

Lemma length_left_join_rows {A} (l : list A) :
  List.length (left_join_rows l) = Nat.max 1 (List.length l).
Proof.
  destruct l as [|x l]; [reflexivity |]. cbn [left_join_rows]. rewrite length_map.
  reflexivity.
Qed.

Lemma some_of_app {A} (l1 l2 : list (option A)) :
  some_of (l1 ++ l2) = some_of l1 ++ some_of l2.
Proof. unfold some_of. apply flat_map_app. Qed.

Lemma some_of_map_Some {A} (l : list A) : some_of (map Some l) = l.
Proof.
  unfold some_of. induction l as [|x l IH]; cbn; [reflexivity | rewrite IH; reflexivity].
Qed.

Lemma some_of_left_join_rows {A} (l : list A) : some_of (left_join_rows l) = l.
Proof. destruct l as [|x l]; [reflexivity |]. apply (some_of_map_Some (x :: l)). Qed.

Lemma some_of_left_side {A B} (d : option A) (R : list B) :
  some_of (map fst (map (fun c => (d, c)) R))
  = match d with Some x => repeat x (List.length R) | None => [] end.
Proof.
  unfold some_of. induction R as [|r R IH]; cbn; [destruct d; reflexivity |].
  destruct d as [x|]; cbn in *; [rewrite IH; reflexivity | exact IH].
Qed.

Lemma some_of_joined_left {A B} (L : list (option A)) (R : list B) :
  some_of (map fst (flat_map (fun d => map (fun c => (d, c)) R) L))
  = flat_map (fun x => repeat x (List.length R)) (some_of L).
Proof.
  induction L as [|d L IH]; [reflexivity |].
  cbn [flat_map]. rewrite map_app, some_of_app, some_of_left_side, IH.
  destruct d as [x|]; reflexivity.
Qed.

Lemma some_of_joined_right {A B} (L : list A) (R : list (option B)) :
  some_of (map snd (flat_map (fun d => map (fun c => (d, c)) R) L))
  = concat (repeat (some_of R) (List.length L)).
Proof.
  induction L as [|d L IH]; [reflexivity |].
  cbn [flat_map List.length repeat concat]. rewrite map_app, some_of_app, IH.
  f_equal. rewrite map_map. cbn [snd]. rewrite map_id. reflexivity.
Qed.

Lemma length_flat_map_repeat {A} (n : nat) (l : list A) :
  List.length (flat_map (fun x => repeat x n) l) = (List.length l * n)%nat.
Proof.
  induction l as [|x l IH]; [reflexivity |].
  cbn [flat_map List.length]. rewrite length_app, repeat_length, IH. lia.
Qed.

(** X25. The monthly summary repeats its breakdown entries: with D days
    and C categories in the month, every day's entry is listed max(1, C)
    times in the daily breakdown and every category's entry max(1, D)
    times in the category breakdown, because the two breakdowns are
    joined to each other before they are aggregated. *)
Theorem monthly_breakdowns_repeat st now c y m cats :
  c <> ""%string ->
  category_breakdown (map snd (in_month c y m st)) = Some cats ->
  let days := daily_breakdown (in_month c y m st) in
  exists d,
    monthly st now (Some c) (Some (NumText y)) (Some (NumText m)) = Ok200 d
    /\ Permutation (md_daily_breakdown d)
         (flat_map (fun x => repeat x (Nat.max 1 (List.length cats))) days)
    /\ Permutation (md_category_breakdown d)
         (concat (repeat cats (Nat.max 1 (List.length days))))
    /\ List.length (md_daily_breakdown d)
       = (List.length days * Nat.max 1 (List.length cats))%nat.
Proof.
  intros Hc Hcats days. unfold monthly. rewrite (truthy_nonempty c Hc), Hcats.
  fold days. eexists. split; [reflexivity |].
  cbn [md_daily_breakdown md_category_breakdown].
  assert (Hd : some_of (map fst (joined days cats))
               = flat_map (fun x => repeat x (Nat.max 1 (List.length cats))) days).
  { unfold joined. rewrite some_of_joined_left, some_of_left_join_rows,
      length_left_join_rows. reflexivity. }
  assert (Hk : some_of (map snd (joined days cats))
               = concat (repeat cats (Nat.max 1 (List.length days)))).
  { unfold joined. rewrite some_of_joined_right, some_of_left_join_rows,
      length_left_join_rows. reflexivity. }
  unfold daily_json, category_json. rewrite Hd, Hk.
  split; [apply ORDER_BY_perm |]. split; [apply ORDER_BY_perm |].
  rewrite (Permutation_length (ORDER_BY_perm _ _)). apply length_flat_map_repeat.
Qed.

Lemma monthly_breakdowns_repeat_witness :
  exists cats d,
    category_breakdown (map snd (in_month Scenario.company 2024 3 two_category_store))
      = Some cats
    /\ monthly two_category_store Scenario.now (Some Scenario.company)
         (Some (NumText 2024)) (Some (NumText 3)) = Ok200 d
    /\ List.length (daily_breakdown (in_month Scenario.company 2024 3 two_category_store))
       = 2%nat
    /\ List.length (md_daily_breakdown d) = 4%nat.
Proof.
  assert (E : exists cats,
             category_breakdown
               (map snd (in_month Scenario.company 2024 3 two_category_store))
             = Some cats /\ List.length cats = 2%nat)
    by (eexists; split; vm_compute; reflexivity).
  destruct E as (cats & E & Hl).
  assert (Hc : Scenario.company <> ""%string) by discriminate.
  assert (Hdays : List.length
                    (daily_breakdown (in_month Scenario.company 2024 3 two_category_store))
                  = 2%nat) by (vm_compute; reflexivity).
  pose proof (monthly_breakdowns_repeat two_category_store Scenario.now Scenario.company
                2024 3 cats Hc E) as P.
  cbv zeta in P. destruct P as (d & Hd & _ & _ & Hlen).
  exists cats, d. split; [exact E |]. split; [exact Hd |]. split; [exact Hdays |].
  rewrite Hlen, Hdays, Hl. reflexivity.
Defined.

End MonthlyProps.

(** ** The daily metrics *)

Section DailyMetricsProps.
Import Sql Analytics DailyMetrics.

Lemma todays_row_same_day c st now now' :
  current_date now' = current_date now ->
  todays_row c st now'
  = mk_daily_row (ad_total_invoices (todays_row c st now))
      (ad_total_amount (todays_row c st now))
      (ad_pending_invoices (todays_row c st now))
      (ad_new_suppliers (todays_row c st now)) now'.
Proof.
  intros H. unfold todays_row, created_today. rewrite H. reflexivity.
Qed.

Lemma upsert_daily_lookup c st now tbl :
  exists row,
    upsert_daily c st now tbl !! (c, current_date now) = Some row
    /\ upsert_daily c st now tbl = <[(c, current_date now) := row]> tbl
    /\ ad_total_invoices row = ad_total_invoices (todays_row c st now)
    /\ ad_total_amount row = ad_total_amount (todays_row c st now)
    /\ ad_pending_invoices row = ad_pending_invoices (todays_row c st now)
    /\ ad_new_suppliers row = ad_new_suppliers (todays_row c st now)
    /\ ad_created_at row
       = match tbl !! (c, current_date now) with
         | Some old => ad_created_at old
         | None => now
         end.
Proof.
  unfold upsert_daily. eexists. split; [apply lookup_insert_eq |].
  split; [reflexivity |].
  destruct (tbl !! (c, current_date now)); repeat split; reflexivity.
Qed.

(** X26. Refreshing the daily metrics is idempotent within a day: on an
    unchanged invoice table a second request of the same company on the
    same date leaves the metrics table exactly as the first left it (the
    row keeps its first created_at). After a request the row of (company,
    today) counts and sums the company's invoices created today, with the
    pending count at most the total, and no other row is changed; a request
    without phone or action is answered 400 and changes nothing. *)
Theorem update_metrics_idempotent st tbl now now' b :
  current_date now' = current_date now ->
  snd (update_metrics st (snd (update_metrics st tbl now b)) now' b)
    = snd (update_metrics st tbl now b)
  /\ match truthy (mb_phone b), truthy (mb_action b) with
     | Some phone, Some action =>
         let today := List.filter (created_today phone now) (invoices st) in
         exists row,
           update_metrics st tbl now b
             = (Ok200 action, <[(phone, current_date now) := row]> tbl)
           /\ ad_total_invoices row = COUNT today
           /\ ad_total_amount row = sum_amount today
           /\ 0 <= ad_pending_invoices row <= ad_total_invoices row
     | _, _ => update_metrics st tbl now b = (BadRequest400, tbl)
     end.
Proof.
  intros Hday. unfold update_metrics.
  destruct (truthy (mb_phone b)) as [phone|]; [| split; reflexivity].
  destruct (truthy (mb_action b)) as [action|]; [| split; reflexivity].
  cbn [snd].
  destruct (upsert_daily_lookup phone st now tbl)
    as (row & Hl & Hu & H1 & H2 & H3 & H4 & H5).
  split.
  - unfold upsert_daily at 1. rewrite Hday, Hl.
    rewrite (todays_row_same_day phone st now now' Hday).
    cbn [ad_total_invoices ad_total_amount ad_pending_invoices ad_new_suppliers].
    rewrite <- H1, <- H2, <- H3, <- H4. rewrite Hu.
    destruct row.
    cbn [ad_total_invoices ad_total_amount ad_pending_invoices ad_new_suppliers
         ad_created_at].
    apply insert_insert_eq.
  - cbv zeta. exists row. split; [rewrite Hu; reflexivity |].
    split; [exact H1 |]. split; [exact H2 |].
    rewrite H3, H1. cbn [todays_row ad_pending_invoices ad_total_invoices].
    unfold COUNT.
    pose proof (filter_length_le (has_status pending)
                  (List.filter (created_today phone now) (invoices st))).
    lia.
Qed.

Lemma update_metrics_idempotent_witness :
  current_date (Scenario.now + 60) = current_date Scenario.now
  /\ snd (update_metrics Scenario.gap_store
            (snd (update_metrics Scenario.gap_store ∅ Scenario.now
                    (mk_metrics_body (Some Scenario.company) (Some "created"%string))))
            (Scenario.now + 60)
            (mk_metrics_body (Some Scenario.company) (Some "created"%string)))
     = snd (update_metrics Scenario.gap_store ∅ Scenario.now
              (mk_metrics_body (Some Scenario.company) (Some "created"%string))).
Proof.
  assert (H : current_date (Scenario.now + 60) = current_date Scenario.now)
    by (vm_compute; reflexivity).
  split; [exact H |].
  exact (proj1 (update_metrics_idempotent Scenario.gap_store ∅ Scenario.now
                  (Scenario.now + 60)
                  (mk_metrics_body (Some Scenario.company) (Some "created"%string)) H)).
Defined.

End DailyMetricsProps.
